(** * specific-tool: hardware backends and automation toggle

    A shallow embedding of [modules/hardware.py] (the VXE mouse backend, the
    Nvidia vibrance service and the Windows pointer-speed service) and of the
    engine-facing actions of [modules/ui.py], together with the properties
    the design document states about them.

    Python values are modelled as the code uses them: [int] as [Z], [float]
    as IEEE-754 binary64 through the Standard Library's [SpecFloat], module
    globals as a finite map from names to objects, exceptions as an error
    result, and hardware I/O as an ordered trace of events. *)

From Stdlib Require Import ZArith List String Ascii Bool Lia Sorted SpecFloat.
From stdpp Require Import base option gmap strings sorting.

Open Scope string_scope.
Open Scope list_scope.
Open Scope Z_scope.

(* ===================================================================== *)
(** ** Python values, exceptions and binary64 arithmetic *)
(* ===================================================================== *)

Module Py.

(** The exceptions the modelled code can meet. *)
Inductive exn : Type :=
| NameError (name : string)
| TypeError (what : string)
| ValueError (what : string)
| OverflowError (what : string)
| ZeroDivisionError
| KeyError (key : Z)
| IOError (what : string).

Inductive result (A : Type) : Type :=
| Ok (a : A)
| Raise (e : exn).
Arguments Ok {A} a.
Arguments Raise {A} e.

#[global] Instance result_ret : MRet result := fun _ a => Ok a.
#[global] Instance result_bind : MBind result := fun _ _ f r =>
  match r with
  | Ok a => f a
  | Raise e => Raise e
  end.

(** [float] is binary64: 53 bits of precision, infinities at exponent 1024. *)
Definition prec : Z := 53.
Definition emax : Z := 1024.
Definition float : Type := spec_float.

Definition is_finite (x : float) : bool :=
  match x with
  | S754_zero _ | S754_finite _ _ _ => true
  | _ => false
  end.

(** [float(n)] for an [int]: correctly rounded, [OverflowError] when the
    integer is too large for a double. *)
Definition float_of_int (n : Z) : result float :=
  let x := binary_normalize prec emax n 0 false in
  if is_finite x then Ok x
  else Raise (OverflowError "int too large to convert to float").

(** A decimal literal [m * 10^-k] (as [1.26] is [lit 126 2]): the double
    nearest to it, obtained as the correctly rounded quotient of two
    exactly representable integers. *)
Definition lit (m : Z) (k : Z) : float :=
  SFdiv prec emax (binary_normalize prec emax m 0 false)
                  (binary_normalize prec emax (10 ^ k) 0 false).

Definition fmul (x y : float) : float := SFmul prec emax x y.
Definition fsub (x y : float) : float := SFsub prec emax x y.
Definition fabs (x : float) : float := SFabs x.

(** [x / y] on floats raises on a zero divisor. *)
Definition ftruediv (x y : float) : result float :=
  match y with
  | S754_zero _ => Raise ZeroDivisionError
  | _ => Ok (SFdiv prec emax x y)
  end.

(** [x < y] on floats ([False] whenever a NaN is involved). *)
Definition flt (x y : float) : bool := SFltb x y.
Definition fle (x y : float) : bool := SFleb x y.

(** [int(x)] for a float: truncation toward zero. *)
Definition int_of_float (x : float) : result Z :=
  match x with
  | S754_zero _ => Ok 0
  | S754_finite s m e =>
      let a := if 0 <=? e then Z.shiftl (Z.pos m) e
               else Z.shiftr (Z.pos m) (- e) in
      Ok (if s then - a else a)
  | S754_infinity _ =>
      Raise (OverflowError "cannot convert float infinity to integer")
  | S754_nan => Raise (ValueError "cannot convert float NaN to integer")
  end.

(** [int * float] and [float / int]: the integer operand is converted
    first. *)
Definition int_mul_float (n : Z) (y : float) : result float :=
  x ← float_of_int n; mret (fmul x y).

Definition float_div_int (x : float) (n : Z) : result float :=
  y ← float_of_int n; ftruediv x y.

(** [min(a, b)] and [max(a, b)] on integers. *)
Definition min2 (a b : Z) : Z := if b <? a then b else a.
Definition max2 (a b : Z) : Z := if a <? b then b else a.

(** [min(iterable, key=f)]: the first element whose key is smallest; a
    later element replaces the current one only when its key is strictly
    smaller. *)
Fixpoint min_key_from {A : Type} (best : A) (kbest : float)
    (rest : list (A * float)) : A :=
  match rest with
  | [] => best
  | (x, kx) :: rest' =>
      if flt kx kbest then min_key_from x kx rest'
      else min_key_from best kbest rest'
  end.

Definition min_key {A : Type} (keyed : list (A * float)) : result A :=
  match keyed with
  | [] => Raise (ValueError "min() arg is an empty sequence")
  | (x, kx) :: rest => Ok (min_key_from x kx rest)
  end.

(** [str.lower()] on a text of ASCII characters, where only A..Z change,
    and the [in] test on strings. The device paths of [connect] are
    searched for ASCII needles; the texts of the interface, which may
    hold any character, go through the parameters [str_lower] and
    [str_strip] of [Profiles] instead. *)
Definition lower_ascii (c : ascii) : ascii :=
  let n := nat_of_ascii c in
  if ((65 <=? n) && (n <=? 90))%nat then ascii_of_nat (n + 32) else c.

Fixpoint lower (s : string) : string :=
  match s with
  | EmptyString => EmptyString
  | String c s' => String (lower_ascii c) (lower s')
  end.

Definition contains (needle hay : string) : bool :=
  match String.index 0 needle hay with
  | Some _ => true
  | None => false
  end.

End Py.

Import Py.

(* ===================================================================== *)
(** ** The outside world: hardware events and the effect monad *)
(* ===================================================================== *)

(** A HID report or command: the bytes handed to [device.write]. *)
Definition packet : Type := list Z.

Inductive event : Type :=
| HidWrite (data : packet)                      (* device.write(data) *)
| Sleep (ms : Z)                                (* time.sleep(ms / 1000) *)
| LogError (msg : string) (e : exn)             (* logger.error(f"msg: {e}") *)
| LogWarning (msg : string) (e : exn)           (* logger.warning(...) *)
| SetDVCLevel (handle reserved level : Z)       (* nvapi 0x172409B4 *)
| SysParamGet (uiAction : Z)                    (* SystemParametersInfoW, read *)
| SysParamSet (uiAction uiParam pvParam fWinIni : Z).

(** The world a backend acts on: the chronological trace of its I/O and
    the operating system's current pointer-speed setting. *)
Record world : Type := World {
  events : list event;
  pointer_speed : Z
}.

Definition emit (e : event) (w : world) : world :=
  {| events := events w ++ [e]; pointer_speed := pointer_speed w |}.

(** Methods of an object of class [T]: computations over the object's
    fields and the world, which may raise. The state reached is kept when an
    exception is raised: assignments and I/O already done stay done. *)
Definition M (T A : Type) : Type := T * world -> result A * (T * world).

#[global] Instance M_ret {T} : MRet (M T) := fun _ a s => (Ok a, s).
#[global] Instance M_bind {T} : MBind (M T) := fun _ _ f m s =>
  match m s with
  | (Ok a, s') => f a s'
  | (Raise e, s') => (Raise e, s')
  end.

Definition raise {T A : Type} (e : exn) : M T A := fun s => (Raise e, s).
Definition lift {T A : Type} (r : result A) : M T A := fun s => (r, s).
Definition tell {T : Type} (e : event) : M T unit :=
  fun s => (Ok tt, (s.1, emit e s.2)).
Definition get_self {T : Type} : M T T := fun s => (Ok s.1, s).
Definition put_self {T : Type} (self : T) : M T unit :=
  fun s => (Ok tt, (self, s.2)).
Definition get_world {T : Type} : M T world := fun s => (Ok s.2, s).
Definition put_world {T : Type} (w : world) : M T unit :=
  fun s => (Ok tt, (s.1, w)).

(** [try: body except Exception as e: handler(e)]. *)
Definition try_except {T A : Type} (body : M T A) (handler : exn -> M T A)
    : M T A :=
  fun s =>
    match body s with
    | (Ok a, s') => (Ok a, s')
    | (Raise e, s') => handler e s'
    end.

(** [for x in xs: body(x)]. *)
Fixpoint for_each {T A : Type} (xs : list A) (body : A -> M T unit)
    : M T unit :=
  match xs with
  | [] => mret tt
  | x :: xs' => body x ;; for_each xs' body
  end.

Definition sleep {T : Type} (ms : Z) : M T unit := tell (Sleep ms).

(** The trace of I/O in a state. *)
Definition trace_of {T : Type} (s : T * world) : list event := events s.2.

(* ===================================================================== *)
(** ** [VXEMouseBackend]: the HID mouse receiver *)
(* ===================================================================== *)

Module VXEMouseBackend.

(** What [hid.enumerate] reports for one interface, and whether
    [open_path] succeeds on it. *)
Record hid_info : Type := HidInfo {
  path : string;
  openable : bool
}.

(** A [hid.device()] object. Writing to one that is not open raises. *)
Record hid_device : Type := HidDevice {
  opened : bool;
  nonblocking : bool
}.

(** The instance: [self.device] is [None] or a device object. *)
Record t : Type := Make { device : option hid_device }.

Definition VENDOR_ID : Z := 0x373B.
Definition PRODUCT_ID : Z := 0x1040.

Definition __init__ : t := {| device := None |}.

(** [if self.device]: [None] is falsy, a device object is truthy. *)
Definition has_device (self : t) : bool :=
  match device self with
  | Some _ => true
  | None => false
  end.

Definition device_write (data : packet) : M t unit :=
  self ← get_self;
  match device self with
  | Some d =>
      if opened d then tell (HidWrite data)
      else raise (ValueError "not open")
  | None => raise (TypeError "'NoneType' object has no attribute 'write'")
  end.

Definition open_path (d : hid_info) : M t unit :=
  if openable d then
    put_self {| device := Some {| opened := true; nonblocking := false |} |}
  else raise (IOError "open failed").

Definition set_nonblocking (v : Z) : M t unit :=
  self ← get_self;
  match device self with
  | Some d =>
      if opened d then
        put_self {| device := Some {| opened := true;
                                      nonblocking := negb (v =? 0) |} |}
      else raise (ValueError "not open")
  | None => raise (TypeError "'NoneType' object has no attribute")
  end.

(** The body of the [for d in hid.enumerate(...)] loop of [connect],
    with its early [return True]. *)
Fixpoint connect_loop (ds : list hid_info) : M t bool :=
  match ds with
  | [] => mret false
  | d :: ds' =>
      let p := lower (path d) in
      if contains "mi_01" p && contains "col05" p then
        put_self {| device := Some {| opened := false;
                                      nonblocking := false |} |} ;;
        open_path d ;;
        set_nonblocking 1 ;;
        mret true
      else connect_loop ds'
  end.

(** [connect]: [enumerate] is the outcome of
    [hid.enumerate(VENDOR_ID, PRODUCT_ID)]. *)
Definition connect (enumerate : result (list hid_info)) : M t bool :=
  try_except
    (ds ← lift enumerate; connect_loop ds)
    (fun e => tell (LogError "VXE Mouse connect error" e) ;; mret false).

Definition _send (data : packet) : M t unit :=
  self ← get_self;
  if has_device self then
    try_except (device_write data)
               (fun e => tell (LogError "VXE Mouse send error" e))
  else mret tt.

(** *** Module globals

    [from .constants import CMD_HZ_8000, CMD_HZ_1000, SEQ_DPI_1600,
    SEQ_DPI_800] binds exactly these four names of the constants module.
    The module itself is not part of the sources: the values of the four
    names (reverse-engineered byte sequences) are parameters. *)
Record constants : Type := Constants {
  CMD_HZ_8000 : packet;
  CMD_HZ_1000 : packet;
  SEQ_DPI_1600 : list packet;
  SEQ_DPI_800 : list packet
}.

Inductive pyobj : Type :=
| PyPacket (p : packet)
| PyPacketSeq (ps : list packet)
| PyObject (descr : string).

Section Globals.
Variable consts : constants.

(** The names bound at module level in [modules/hardware.py], in
    binding order. *)
Definition module_bindings : list (string * pyobj) :=
  [ ("ctypes", PyObject "module");
    ("hid", PyObject "module");
    ("os", PyObject "module");
    ("struct", PyObject "module");
    ("time", PyObject "module");
    ("logging", PyObject "module");
    ("ABC", PyObject "class");
    ("abstractmethod", PyObject "function");
    ("List", PyObject "typing");
    ("Optional", PyObject "typing");
    ("CMD_HZ_8000", PyPacket (CMD_HZ_8000 consts));
    ("CMD_HZ_1000", PyPacket (CMD_HZ_1000 consts));
    ("SEQ_DPI_1600", PyPacketSeq (SEQ_DPI_1600 consts));
    ("SEQ_DPI_800", PyPacketSeq (SEQ_DPI_800 consts));
    ("logger", PyObject "Logger");
    ("IMouseBackend", PyObject "class");
    ("IGPUBackend", PyObject "class");
    ("IOSMouseService", PyObject "class");
    ("VXEMouseBackend", PyObject "class");
    ("NvidiaService", PyObject "class");
    ("WindowsMouseService", PyObject "class") ].

Definition globals : gmap string pyobj := list_to_map module_bindings.

(** Reading a global name inside a function body: a name that is not
    bound raises [NameError] (no builtin has one of these names). *)
Definition load_global (name : string) : M t pyobj :=
  match globals !! name with
  | Some v => mret v
  | None => raise (NameError name)
  end.

(** The imported names are bound to a single command and to a sequence
    of commands respectively; any other shape is a type error. *)
Definition as_packet (v : pyobj) : M t packet :=
  match v with
  | PyPacket p => mret p
  | _ => raise (TypeError "not a command packet")
  end.

Definition as_packet_seq (v : pyobj) : M t (list packet) :=
  match v with
  | PyPacketSeq ps => mret ps
  | _ => raise (TypeError "not a sequence of command packets")
  end.

Definition set_game_mode : M t unit :=
  self ← get_self;
  if negb (has_device self) then mret tt
  else
    seq ← load_global "SEQ_DPI_1600" ≫= as_packet_seq;
    for_each seq (fun p => _send p ;; sleep 20) ;;
    sleep 250 ;;
    cmd ← load_global "CMD_HZ_2000" ≫= as_packet;
    _send cmd.

Definition set_desktop_mode : M t unit :=
  self ← get_self;
  if negb (has_device self) then mret tt
  else
    seq ← load_global "SEQ_DPI_800" ≫= as_packet_seq;
    for_each seq (fun p => _send p ;; sleep 20) ;;
    sleep 250 ;;
    cmd ← load_global "CMD_HZ_1000" ≫= as_packet;
    _send cmd.

End Globals.

End VXEMouseBackend.

(* ===================================================================== *)
(** ** [NvidiaService]: digital vibrance through NVAPI *)
(* ===================================================================== *)

Module NvidiaService.

(** What the machine offers to [_init_api]: whether the DLL file exists,
    whether loading it and resolving its entry points succeeds, the status
    of [nvapi_Initialize], and the (status, handle) answer of
    [nvapi_EnumDisplayHandle] for each index. *)
Record driver : Type := Driver {
  dll_exists : bool;
  load_library : result unit;
  initialize : Z;
  enum_display : Z -> Z * Z
}.

(** The instance: the enumerated display handles and the availability
    flag ([_nvapi] and [_set_dvc] are foreign handles, used through
    [_set_dvc] below). *)
Record t : Type := Make {
  _handles : list Z;
  _is_avail : bool
}.

Definition _set_dvc (h reserved val : Z) : M t unit :=
  tell (SetDVCLevel h reserved val).

(** [for i in range(10)]: append while the enumeration succeeds, stop at
    the first failure. *)
Fixpoint enum_loop (drv : driver) (indices : list Z) : M t unit :=
  match indices with
  | [] => mret tt
  | i :: rest =>
      let '(status, h) := enum_display drv i in
      if status =? 0 then
        self ← get_self;
        put_self {| _handles := _handles self ++ [h];
                    _is_avail := _is_avail self |} ;;
        enum_loop drv rest
      else mret tt
  end.

Definition range10 : list Z := [0; 1; 2; 3; 4; 5; 6; 7; 8; 9].

Definition _init_api (drv : driver) : M t unit :=
  try_except
    (if dll_exists drv then
       lift (load_library drv) ;;
       if initialize drv =? 0 then
         enum_loop drv range10 ;;
         self ← get_self;
         put_self {| _handles := _handles self; _is_avail := true |}
       else mret tt
     else mret tt)
    (fun e => tell (LogWarning "Nvidia Service init failed" e)).

Definition __init__ (drv : driver) (w : world) : t * world :=
  (_init_api drv ({| _handles := []; _is_avail := false |}, w)).2.

Definition available (self : t) : bool := _is_avail self.

(** [max(-63, min(63, int((level - 50) * 1.26)))]. *)
Definition vibrance_val (level : Z) : result Z :=
  x ← int_mul_float (level - 50) (lit 126 2);
  n ← int_of_float x;
  mret (max2 (-63) (min2 63 n)).

(** [level] is [None] or an integer. *)
Definition set_vibrance (level : option Z) (primary_only : bool)
    : M t unit :=
  self ← get_self;
  if negb (available self) then mret tt
  else
    let level := match level with None => 50 | Some l => l end in
    try_except
      (val ← lift (vibrance_val level);
       match primary_only, _handles self with
       | true, h0 :: _ => _set_dvc h0 0 val
       | _, hs => for_each hs (fun h => _set_dvc h 0 val)
       end)
      (fun e => tell (LogError "Failed to set vibrance" e)).

End NvidiaService.

(* ===================================================================== *)
(** ** [WindowsMouseService]: the system pointer speed *)
(* ===================================================================== *)

Module WindowsMouseService.

(** The class attribute [_MAP], in insertion order: pointer-speed index
    to sensitivity multiplier. *)
Definition _MAP : list (Z * float) :=
  [ (1, lit 3125 5); (2, lit 625 4); (3, lit 125 3); (4, lit 25 2);
    (5, lit 375 3); (6, lit 5 1); (7, lit 625 3); (8, lit 75 2);
    (9, lit 875 3); (10, lit 10 1); (11, lit 125 2); (12, lit 15 1);
    (13, lit 175 2); (14, lit 20 1); (15, lit 225 2); (16, lit 25 1);
    (17, lit 275 2); (18, lit 30 1); (19, lit 325 2); (20, lit 35 1) ].

Definition keys {V : Type} (d : list (Z * V)) : list Z := map fst d.

(** [d.get(k, default)] and [d[k]]. *)
Definition dict_get {V : Type} (d : list (Z * V)) (k : Z) (default : V) : V :=
  match find (fun kv => fst kv =? k) d with
  | Some kv => snd kv
  | None => default
  end.

Definition dict_getitem {V : Type} (d : list (Z * V)) (k : Z) : result V :=
  match find (fun kv => fst kv =? k) d with
  | Some kv => Ok (snd kv)
  | None => Raise (KeyError k)
  end.

(** The instance: the pointer speed captured at construction. *)
Record t : Type := Make { _default : Z }.

Definition SPI_GETMOUSESPEED : Z := 0x0070.
Definition SPI_SETMOUSESPEED : Z := 0x0071.

(** [SystemParametersInfoW(0x0071, 0, v, flags)]: the system accepts a
    speed between 1 and 20 and rejects the call otherwise. *)
Definition SystemParametersInfoW_set (uiAction uiParam pvParam fWinIni : Z)
    : M t unit :=
  tell (SysParamSet uiAction uiParam pvParam fWinIni) ;;
  w ← get_world;
  if (uiAction =? SPI_SETMOUSESPEED) && (1 <=? pvParam) && (pvParam <=? 20)
  then put_world {| events := events w; pointer_speed := pvParam |}
  else mret tt.

Definition _get_speed : M t Z :=
  tell (SysParamGet SPI_GETMOUSESPEED) ;;
  w ← get_world;
  mret (pointer_speed w).

Definition __init__ (w : world) : t * world :=
  match _get_speed ({| _default := 0 |}, w) with
  | (Ok s, (_, w')) => ({| _default := s |}, w')
  | (Raise _, (self, w')) => (self, w')
  end.

(** [index] is an [int], on which [int(index)] is the identity. *)
Definition set_speed (index : Z) : M t unit :=
  SystemParametersInfoW_set SPI_SETMOUSESPEED 0
                            (max2 1 (min2 20 index)) (Z.lor 0x01 0x02).

Definition reset : M t unit :=
  self ← get_self;
  set_speed (_default self).

(** The key of [min] in [optimize]: [abs(self._MAP[k] - req)]. *)
Definition distance (req : float) (k : Z) : result float :=
  m ← dict_getitem _MAP k;
  mret (fabs (fsub m req)).

Fixpoint with_keys (req : float) (ks : list Z) : result (list (Z * float)) :=
  match ks with
  | [] => Ok []
  | k :: ks' =>
      d ← distance req k;
      rest ← with_keys req ks';
      mret ((k, d) :: rest)
  end.

(** [req = (base * self._MAP.get(10, 1.0)) / target]. *)
Definition requested (base target : Z) : result float :=
  b ← int_mul_float base (dict_get _MAP 10 (lit 10 1));
  float_div_int b target.

(** [min(self._MAP.keys(), key=lambda k: abs(self._MAP[k] - req))]. *)
Definition nearest_index (base target : Z) : result Z :=
  req ← requested base target;
  keyed ← with_keys req (keys _MAP);
  min_key keyed.

Definition optimize (base target : Z) : M t unit :=
  k ← lift (nearest_index base target);
  set_speed k.

End WindowsMouseService.

(* ===================================================================== *)
(** ** [App]: the automation toggle and the recorded mode *)
(* ===================================================================== *)

Module App.

(** The engine fields the interface reads and writes: [engine.running]
    and [engine.current_state], one of the strings ["unknown"],
    ["desktop"] and ["game"]. *)
Record AutomationEngine : Type := Engine {
  running : bool;
  current_state : string
}.

(** The application object: the engine, the three backends, the values
    of the two vibrance sliders and of the single-monitor switch, and the
    texts of the toggle button and of the status label. *)
Record t : Type := Make {
  engine : AutomationEngine;
  hw_mouse : VXEMouseBackend.t;
  hw_gpu : NvidiaService.t;
  hw_os : WindowsMouseService.t;
  slider_vib_desk : Z;
  slider_vib_game : Z;
  chk_single : bool;
  btn_toggle : string;
  lbl_status_text : string
}.

Definition set_engine (e : AutomationEngine) (a : t) : t :=
  {| engine := e; hw_mouse := hw_mouse a; hw_gpu := hw_gpu a;
     hw_os := hw_os a; slider_vib_desk := slider_vib_desk a;
     slider_vib_game := slider_vib_game a; chk_single := chk_single a;
     btn_toggle := btn_toggle a; lbl_status_text := lbl_status_text a |}.

Definition set_hw_mouse (m : VXEMouseBackend.t) (a : t) : t :=
  {| engine := engine a; hw_mouse := m; hw_gpu := hw_gpu a;
     hw_os := hw_os a; slider_vib_desk := slider_vib_desk a;
     slider_vib_game := slider_vib_game a; chk_single := chk_single a;
     btn_toggle := btn_toggle a; lbl_status_text := lbl_status_text a |}.

Definition set_hw_gpu (g : NvidiaService.t) (a : t) : t :=
  {| engine := engine a; hw_mouse := hw_mouse a; hw_gpu := g;
     hw_os := hw_os a; slider_vib_desk := slider_vib_desk a;
     slider_vib_game := slider_vib_game a; chk_single := chk_single a;
     btn_toggle := btn_toggle a; lbl_status_text := lbl_status_text a |}.

Definition set_hw_os (o : WindowsMouseService.t) (a : t) : t :=
  {| engine := engine a; hw_mouse := hw_mouse a; hw_gpu := hw_gpu a;
     hw_os := o; slider_vib_desk := slider_vib_desk a;
     slider_vib_game := slider_vib_game a; chk_single := chk_single a;
     btn_toggle := btn_toggle a; lbl_status_text := lbl_status_text a |}.

Definition set_labels (button status : string) (a : t) : t :=
  {| engine := engine a; hw_mouse := hw_mouse a; hw_gpu := hw_gpu a;
     hw_os := hw_os a; slider_vib_desk := slider_vib_desk a;
     slider_vib_game := slider_vib_game a; chk_single := chk_single a;
     btn_toggle := button; lbl_status_text := status |}.

(** Running a method of one of the backends the application owns. *)
Definition on_part {P A : Type} (get : t -> P) (set : P -> t -> t)
    (m : M P A) : M t A :=
  fun s =>
    let '(r, (p', w')) := m (get s.1, s.2) in
    (r, (set p' s.1, w')).

Definition modify (f : t -> t) : M t unit :=
  self ← get_self; put_self (f self).

Section WithConstants.
Variable consts : VXEMouseBackend.constants.

(** Modelled from the spec: [SafetyProtocol.execute] of [modules/core.py],
    which is not part of the sources. Per the design it drives the three
    backends to their desktop configuration (mouse desktop profile,
    desktop-level vibrance with the configured single-display flag,
    pointer-speed reset), each call inside its own failure boundary,
    and never raises. It is constructed from the three backends and the
    interface accessor only, so it has no access to the engine's
    fields. *)
Definition safety_execute : M t unit :=
  try_except
    (on_part hw_mouse set_hw_mouse
             (VXEMouseBackend.set_desktop_mode consts))
    (fun e => tell (LogError "safety: mouse" e)) ;;
  self ← get_self;
  try_except
    (on_part hw_gpu set_hw_gpu
             (NvidiaService.set_vibrance (Some (slider_vib_desk self))
                                         (chk_single self)))
    (fun e => tell (LogError "safety: gpu" e)) ;;
  try_except
    (on_part hw_os set_hw_os WindowsMouseService.reset)
    (fun e => tell (LogError "safety: os" e)).

Definition toggle_engine : M t unit :=
  modify (fun a => set_engine {| running := negb (running (engine a));
                                 current_state := current_state (engine a) |}
                              a) ;;
  self ← get_self;
  let is_running := running (engine self) in
  if is_running then
    modify (set_labels "STOP AUTOMATION" "Monitoring Process...")
  else
    modify (fun a => set_labels "START AUTOMATION" (lbl_status_text a) a) ;;
    safety_execute ;;
    modify (fun a => set_labels (btn_toggle a) "System Idle" a) ;;
    modify (fun a => set_engine {| running := running (engine a);
                                   current_state := "unknown" |} a).

(** [val] is [int(value)], the slider position as an integer; setting
    the percentage label is an interface effect only. *)
Definition on_vib_change (val : Z) (is_game : bool) : M t unit :=
  let mode := if is_game then "game" else "desktop" in
  self ← get_self;
  if running (engine self)
     && bool_decide (current_state (engine self) = mode)
  then on_part hw_gpu set_hw_gpu
               (NvidiaService.set_vibrance (Some val) (chk_single self))
  else mret tt.

(** Modelled from the spec: the target mode of a tick of
    [AutomationEngine.loop] of [modules/core.py], which is not part of the
    sources: ["game"] when a configured game is among the running
    processes, ["desktop"] otherwise. *)
Definition target_mode (games procs : list string) : string :=
  if existsb (fun g => existsb (String.eqb g) procs) games
  then "game" else "desktop".

(** Modelled from the spec: one tick of [AutomationEngine.loop] of
    [modules/core.py], which is not part of the sources, restricted to the
    recorded mode. While [running] is set, a target that differs from the
    recorded mode becomes the recorded mode, and an equal one changes
    nothing; when [running] is clear the tick changes nothing. The
    hardware fan-out of the coordinator, which never raises and does not
    touch the engine's fields, is left out. *)
Definition tick (games procs : list string) : M t unit :=
  self ← get_self;
  if running (engine self) then
    let target := target_mode games procs in
    if bool_decide (target = current_state (engine self)) then mret tt
    else modify (set_engine {| running := true; current_state := target |})
  else mret tt.

(** The operations that can act on a running application. *)
Inductive action : Type :=
| ToggleEngine
| VibChange (val : Z) (is_game : bool)
| Tick (games procs : list string).

Definition perform (a : action) : M t unit :=
  match a with
  | ToggleEngine => toggle_engine
  | VibChange v g => on_vib_change v g
  | Tick games procs => tick games procs
  end.

Definition step (a : action) (s : t * world) : t * world :=
  (perform a s).2.

(** A fresh process start: the recorded mode is ["unknown"]. *)
Definition fresh (s : t * world) : Prop :=
  current_state (engine s.1) = "unknown".

Inductive reachable : t * world -> Prop :=
| reachable_fresh s : fresh s -> reachable s
| reachable_step a s : reachable s -> reachable (step a s).

Definition mode (s : t * world) : string := current_state (engine s.1).

End WithConstants.

End App.

(* ===================================================================== *)
(** ** Vocabulary of the design document *)
(* ===================================================================== *)

(** [clamp lo hi x]. *)
Definition clamp (lo hi x : Z) : Z := Z.max lo (Z.min hi x).

(** Appending a batch of events to the trace. *)
Definition emit_all (es : list event) (w : world) : world :=
  {| events := events w ++ es; pointer_speed := pointer_speed w |}.

(** The vibrance writes of one [set_vibrance] call with hardware value
    [v]: the first handle only, or every handle. *)
Definition dvc_writes (handles : list Z) (primary_only : bool) (v : Z)
    : list event :=
  match primary_only, handles with
  | true, h0 :: _ => [SetDVCLevel h0 0 v]
  | _, hs => map (fun h => SetDVCLevel h 0 v) hs
  end.

Definition is_log (e : event) : bool :=
  match e with
  | LogError _ _ | LogWarning _ _ => true
  | _ => false
  end.

Definition is_hid_write (e : event) : bool :=
  match e with
  | HidWrite _ => true
  | _ => false
  end.

(** The log records written and the packets sent in a trace. *)
Definition log_records (tr : list event) : list event := filter is_log tr.
Definition packets_sent (tr : list event) : list event := filter is_hid_write tr.

(** The world after the system accepted pointer speed [v]. *)
Definition speed_applied (v : Z) (w : world) : world :=
  {| events := events w ++ [SysParamSet 0x0071 0 v 3]; pointer_speed := v |}.

(** What one [_send] of packet [p] adds to the trace on device [d]: the
    write, or the logged failure of writing to a device that is not open. *)
Definition send_events (d : VXEMouseBackend.hid_device) (p : packet)
    : list event :=
  if VXEMouseBackend.opened d then [HidWrite p]
  else [LogError "VXE Mouse send error" (ValueError "not open")].

(** A paced sequence: each packet followed by the 20 ms pause, then the
    250 ms settle delay. *)
Definition paced_events (d : VXEMouseBackend.hid_device) (ps : list packet)
    : list event :=
  flat_map (fun p => send_events d p ++ [Sleep 20]) ps ++ [Sleep 250].

(** The occurrence is logged once: the trace gains exactly one log
    record. *)
Definition logged_once (before after : list event) : Prop :=
  length (log_records after) = S (length (log_records before)).

Definition is_pause (e : event) : bool :=
  match e with
  | Sleep _ => true
  | _ => false
  end.

Definition pauses (tr : list event) : list event := filter is_pause tr.

(** A backend without an open device handle: no device object, or one
    that is not open. *)
Definition no_open_handle (self : VXEMouseBackend.t) : Prop :=
  match VXEMouseBackend.device self with
  | None => True
  | Some d => VXEMouseBackend.opened d = false
  end.

(** The design document's claim on a mode call made without an open
    device handle: the call returns normally, sends nothing, takes no
    pause, and the occurrence is logged once. *)
Definition silent_and_logged_once (call : M VXEMouseBackend.t unit)
    (s : VXEMouseBackend.t * world) : Prop :=
  (call s).1 = Ok tt
  /\ packets_sent (trace_of (call s).2) = packets_sent (trace_of s)
  /\ pauses (trace_of (call s).2) = pauses (trace_of s)
  /\ logged_once (trace_of s) (trace_of (call s).2).

(** A method of the application that leaves the engine's fields alone,
    and one that always returns normally. *)
Definition keeps_engine {A : Type} (m : M App.t A) : Prop :=
  forall s, App.engine (m s).2.1 = App.engine s.1.

Definition returns {A : Type} (m : M App.t A) : Prop :=
  forall s, exists a, (m s).1 = Ok a.

(** The design document's claim on the recorded mode: from a reachable
    state whose mode is no longer ["unknown"], no operation leads back to
    ["unknown"]. *)
Definition never_back_to_unknown (consts : VXEMouseBackend.constants) : Prop :=
  forall (a : App.action) (s : App.t * world),
    App.reachable consts s ->
    App.mode s <> "unknown" ->
    App.mode (App.step consts a s) <> "unknown".

(** [r] is an integer nearest to the rational [num / den] (for [den > 0]);
    at a tie both neighbours qualify, so no tie-breaking rule is fixed. *)
Definition nearest_integer (num den r : Z) : Prop :=
  2 * Z.abs (den * r - num) <= den.

(** The hardware value as the design document words it:
    [clamp(-63, 63, round((level - 50) * 1.26))] with round-to-nearest. *)
Definition rounded_vibrance (level v : Z) : Prop :=
  exists r, nearest_integer ((level - 50) * 126) 100 r /\ v = clamp (-63) 63 r.

(** Truncation toward zero of [(level - 50) * 1.26], clamped. *)
Definition truncated_vibrance (level : Z) : Z :=
  clamp (-63) 63 (Z.quot ((level - 50) * 126) 100).

(** The truncated product before the clamp is applied:
    [int((level - 50) * 1.26)]. *)
Definition unclamped_vibrance (level : Z) : result Z :=
  x ← int_mul_float (level - 50) (lit 126 2); int_of_float x.

(** The design document's gloss "via clamping": the hardware value [v]
    of [level] comes out of the clamp, the truncated product being a
    different number. *)
Definition reached_by_clamping (level v : Z) : Prop :=
  NvidiaService.vibrance_val level = Ok v
  /\ exists raw, unclamped_vibrance level = Ok raw /\ raw <> v.

(** The check that the clamp leaves the truncated product of a level as
    it is. *)
Definition clamp_idle_at (level : Z) : bool :=
  match unclamped_vibrance level, NvidiaService.vibrance_val level with
  | Ok raw, Ok v => (raw =? v) && (-63 <=? raw) && (raw <=? 63)
  | _, _ => false
  end.

(** The multipliers of [_MAP] in thirty-seconds: every entry is a multiple
    of 1/32, so distances to [base / target] compare exactly through
    [|n * target - 32 * base|]. *)
Definition multiplier_32 : list (Z * Z) :=
  [ (1, 1); (2, 2); (3, 4); (4, 8); (5, 12); (6, 16); (7, 20); (8, 24);
    (9, 28); (10, 32); (11, 40); (12, 48); (13, 56); (14, 64); (15, 72);
    (16, 80); (17, 88); (18, 96); (19, 104); (20, 112) ].

Definition exact_distance (base target n : Z) : Z :=
  Z.abs (n * target - 32 * base).

Definition multiplier_of (k : Z) : Z :=
  WindowsMouseService.dict_get multiplier_32 k 0.

(** The selection as the design document words it, in exact arithmetic:
    [optimize] applies an index [k] of the table whose multiplier
    minimises [|MAP[k] - base / target|], no lower index doing as well. *)
Definition applies_exact_nearest (base target : Z) : Prop :=
  exists k,
    1 <= k <= 20
    /\ (forall j, 1 <= j <= 20 ->
          exact_distance base target (multiplier_of k)
          <= exact_distance base target (multiplier_of j))
    /\ (forall j, 1 <= j < k ->
          exact_distance base target (multiplier_of k)
          < exact_distance base target (multiplier_of j))
    /\ forall self w,
         WindowsMouseService.optimize base target (self, w)
         = (Ok tt, (self, speed_applied k w)).

(** The distance the code computes in binary64 for index [k]:
    [abs(_MAP[k] - req)]. *)
Definition double_distance (req : float) (k : Z) : float :=
  fabs (fsub (WindowsMouseService.dict_get WindowsMouseService._MAP k
                                           (S754_zero false)) req).

(** Doubles that are an absolute value: zero, a positive finite number or
    plus infinity; and their place in the order of [<] on floats, as a
    triple compared lexicographically. *)
Definition is_abs (x : float) : Prop :=
  match x with
  | S754_zero false | S754_infinity false | S754_finite false _ _ => True
  | _ => False
  end.

Definition rank (x : float) : Z * Z * Z :=
  match x with
  | S754_zero _ => (0, 0, 0)
  | S754_finite _ m e => (1, e, Z.pos m)
  | S754_infinity _ => (2, 0, 0)
  | S754_nan => (3, 0, 0)
  end.

Definition lex_lt (a b : Z * Z * Z) : Prop :=
  let '(a1, a2, a3) := a in
  let '(b1, b2, b3) := b in
  a1 < b1 \/ (a1 = b1 /\ (a2 < b2 \/ (a2 = b2 /\ a3 < b3))).

Definition lex_le (a b : Z * Z * Z) : Prop := lex_lt a b \/ a = b.

(** Doubles as exact numbers. [dyadic m e] is [m * 2^e] counted in units
    of [2^-1074], the smallest positive double, so that the value of
    every finite double is an integer. *)
Definition dyadic (m e : Z) : Z := m * 2 ^ (e + 1074).

Definition value (x : float) : Z :=
  match x with
  | S754_finite _ m e => dyadic (Z.pos m) e
  | _ => 0
  end.

(** A positive normal double (a mantissa of exactly 53 bits), or zero. *)
Definition normal (x : float) : Prop :=
  match x with
  | S754_zero false => True
  | S754_finite false m e => 2 ^ 52 <= Z.pos m < 2 ^ 53 /\ -1074 <= e
  | _ => False
  end.

(** A number a double can hold: at most 53 significant bits. *)
Definition representable (v : Z) : Prop :=
  exists n e, 0 <= n < 2 ^ 53 /\ -1074 <= e /\ v = dyadic n e.

(** [x] is a faithful rounding of the exact quotient [num / den] (in
    units of [2^-1074]): no representable number lies strictly between
    the quotient and [x]. Rounding to nearest is faithful. *)
Definition faithful (num den : Z) (x : float) : Prop :=
  normal x
  /\ forall v, representable v ->
       (v * den <= num -> v <= value x) /\ (num <= v * den -> value x <= v).

(** The levels of the interface, 0 to 100, and the check that the value
    computed at a level is the truncated one. *)
Definition ui_levels : list Z := map Z.of_nat (seq 0 101).

Definition truncates_at (level : Z) : bool :=
  match NvidiaService.vibrance_val level with
  | Ok v => v =? truncated_vibrance level
  | Raise _ => false
  end.

(* ===================================================================== *)
(** ** Sample configurations *)
(* ===================================================================== *)

Definition w0 : world := {| events := []; pointer_speed := 10 |}.

(** A machine with the driver installed and two displays, and one without
    the driver. *)
Definition two_displays : NvidiaService.driver :=
  {| NvidiaService.dll_exists := true;
     NvidiaService.load_library := Ok tt;
     NvidiaService.initialize := 0;
     NvidiaService.enum_display :=
       fun i => if i <? 2 then (0, 256 + i) else (-6, 0) |}.

Definition no_driver : NvidiaService.driver :=
  {| NvidiaService.dll_exists := false;
     NvidiaService.load_library := Raise (IOError "module not found");
     NvidiaService.initialize := -1;
     NvidiaService.enum_display := fun _ => (-1, 0) |}.

Definition gpu_ready : NvidiaService.t :=
  (NvidiaService.__init__ two_displays w0).1.
Definition gpu_absent : NvidiaService.t :=
  (NvidiaService.__init__ no_driver w0).1.

(** Command bytes standing for the constants module. *)
Definition sample_consts : VXEMouseBackend.constants :=
  {| VXEMouseBackend.CMD_HZ_8000 := [8; 7; 0; 0; 0; 6];
     VXEMouseBackend.CMD_HZ_1000 := [8; 7; 0; 0; 0; 1];
     VXEMouseBackend.SEQ_DPI_1600 := [[8; 7; 0; 0; 12; 31]; [8; 7; 0; 0; 4; 2]];
     VXEMouseBackend.SEQ_DPI_800 := [[8; 7; 0; 0; 12; 15]; [8; 7; 0; 0; 4; 1]] |}.

(** A receiver whose command channel is present, and the backend after a
    successful and after a fruitless [connect]. *)
Definition receiver : VXEMouseBackend.hid_info :=
  {| VXEMouseBackend.path := "\\?\HID#VID_373B&PID_1040&MI_01&Col05#8&1";
     VXEMouseBackend.openable := true |}.

Definition mouse_connected : VXEMouseBackend.t * world :=
  (VXEMouseBackend.connect (Ok [receiver]) (VXEMouseBackend.__init__, w0)).2.

Definition mouse_missing : VXEMouseBackend.t * world :=
  (VXEMouseBackend.connect (Ok []) (VXEMouseBackend.__init__, w0)).2.

(** A receiver held by another program, and the backend after the
    [connect] that failed to open it. *)
Definition busy_receiver : VXEMouseBackend.hid_info :=
  {| VXEMouseBackend.path := "\\?\HID#VID_373B&PID_1040&MI_01&Col05#8&1";
     VXEMouseBackend.openable := false |}.

Definition mouse_unopened : VXEMouseBackend.t * world :=
  (VXEMouseBackend.connect (Ok [busy_receiver])
                           (VXEMouseBackend.__init__, w0)).2.

(** The application at process start: automation off, mode unknown. *)
Definition app_started : App.t * world :=
  ({| App.engine := {| App.running := false; App.current_state := "unknown" |};
      App.hw_mouse := mouse_connected.1;
      App.hw_gpu := gpu_ready;
      App.hw_os := (WindowsMouseService.__init__ w0).1;
      App.slider_vib_desk := 50;
      App.slider_vib_game := 80;
      App.chk_single := false;
      App.btn_toggle := "Start Automation";
      App.lbl_status_text := "System Idle" |}, w0).

(** Automation switched on, then a tick that sees a configured game
    among the running processes. *)
Definition app_in_game : App.t * world :=
  App.step sample_consts
           (App.Tick ["game.exe"] ["game.exe"; "explorer.exe"])
           (App.step sample_consts App.ToggleEngine app_started).

(* ===================================================================== *)
(** ** Further vocabulary for the hardware backends *)
(* ===================================================================== *)

(** The test of [connect] on one enumerated interface:
    ["mi_01" in path and "col05" in path], on the lowercased path. *)
Definition is_receiver (d : VXEMouseBackend.hid_info) : bool :=
  contains "mi_01" (lower (VXEMouseBackend.path d))
  && contains "col05" (lower (VXEMouseBackend.path d)).

(** What [set_vibrance] may add to the trace of a service: a vibrance
    write of a value in [-63, 63] to one of its handles, or the log of a
    failure. *)
Definition vibrance_effect (handles : list Z) (e : event) : Prop :=
  match e with
  | SetDVCLevel h reserved v => In h handles /\ reserved = 0 /\ -63 <= v <= 63
  | LogError _ _ => True
  | _ => False
  end.

(** The handles [_init_api] collects: those of the leading indices of
    [range(10)] whose enumeration status is 0. *)
Fixpoint leading_handles (drv : NvidiaService.driver) (indices : list Z)
    : list Z :=
  match indices with
  | [] => []
  | i :: rest =>
      if fst (NvidiaService.enum_display drv i) =? 0
      then snd (NvidiaService.enum_display drv i) :: leading_handles drv rest
      else []
  end.

(** Calls a client makes on the pointer-speed service, and a run of
    them, each started in the state the previous one left, whatever its
    outcome. *)
Inductive os_call : Type :=
| SetSpeed (index : Z)
| Optimize (base target : Z)
| Reset.

Definition run_call (c : os_call) : M WindowsMouseService.t unit :=
  match c with
  | SetSpeed index => WindowsMouseService.set_speed index
  | Optimize base target => WindowsMouseService.optimize base target
  | Reset => WindowsMouseService.reset
  end.

Fixpoint run_calls (cs : list os_call) (s : WindowsMouseService.t * world)
    : WindowsMouseService.t * world :=
  match cs with
  | [] => s
  | c :: cs' => run_calls cs' (run_call c s).2
  end.

(* ===================================================================== *)
(** ** [str.strip] on ASCII text *)
(* ===================================================================== *)

Module PyStr.

(** The whitespace among the ASCII characters, as [str.strip()] sees it:
    tab, line feed, vertical tab, form feed, carriage return, the four
    separators 28..31 and the space. On other text [str.strip()] removes
    more (U+0085, U+00A0 and the further spaces of Unicode), so [strip]
    below stands for it on ASCII text only: in the sample texts and in
    [Profiles.well_kept]. *)
Definition is_space (c : ascii) : bool :=
  let n := nat_of_ascii c in
  (((9 <=? n) && (n <=? 13)) || ((28 <=? n) && (n <=? 32)))%nat.

Fixpoint lstrip (s : string) : string :=
  match s with
  | EmptyString => EmptyString
  | String c s' => if is_space c then lstrip s' else s
  end.

Fixpoint rstrip (s : string) : string :=
  match s with
  | EmptyString => EmptyString
  | String c s' =>
      match rstrip s' with
      | EmptyString => if is_space c then EmptyString else String c EmptyString
      | r => String c r
      end
  end.

Definition strip (s : string) : string := rstrip (lstrip s).

End PyStr.

(* ===================================================================== *)
(** ** [App]: the tracked games of the Profiles view *)
(* ===================================================================== *)

Module Profiles.

(** The part of the application the game list lives in: [cfg.games], the
    text of the entry field, the labels of the rows shown in the
    scrollable list, and how many times [cfg.save()] was called. *)
Record t : Type := Make {
  games : list string;
  entry_game : string;
  rows : list string;
  saves : nat
}.

(** [x in xs] on a list of strings. *)
Definition member (x : string) (xs : list string) : bool :=
  existsb (String.eqb x) xs.

(** [xs.remove(x)]: the first occurrence goes. *)
Fixpoint list_remove (x : string) (xs : list string) : list string :=
  match xs with
  | [] => []
  | y :: ys => if String.eqb x y then ys else y :: list_remove x ys
  end.

(** [update_game_list]: the rows are rebuilt from [cfg.games]. *)
Definition update_game_list (st : t) : t :=
  {| games := games st; entry_game := entry_game st;
     rows := games st; saves := saves st |}.

Definition cfg_save (st : t) : t :=
  {| games := games st; entry_game := entry_game st;
     rows := rows st; saves := S (saves st) |}.

Definition remove_game (game_name : string) (st : t) : t :=
  if member game_name (games st)
  then
    update_game_list
      (cfg_save {| games := list_remove game_name (games st);
                   entry_game := entry_game st;
                   rows := rows st; saves := saves st |})
  else st.

(** Typing [text] into the entry field. *)
Definition type_entry (text : string) (st : t) : t :=
  {| games := games st; entry_game := text;
     rows := rows st; saves := saves st |}.

Section Text.

(** [str.lower()] and [str.strip()] are the methods of Python's [str]:
    they know every cased letter and every whitespace character of
    Unicode, and are not part of the sources. The functions that call
    them take them as parameters, on text held as UTF-8. *)
Variable str_lower : string -> string.
Variable str_strip : string -> string.

Definition add_game (st : t) : t :=
  let game_name := str_strip (str_lower (entry_game st)) in
  if negb (String.eqb game_name "") && negb (member game_name (games st))
  then
    let st1 := {| games := games st ++ [game_name];
                  entry_game := entry_game st;
                  rows := rows st; saves := saves st |} in
    let st2 := update_game_list (cfg_save st1) in
    {| games := games st2; entry_game := "";
       rows := rows st2; saves := saves st2 |}
  else st.

(** [sel] of the process scanner: the entry is replaced by the chosen
    process name and [add_game] is called. *)
Definition sel (process_name : string) (st : t) : t :=
  add_game (type_entry process_name st).

(** The list of the process scanner: [procs] is
    [sorted(list(set(name.lower() for each process with a name)))], where
    [names] holds [p.info['name']] of each running process ([None] when
    the name is not available); the buttons shown are the entries that
    contain the lowercased filter text. *)
Definition named (names : list (option string)) : list string :=
  flat_map (fun n => match n with
                     | Some name => if String.eqb name "" then []
                                    else [str_lower name]
                     | None => []
                     end) names.

Definition procs (names : list (option string)) : list string :=
  merge_sort String.le (remove_dups (named names)).

Definition load (filter_txt : string) (names : list (option string))
    : list string :=
  filter (fun p => contains (str_lower filter_txt) p) (procs names).

End Text.

(** A game list as the interface keeps it: no entry twice, no empty
    entry, every entry lowercase and without surrounding whitespace. *)
Definition normalized (g : string) : Prop :=
  g <> "" /\ PyStr.strip (lower g) = g.

Definition well_kept (gs : list string) : Prop :=
  List.NoDup gs /\ List.Forall normalized gs.

(** A game list without a duplicate and without an empty name. *)
Definition tidy (gs : list string) : Prop :=
  List.NoDup gs /\ ~ In "" gs.

End Profiles.

(* ===================================================================== *)
(** ** [App]: reading interface values, and the update queue *)
(* ===================================================================== *)

Module UiState.

(** The widgets [get_ui_state] reads. A slider's [get()] gives a float;
    a switch's [get()] gives an integer. [None] stands for a widget that
    cannot be read (not built yet, or destroyed): reading it raises. *)
Record widgets : Type := Widgets {
  slider_vib_desk : option float;
  slider_vib_game : option float;
  chk_murqin : option Z
}.

(** What [get_ui_state] returns: an [int], a [bool], the bound method
    [update_status_ui], or [None]. *)
Inductive value : Type :=
| VInt (n : Z)
| VBool (b : bool)
| VMethod (name : string)
| VNone.

Definition read {A : Type} (widget : option A) : result A :=
  match widget with
  | Some x => Ok x
  | None => Raise (TypeError "widget is not available")
  end.

(** [try: body except Exception: handler] on a value. *)
Definition result_try {A : Type} (body : result A) (handler : result A)
    : result A :=
  match body with
  | Ok a => Ok a
  | Raise _ => handler
  end.

Definition get_ui_state (key : string) (w : widgets) : result value :=
  result_try
    (if String.eqb key "vib_desk" then
       x ← read (slider_vib_desk w); n ← int_of_float x; mret (VInt n)
     else if String.eqb key "vib_game" then
       x ← read (slider_vib_game w); n ← int_of_float x; mret (VInt n)
     else if String.eqb key "murqin" then
       x ← read (chk_murqin w); mret (VBool (negb (x =? 0)))
     else if String.eqb key "status" then
       mret (VMethod "update_status_ui")
     else mret VNone)
    (Ok (if contains "vib" key then VInt 50 else VNone)).

End UiState.

Module UiQueue.

(** The colours of the theme the status labels use; the constants module
    is not part of the sources, so they are parameters. *)
Record theme : Type := Theme {
  ACCENT : string;
  TEXT_PRI : string;
  TEXT_SEC : string
}.

(** The two status labels of the dashboard. *)
Record labels : Type := Labels {
  dot_color : string;
  status_text : string;
  status_color : string
}.

(** A queued update: a callable run on the interface thread, which may
    raise after changing the labels. *)
Definition update : Type := labels -> result unit * labels.

(** The queue, the labels, and the callbacks scheduled with [after]. *)
Record t : Type := Make {
  ui_queue : list update;
  shown : labels;
  scheduled : list (Z * string)
}.

Definition enqueue_ui_update (func : update) (st : t) : t :=
  {| ui_queue := ui_queue st ++ [func]; shown := shown st;
     scheduled := scheduled st |}.

(** The closure [_update] of [update_status_ui]. *)
Definition status_update (th : theme) (text : string) (is_game : bool)
    : update :=
  fun l =>
    let dot := if is_game then ACCENT th else TEXT_SEC th in
    let text_color := if is_game then TEXT_PRI th else TEXT_SEC th in
    (Ok tt, {| dot_color := dot; status_text := text;
               status_color := text_color |}).

Definition update_status_ui (th : theme) (text : string) (is_game : bool)
    (st : t) : t :=
  enqueue_ui_update (status_update th text is_game) st.

(** [while True: func = queue.get_nowait(); func()], left through
    [queue.Empty] when the queue is drained, or through the exception of
    an update, the updates behind it staying queued. *)
Fixpoint drain (q : list update) (l : labels)
    : result unit * (list update * labels) :=
  match q with
  | [] => (Ok tt, ([], l))
  | func :: q' =>
      match func l with
      | (Ok _, l') => drain q' l'
      | (Raise e, l') => (Raise e, (q', l'))
      end
  end.

(** [process_ui_queue]: the [finally] clause schedules the next run
    whatever happened. *)
Definition process_ui_queue (st : t) : result unit * t :=
  let '(r, (q', l')) := drain (ui_queue st) (shown st) in
  (r, {| ui_queue := q'; shown := l';
         scheduled := scheduled st ++ [(100, "process_ui_queue")] |}).

(** Running updates one after the other, while they return. *)
Fixpoint apply_all (q : list update) (l : labels) : labels :=
  match q with
  | [] => l
  | func :: q' => apply_all q' (func l).2
  end.

Definition returns_normally (func : update) : Prop :=
  forall l, (func l).1 = Ok tt.

End UiQueue.

(* ===================================================================== *)
(** ** [App]: the switches of the Settings view *)
(* ===================================================================== *)

Module Settings.

(** A stored setting. *)
Inductive setting : Type :=
| SBool (b : bool)
| SInt (n : Z)
| SStr (s : string).

(** Calls on the collaborators that are not part of the sources. *)
Inductive call : Type :=
| SetStartupValue (path : string)     (* mgr.set_startup_value(path) *)
| SetStartup (enabled : bool)         (* mgr.set_startup(enabled) *)
| CfgSave.                            (* cfg.save() *)

(** [cfg.settings], the positions of the four switches, the attribute
    [murqin_mode], [mgr.target_path], and the calls made so far. *)
Record t : Type := Make {
  settings : gmap string setting;
  chk_startup : bool;
  chk_tray : bool;
  chk_single : bool;
  chk_murqin : bool;
  murqin_mode : bool;
  target_path : string;
  calls : list call
}.

Definition with_settings (m : gmap string setting) (st : t) : t :=
  {| settings := m; chk_startup := chk_startup st; chk_tray := chk_tray st;
     chk_single := chk_single st; chk_murqin := chk_murqin st;
     murqin_mode := murqin_mode st; target_path := target_path st;
     calls := calls st |}.

Definition with_call (c : call) (st : t) : t :=
  {| settings := settings st; chk_startup := chk_startup st;
     chk_tray := chk_tray st; chk_single := chk_single st;
     chk_murqin := chk_murqin st; murqin_mode := murqin_mode st;
     target_path := target_path st; calls := calls st ++ [c] |}.

Definition with_murqin_mode (b : bool) (st : t) : t :=
  {| settings := settings st; chk_startup := chk_startup st;
     chk_tray := chk_tray st; chk_single := chk_single st;
     chk_murqin := chk_murqin st; murqin_mode := b;
     target_path := target_path st; calls := calls st |}.

(** The double quote character. *)
Definition quote : string := String "034"%char EmptyString.

Definition toggle_murqin (st : t) : t :=
  let state := chk_murqin st in
  let st := with_settings (<["murqin_mode" := SBool state]> (settings st)) st in
  let st := with_call CfgSave st in
  with_murqin_mode state st.

Definition toggle_startup (st : t) : t :=
  let state := chk_startup st in
  let st :=
    if state then
      let start_minimized := chk_tray st in
      let path := (quote ++ target_path st ++ quote)%string in
      let path := if start_minimized then (path ++ " --minimized")%string
                  else path in
      with_call (SetStartupValue path) st
    else with_call (SetStartup false) st in
  let st := with_settings (<["startup" := SBool state]> (settings st)) st in
  with_call CfgSave st.

Definition save_settings (st : t) : t :=
  let st := with_settings
              (<["start_in_tray" := SBool (chk_tray st)]> (settings st)) st in
  let st := with_settings
              (<["single_monitor" := SBool (chk_single st)]> (settings st)) st in
  let st := with_call CfgSave st in
  if chk_startup st then
    let minimized := chk_tray st in
    let path := (quote ++ target_path st ++ quote)%string in
    let path := if minimized then (path ++ " --minimized")%string else path in
    with_call (SetStartupValue path) st
  else st.

(** The command lines registered for startup in a list of calls. *)
Definition registered (cs : list call) : list string :=
  flat_map (fun c => match c with SetStartupValue p => [p] | _ => [] end) cs.

End Settings.

(** Sample interface values: a theme, the labels of an idle dashboard,
    and a queued update that fails without changing a label. *)
Definition sample_theme : UiQueue.theme :=
  {| UiQueue.ACCENT := "#00ff88"; UiQueue.TEXT_PRI := "#ffffff";
     UiQueue.TEXT_SEC := "#888888" |}.

Definition idle_labels : UiQueue.labels :=
  {| UiQueue.dot_color := "#888888"; UiQueue.status_text := "IDLE";
     UiQueue.status_color := "#888888" |}.

Definition failing_update : UiQueue.update :=
  fun l => (Raise (ValueError "widget destroyed"), l).

(* ===================================================================== *)
(** ** General facts about the effect monad *)
(* ===================================================================== *)

Lemma max2_spec a b : max2 a b = Z.max a b.
Proof. unfold max2. destruct (Z.ltb_spec a b); lia. Qed.

Lemma min2_spec a b : min2 a b = Z.min a b.
Proof. unfold min2. destruct (Z.ltb_spec b a); lia. Qed.

Lemma emit_all_app es1 es2 w :
  emit_all es2 (emit_all es1 w) = emit_all (es1 ++ es2) w.
Proof. unfold emit_all; cbn. by rewrite <- app_assoc. Qed.

Lemma emit_all_nil w : emit_all [] w = w.
Proof. destruct w. unfold emit_all; cbn. by rewrite app_nil_r. Qed.

Lemma bind_ok {T A B} (m : M T A) (f : A -> M T B) s a s' :
  m s = (Ok a, s') -> (m ≫= f) s = f a s'.
Proof. intros H. unfold mbind, M_bind. by rewrite H. Qed.

Lemma bind_raise {T A B} (m : M T A) (f : A -> M T B) s e s' :
  m s = (Raise e, s') -> (m ≫= f) s = (Raise e, s').
Proof. intros H. unfold mbind, M_bind. by rewrite H. Qed.

(** Run the first action of a sequence when it is known to return. *)
Ltac step_bind := erewrite bind_ok by reflexivity; cbn [fst snd].

(* ===================================================================== *)
(** ** Binary64 rounding: what the conversions and operations return *)
(* ===================================================================== *)

Section BinaryRounding.

Lemma digits2_pos_size (p : positive) : digits2_pos p = Pos.size p.
Proof. induction p; cbn; congruence. Qed.

Lemma Zdigits2_bounds (m : Z) :
  0 < m -> 0 < Zdigits2 m /\ 2 ^ (Zdigits2 m - 1) <= m < 2 ^ Zdigits2 m.
Proof.
  destruct m as [|p|p]; try lia. intros _. cbn [Zdigits2].
  rewrite digits2_pos_size.
  pose proof (Pos.size_gt p) as Hgt. pose proof (Pos.size_le p) as Hle.
  apply Pos2Z.pos_lt_pos in Hgt. apply Pos2Z.pos_le_pos in Hle.
  rewrite Pos2Z.inj_pow in Hgt, Hle.
  split; [lia |]. split; [| exact Hgt].
  replace (Z.pos (Pos.size p)) with (Z.pos (Pos.size p) - 1 + 1) in Hle by lia.
  rewrite Z.pow_add_r in Hle by lia. lia.
Qed.

Lemma Zdigits2_le (m k : Z) : 0 < m -> m < 2 ^ k -> 0 <= k -> Zdigits2 m <= k.
Proof.
  intros Hm Hlt Hk. destruct (Zdigits2_bounds m Hm) as (Hd & Hlo & _).
  assert (2 ^ (Zdigits2 m - 1) < 2 ^ k) as Hp by lia.
  apply Z.pow_lt_mono_r_iff in Hp; lia.
Qed.

Lemma shr_1_m (mrs : shr_record) :
  0 <= shr_m mrs -> shr_m (shr_1 mrs) = shr_m mrs / 2.
Proof.
  destruct mrs as [m r s]. cbn [shr_m]. intros Hm.
  destruct m as [|[p|p|]|p]; cbn [shr_1 shr_m].
  - reflexivity.
  - apply Z.div_unique with (r := 1); lia.
  - apply Z.div_unique with (r := 0); lia.
  - reflexivity.
  - lia.
Qed.

Lemma iter_shr_m (p : positive) (mrs : shr_record) :
  0 <= shr_m mrs ->
  shr_m (SpecFloat.iter_pos shr_1 p mrs) = shr_m mrs / 2 ^ Z.pos p.
Proof.
  revert mrs. induction p as [p IH|p IH|]; intros mrs Hm; cbn [SpecFloat.iter_pos].
  - assert (0 <= shr_m (shr_1 mrs)) as H1
        by (rewrite shr_1_m by lia; apply Z.div_pos; lia).
    assert (0 <= shr_m (SpecFloat.iter_pos shr_1 p (shr_1 mrs))) as H2
        by (rewrite IH by lia; apply Z.div_pos; lia).
    rewrite IH by lia. rewrite IH by lia. rewrite shr_1_m by lia.
    rewrite !Z.div_div by lia. f_equal.
    replace (Z.pos p~1) with (1 + Z.pos p + Z.pos p) by lia.
    rewrite !Z.pow_add_r by lia. change (2 ^ 1) with 2. lia.
  - assert (0 <= shr_m (SpecFloat.iter_pos shr_1 p mrs)) as H2
        by (rewrite IH by lia; apply Z.div_pos; lia).
    rewrite IH by lia. rewrite IH by lia.
    rewrite Z.div_div by lia. f_equal.
    replace (Z.pos p~0) with (Z.pos p + Z.pos p) by lia.
    rewrite Z.pow_add_r by lia. reflexivity.
  - rewrite shr_1_m by lia. reflexivity.
Qed.

Lemma shr_record_of_loc_m (m : Z) (l : location) :
  shr_m (shr_record_of_loc m l) = m.
Proof. destruct l as [|[]]; reflexivity. Qed.

Lemma round_nearest_even_bounds (m : Z) (l : location) :
  m <= round_nearest_even m l <= m + 1.
Proof.
  unfold round_nearest_even.
  destruct l as [|[]]; try destruct (Z.even m); lia.
Qed.

(** Shifting a mantissa into the format keeps it non-negative. *)
Lemma shr_fexp_nonneg (m e : Z) (l : location) :
  0 <= m -> 0 <= shr_m (shr_fexp prec emax m e l).1.
Proof.
  intros Hm. unfold shr_fexp, shr.
  destruct (fexp prec emax (Zdigits2 m + e) - e) as [|p|p]; cbn [fst];
    rewrite ?iter_shr_m; rewrite ?shr_record_of_loc_m;
    try lia; apply Z.div_pos; lia.
Qed.

(** Above the smallest exponent a positive mantissa stays positive, fits
    53 bits afterwards, and the exponent grows by the bits dropped. *)
Lemma shr_fexp_pos (m e : Z) (l : location) :
  0 < m -> emin prec emax <= e ->
  let r := shr_fexp prec emax m e l in
  0 < shr_m r.1 < 2 ^ 53 /\ e <= r.2 <= Z.max e (Zdigits2 m + e - 53).
Proof.
  intros Hm He. cbn zeta.
  destruct (Zdigits2_bounds m Hm) as (Hd & Hlo & Hhi).
  unfold shr_fexp, shr, fexp, emin, prec, emax in *.
  destruct (Z.max (Zdigits2 m + e - 53) (3 - 1024 - 53) - e) as [|p|p] eqn:Hs;
    cbn [fst snd]; rewrite ?shr_record_of_loc_m.
  - assert (Zdigits2 m <= 53) by lia.
    assert (2 ^ Zdigits2 m <= 2 ^ 53) by (apply Z.pow_le_mono_r; lia). lia.
  - rewrite iter_shr_m by (rewrite shr_record_of_loc_m; lia).
    rewrite shr_record_of_loc_m.
    assert (Z.pos p = Zdigits2 m - 53) as Hp by lia.
    assert (0 < 2 ^ Z.pos p) by (apply Z.pow_pos_nonneg; lia).
    split; [split |]; [| | lia].
    + apply Z.lt_le_trans with (m := 2 ^ 52); [reflexivity |].
      apply Z.div_le_lower_bound; [lia |].
      rewrite <- Z.pow_add_r by lia.
      replace (Z.pos p + 52) with (Zdigits2 m - 1) by lia. lia.
    + apply Z.div_lt_upper_bound; [lia |].
      rewrite <- Z.pow_add_r by lia.
      replace (Z.pos p + 53) with (Zdigits2 m) by lia. lia.
  - assert (Zdigits2 m <= 53) by lia.
    assert (2 ^ Zdigits2 m <= 2 ^ 53) by (apply Z.pow_le_mono_r; lia). lia.
Qed.

(** Rounding a non-negative mantissa never yields a NaN. *)
Lemma binary_round_aux_not_nan (sx : bool) (mx ex : Z) (lx : location) :
  0 <= mx -> binary_round_aux prec emax sx mx ex lx <> S754_nan.
Proof.
  intros Hm. unfold binary_round_aux.
  pose proof (shr_fexp_nonneg mx ex lx Hm) as H1.
  destruct (shr_fexp prec emax mx ex lx) as [mrs' e']. cbn [fst] in H1.
  pose proof (round_nearest_even_bounds (shr_m mrs') (loc_of_shr_record mrs'))
    as Hr.
  pose proof (shr_fexp_nonneg
                (round_nearest_even (shr_m mrs') (loc_of_shr_record mrs'))
                e' loc_Exact ltac:(lia)) as H2.
  destruct (shr_fexp prec emax _ e' loc_Exact) as [mrs'' e''].
  cbn [fst] in H2.
  destruct (shr_m mrs'') as [|m|m]; [discriminate | | lia].
  destruct (e'' <=? emax - prec); discriminate.
Qed.

(** Rounding a positive mantissa whose exponent is in range yields a
    finite, nonzero double of the given sign, with a mantissa of at most
    53 bits and an exponent between the given one and the bound. *)
Lemma binary_round_aux_finite (sx : bool) (mx ex : Z) (lx : location) :
  0 < mx -> emin prec emax <= ex ->
  Z.max ex (Zdigits2 mx + ex - 53) + 1 <= 971 ->
  exists m e,
    binary_round_aux prec emax sx mx ex lx = S754_finite sx m e
    /\ Z.pos m < 2 ^ 53
    /\ ex <= e <= Z.max ex (Zdigits2 mx + ex - 53) + 1.
Proof.
  intros Hm He Hmax. unfold binary_round_aux.
  pose proof (shr_fexp_pos mx ex lx Hm He) as H1. cbn zeta in H1.
  destruct (shr_fexp prec emax mx ex lx) as [mrs' e']. cbn [fst snd] in H1.
  pose proof (round_nearest_even_bounds (shr_m mrs') (loc_of_shr_record mrs'))
    as Hr.
  set (m2 := round_nearest_even (shr_m mrs') (loc_of_shr_record mrs')) in *.
  assert (0 < m2) as Hm2 by lia.
  pose proof (shr_fexp_pos m2 e' loc_Exact Hm2 ltac:(lia)) as H2.
  cbn zeta in H2.
  assert (Zdigits2 m2 <= 54) as Hd2.
  { apply Zdigits2_le; [lia | | lia].
    apply Z.le_lt_trans with (m := 2 ^ 53); [lia | reflexivity]. }
  destruct (shr_fexp prec emax m2 e' loc_Exact) as [mrs'' e''].
  cbn [fst snd] in H2.
  destruct (shr_m mrs'') as [|m|m]; [lia | | lia].
  replace (e'' <=? emax - prec) with true
    by (symmetry; apply Z.leb_le; unfold emax, prec; lia).
  exists m, e''. split; [reflexivity |]. lia.
Qed.

Lemma digits2_pos_iter_xO (p d : positive) :
  Z.pos (digits2_pos (Pos.iter xO p d)) = Z.pos (digits2_pos p) + Z.pos d.
Proof.
  induction d as [|d IH] using Pos.peano_ind.
  - cbn. lia.
  - rewrite Pos.iter_succ. cbn [digits2_pos]. lia.
Qed.

(** Converting an integer of at most [K] bits, of either sign: a finite
    double of that sign whose exponent is between -52 and [K - 52]. *)
Lemma binary_round_int (sx : bool) (p : positive) (K : Z) :
  53 <= K <= 1023 -> Z.pos p < 2 ^ K ->
  exists m e,
    binary_round prec emax sx p 0 = S754_finite sx m e
    /\ Z.pos m < 2 ^ 53 /\ -52 <= e <= K - 52.
Proof.
  intros HK Hlt. unfold binary_round.
  pose proof (Zdigits2_bounds (Z.pos p) ltac:(lia)) as (Hd & _ & _).
  pose proof (Zdigits2_le (Z.pos p) K ltac:(lia) Hlt ltac:(lia)) as Hd'.
  cbn [Zdigits2] in Hd, Hd'.
  unfold shl_align, fexp, emin, prec, emax.
  destruct (Z.max (Z.pos (digits2_pos p) + 0 - 53) (3 - 1024 - 53) - 0)
    as [|d|d] eqn:Hs.
  - destruct (binary_round_aux_finite sx (Z.pos p) 0 loc_Exact)
      as (m & e & Hr & Hm & He);
      [lia | unfold emin, prec, emax; lia | cbn [Zdigits2]; lia |].
    cbn [Zdigits2] in He. exists m, e. split; [exact Hr |]. lia.
  - destruct (binary_round_aux_finite sx (Z.pos p) 0 loc_Exact)
      as (m & e & Hr & Hm & He);
      [lia | unfold emin, prec, emax; lia | cbn [Zdigits2]; lia |].
    cbn [Zdigits2] in He. exists m, e. split; [exact Hr |]. lia.
  - set (ez := Z.max (Z.pos (digits2_pos p) + 0 - 53) (3 - 1024 - 53)) in *.
    destruct (binary_round_aux_finite sx (Z.pos (Pos.iter xO p d)) ez loc_Exact)
      as (m & e & Hr & Hm & He);
      [lia | unfold emin, prec, emax; lia
       | cbn [Zdigits2]; rewrite digits2_pos_iter_xO; lia |].
    cbn [Zdigits2] in He. rewrite digits2_pos_iter_xO in He.
    exists m, e. split; [exact Hr |]. lia.
Qed.

(** [float(n)] of a positive integer below [2^1023] is a finite, positive,
    nonzero double. *)
Lemma float_of_int_pos (n : Z) :
  0 < n < 2 ^ 1023 ->
  exists m e, float_of_int n = Ok (S754_finite false m e).
Proof.
  intros [Hn Hlt]. destruct n as [|p|p]; try lia. clear Hn.
  destruct (binary_round_int false p 1023 ltac:(lia) Hlt)
    as (m & e & Hx & _ & _).
  unfold float_of_int. cbn [binary_normalize]. rewrite Hx. cbn. eauto.
Qed.

Lemma binary_round_not_nan (sx : bool) (m : positive) (e : Z) :
  binary_round prec emax sx m e <> S754_nan.
Proof.
  unfold binary_round.
  destruct (shl_align m e _) as [mz ez].
  apply binary_round_aux_not_nan. lia.
Qed.

Lemma binary_normalize_not_nan (z e : Z) (szero : bool) :
  binary_normalize prec emax z e szero <> S754_nan.
Proof.
  destruct z; cbn [binary_normalize];
    [discriminate | apply binary_round_not_nan ..].
Qed.

Lemma fmul_not_nan (s1 s2 : bool) (m1 m2 : positive) (e1 e2 : Z) :
  fmul (S754_finite s1 m1 e1) (S754_finite s2 m2 e2) <> S754_nan.
Proof. cbn. apply binary_round_aux_not_nan. lia. Qed.

(** Dividing by a finite nonzero double yields no NaN. *)
Lemma fdiv_not_nan (x : float) (s : bool) (m : positive) (e : Z) :
  x <> S754_nan -> SFdiv prec emax x (S754_finite s m e) <> S754_nan.
Proof.
  intros Hx. destruct x as [sx|sx| |sx mx ex]; cbn [SFdiv];
    [discriminate | discriminate | contradiction |].
  unfold SFdiv_core_binary.
  set (m' := match _ - _ with Z.pos _ => _ | Z0 => _ | Z.neg _ => _ end).
  assert (0 <= m') as Hm'.
  { subst m'. destruct (_ - _); [lia | | lia].
    apply Z.shiftl_nonneg. lia. }
  destruct (Z.div_eucl m' (Z.pos m)) as [q r] eqn:Hqr.
  assert (q = m' / Z.pos m) as Hq by (unfold Z.div; by rewrite Hqr).
  apply binary_round_aux_not_nan. rewrite Hq. apply Z.div_pos; lia.
Qed.

(** Subtracting from a finite double yields no NaN. *)
Lemma fsub_not_nan (s : bool) (m : positive) (e : Z) (y : float) :
  y <> S754_nan -> fsub (S754_finite s m e) y <> S754_nan.
Proof.
  intros Hy. destruct y as [sy|sy| |sy my ey]; cbn [fsub SFsub];
    [discriminate | discriminate | contradiction |].
  apply binary_normalize_not_nan.
Qed.

Lemma fabs_is_abs (x : float) : x <> S754_nan -> is_abs (fabs x).
Proof. destruct x; cbn; tauto. Qed.

Lemma flt_rank (x y : float) :
  is_abs x -> is_abs y -> (flt x y = true <-> lex_lt (rank x) (rank y)).
Proof.
  destruct x as [[]|[]| |[] mx ex], y as [[]|[]| |[] my ey];
    cbn [is_abs]; try tauto; intros _ _;
    unfold flt, SFltb; cbn [SFcompare rank lex_lt];
    try (split; [discriminate | lia]); try (split; [lia | reflexivity]).
  rewrite Pos.compare_cont_spec. cbn [Pos.switch_Eq].
  destruct (Z.compare_spec ex ey);
    [destruct (Pos.compare_spec mx my) |..];
    split; try discriminate; try reflexivity; lia.
Qed.

Lemma fle_rank (x y : float) :
  is_abs x -> is_abs y -> (fle x y = true <-> lex_le (rank x) (rank y)).
Proof.
  destruct x as [[]|[]| |[] mx ex], y as [[]|[]| |[] my ey];
    cbn [is_abs]; try tauto; intros _ _;
    unfold fle, SFleb, lex_le; cbn [SFcompare rank lex_lt];
    try (split; [discriminate | intros [H|H]; [lia | discriminate]]);
    try (split; [intros _; first [left; lia | by right] | reflexivity]).
  rewrite Pos.compare_cont_spec. cbn [Pos.switch_Eq].
  destruct (Z.compare_spec ex ey);
    [destruct (Pos.compare_spec mx my) |..];
    (split;
     [ first [discriminate | intros _; first [left; lia | right; congruence]]
     | first [reflexivity | intros [Hl|Heq]; [lia | injection Heq; lia]] ]).
Qed.

(** Among absolute values, [<] and [<=] on doubles form a total order. *)
Lemma flt_false_fle (x y : float) :
  is_abs x -> is_abs y -> flt x y = false -> fle y x = true.
Proof.
  intros Hx Hy Hlt. apply fle_rank; [assumption .. |].
  assert (~ lex_lt (rank x) (rank y)) as Hn
      by (intros H; apply flt_rank in H; congruence).
  unfold lex_le, lex_lt in *.
  destruct (rank x) as [[a1 a2] a3], (rank y) as [[b1 b2] b3].
  assert (a1 = b1 /\ a2 = b2 /\ a3 = b3
          \/ (b1 < a1 \/ b1 = a1 /\ (b2 < a2 \/ b2 = a2 /\ b3 < a3))) as [H|H]
      by lia.
  - right. destruct H as (-> & -> & ->). reflexivity.
  - by left.
Qed.

Lemma flt_fle_trans (x y z : float) :
  is_abs x -> is_abs y -> is_abs z ->
  flt x y = true -> fle y z = true -> flt x z = true.
Proof.
  intros Hx Hy Hz Hxy Hyz.
  apply flt_rank in Hxy; [| assumption ..].
  apply fle_rank in Hyz; [| assumption ..].
  apply flt_rank; [assumption .. |].
  unfold lex_le, lex_lt in *.
  destruct (rank x) as [[a1 a2] a3], (rank y) as [[b1 b2] b3],
           (rank z) as [[c1 c2] c3].
  destruct Hyz as [Hyz|Heq]; [lia | injection Heq as -> -> ->; lia].
Qed.

Lemma flt_fle (x y : float) :
  is_abs x -> is_abs y -> flt x y = true -> fle x y = true.
Proof.
  intros Hx Hy Hxy. apply fle_rank; [assumption .. |].
  left. by apply flt_rank.
Qed.

Lemma fle_refl (x : float) : is_abs x -> fle x x = true.
Proof. intros Hx. apply fle_rank; [assumption .. |]. by right. Qed.

(** The product of a converted integer of at most 1021 bits and the
    literal [1.26] is a finite double. *)
Lemma scaled_by_1_26_finite (sx : bool) (m : positive) (e : Z) :
  Z.pos m < 2 ^ 53 -> -52 <= e <= 969 ->
  exists m' e', fmul (S754_finite sx m e) (lit 126 2) = S754_finite sx m' e'.
Proof.
  intros Hm He.
  change (lit 126 2) with (S754_finite false 5674535530486825 (-52)).
  cbn [fmul SFmul]. rewrite xorb_false_r.
  assert (Z.pos (m * 5674535530486825) < 2 ^ 106) as Hp.
  { rewrite Pos2Z.inj_mul.
    change (2 ^ 106) with (2 ^ 53 * 2 ^ 53).
    change (2 ^ 53) with 9007199254740992 in *. lia. }
  pose proof (Zdigits2_le (Z.pos (m * 5674535530486825)) 106
                          ltac:(lia) Hp ltac:(lia)) as Hd.
  destruct (binary_round_aux_finite sx (Z.pos (m * 5674535530486825))
                                    (e + -52) loc_Exact)
    as (m' & e' & Hr & _ & _);
    [lia | unfold emin, prec, emax; lia | lia |].
  eauto.
Qed.

(** The hardware value is defined, and within the clamp range, for every
    level whose distance to 50 is below [2^1021]. *)
Lemma vibrance_val_total (level : Z) :
  - 2 ^ 1021 < level - 50 < 2 ^ 1021 ->
  exists v, NvidiaService.vibrance_val level = Ok v /\ -63 <= v <= 63.
Proof.
  intros Hl. unfold NvidiaService.vibrance_val, int_mul_float, float_of_int.
  destruct (level - 50) as [|p|p] eqn:Hn.
  - cbn. exists 0. split; [reflexivity | lia].
  - destruct (binary_round_int false p 1021 ltac:(lia) ltac:(lia))
      as (m & e & Hx & Hm & He).
    cbn [binary_normalize]. rewrite Hx. cbn [is_finite mbind result_bind mret
                                             result_ret].
    destruct (scaled_by_1_26_finite false m e Hm ltac:(lia)) as (m' & e' & ->).
    cbn [int_of_float]. eexists. split; [reflexivity |].
    rewrite max2_spec, min2_spec. lia.
  - destruct (binary_round_int true p 1021 ltac:(lia) ltac:(lia))
      as (m & e & Hx & Hm & He).
    cbn [binary_normalize]. rewrite Hx. cbn [is_finite mbind result_bind mret
                                             result_ret].
    destruct (scaled_by_1_26_finite true m e Hm ltac:(lia)) as (m' & e' & ->).
    cbn [int_of_float]. eexists. split; [reflexivity |].
    rewrite max2_spec, min2_spec. lia.
Qed.

End BinaryRounding.

(* ===================================================================== *)
(** ** Properties of [NvidiaService] *)
(* ===================================================================== *)

Section NvidiaFacts.
Import NvidiaService.

Lemma fan_out_writes (hs : list Z) (v : Z) (self : t) (w : world) :
  for_each hs (fun h => _set_dvc h 0 v) (self, w)
  = (Ok tt, (self, emit_all (map (fun h => SetDVCLevel h 0 v) hs) w)).
Proof.
  revert w. induction hs as [|h hs IH]; intros w.
  - cbn. by rewrite emit_all_nil.
  - cbn [for_each map].
    step_bind. cbn [fst snd]. rewrite IH.
    unfold emit_all, emit; cbn. by rewrite <- app_assoc.
Qed.

(** What an available service writes, given the value computed. *)
Lemma set_vibrance_writes (self : t) (w : world) (level : option Z)
      (primary_only : bool) (v : Z) :
  available self = true ->
  vibrance_val (default 50 level) = Ok v ->
  set_vibrance level primary_only (self, w)
  = (Ok tt, (self, emit_all (dvc_writes (_handles self) primary_only v) w)).
Proof.
  intros Hav Hv. unfold set_vibrance.
  step_bind. rewrite Hav. cbn [negb].
  unfold try_except.
  replace (match level with Some l => l | None => 50 end)
    with (default 50 level) by (by destruct level).
  erewrite bind_ok; [| unfold lift; rewrite Hv; reflexivity ].
  unfold dvc_writes.
  destruct primary_only, (_handles self) as [|h0 hs];
    try (rewrite fan_out_writes; reflexivity); reflexivity.
Qed.

End NvidiaFacts.

Section NvidiaClaims.
Import NvidiaService.

(** C5. When the availability flag is false, [set_vibrance] returns
    normally for every level (an integer or [None]) and every
    [primary_only], and leaves the service and the world, hence the trace
    of hardware writes and of log records, exactly as they were. *)
Theorem set_vibrance_unavailable_is_noop
    (self : t) (w : world) (level : option Z) (primary_only : bool) :
  available self = false ->
  set_vibrance level primary_only (self, w) = (Ok tt, (self, w)).
Proof.
  intros Hav. unfold set_vibrance. step_bind. by rewrite Hav.
Qed.

Lemma set_vibrance_unavailable_is_noop_witness :
  available gpu_absent = false
  /\ set_vibrance (Some 80) true (gpu_absent, w0) = (Ok tt, (gpu_absent, w0)).
Proof.
  split; [reflexivity |].
  apply (set_vibrance_unavailable_is_noop gpu_absent w0 (Some 80) true).
  reflexivity.
Defined.

(** C8. With the service available, for every level ([None] standing
    for 50) whose distance to 50 is below [2^1021], the hardware value [v]
    is computed, lies in [-63, 63], and [set_vibrance] writes it to the
    first enumerated handle and to no other when [primary_only] is true
    and a handle exists, and to every enumerated handle, in enumeration
    order, when [primary_only] is false. *)
Theorem set_vibrance_primary_or_fan_out
    (self : t) (w : world) (level : option Z) :
  available self = true ->
  - 2 ^ 1021 < default 50 level - 50 < 2 ^ 1021 ->
  exists v,
    vibrance_val (default 50 level) = Ok v /\ -63 <= v <= 63
    /\ (forall h0 hs, _handles self = h0 :: hs ->
          set_vibrance level true (self, w)
          = (Ok tt, (self, emit_all [SetDVCLevel h0 0 v] w)))
    /\ set_vibrance level false (self, w)
       = (Ok tt, (self, emit_all (map (fun h => SetDVCLevel h 0 v)
                                      (_handles self)) w)).
Proof.
  intros Hav Hl.
  destruct (vibrance_val_total (default 50 level) Hl) as (v & Hv & Hrange).
  exists v. split; [exact Hv |]. split; [exact Hrange |]. split.
  - intros h0 hs Hhs.
    rewrite (set_vibrance_writes self w level true v Hav Hv).
    unfold dvc_writes. by rewrite Hhs.
  - by rewrite (set_vibrance_writes self w level false v Hav Hv).
Qed.

Lemma set_vibrance_primary_or_fan_out_witness :
  set_vibrance (Some 80) true (gpu_ready, w0)
  = (Ok tt, (gpu_ready, emit_all [SetDVCLevel 256 0 37] w0))
  /\ set_vibrance (Some 80) false (gpu_ready, w0)
     = (Ok tt, (gpu_ready,
                emit_all [SetDVCLevel 256 0 37; SetDVCLevel 257 0 37] w0)).
Proof.
  destruct (set_vibrance_primary_or_fan_out gpu_ready w0 (Some 80))
    as (v & Hv & _ & Hprimary & Hall); [reflexivity | cbn; lia |].
  assert (v = 37) as -> by (vm_compute in Hv; congruence).
  split; [apply (Hprimary 256 [257]); reflexivity | exact Hall].
Defined.

Lemma clamp_idle_on_ui_levels : forallb clamp_idle_at ui_levels = true.
Proof. vm_compute. reflexivity. Qed.

(** On the levels of the interface the clamp never acts: the truncated
    product is itself between -63 and 63, and is the hardware value. *)
Lemma clamp_idle (level : Z) :
  0 <= level <= 100 ->
  exists raw,
    unclamped_vibrance level = Ok raw /\ -63 <= raw <= 63
    /\ vibrance_val level = Ok raw.
Proof.
  intros Hl.
  assert (Hin : In level ui_levels).
  { unfold ui_levels. apply in_map_iff. exists (Z.to_nat level).
    split; [lia |]. apply in_seq. lia. }
  pose proof (proj1 (forallb_forall clamp_idle_at ui_levels)
                    clamp_idle_on_ui_levels level Hin) as Hc.
  unfold clamp_idle_at in Hc.
  destruct (unclamped_vibrance level) as [raw|e]; [| discriminate].
  destruct (vibrance_val level) as [v|e]; [| discriminate].
  apply andb_true_iff in Hc as [Hc Hhi]. apply andb_true_iff in Hc as [Heq Hlo].
  apply Z.eqb_eq in Heq. apply Z.leb_le in Hlo, Hhi. subst v.
  exists raw. split; [reflexivity |]. split; [lia | reflexivity].
Qed.

(** C6, as the code has it. The mapping sends level 50 to hardware value
    0, level 100 to 63 and level 0 to -63, and these are the values an
    available service writes at those levels. The two end values are not
    produced by the clamp: [int(50 * 1.26)] is already 63 and
    [int(-50 * 1.26)] already -63, and at every level from 0 to 100 the
    truncated product lies within [-63, 63], so that the clamp leaves it
    as it is. *)
Theorem vibrance_mapping_endpoints
    (self : t) (w : world) (primary_only : bool) :
  available self = true ->
  (vibrance_val 50 = Ok 0 /\ vibrance_val 100 = Ok 63
   /\ vibrance_val 0 = Ok (-63))
  /\ (unclamped_vibrance 100 = Ok 63 /\ unclamped_vibrance 0 = Ok (-63))
  /\ (forall level, 0 <= level <= 100 ->
        exists raw, unclamped_vibrance level = Ok raw /\ -63 <= raw <= 63
                    /\ vibrance_val level = Ok raw)
  /\ set_vibrance (Some 50) primary_only (self, w)
     = (Ok tt, (self, emit_all (dvc_writes (_handles self) primary_only 0) w))
  /\ set_vibrance (Some 100) primary_only (self, w)
     = (Ok tt, (self, emit_all (dvc_writes (_handles self) primary_only 63) w))
  /\ set_vibrance (Some 0) primary_only (self, w)
     = (Ok tt, (self,
                emit_all (dvc_writes (_handles self) primary_only (-63)) w)).
Proof.
  intros Hav.
  assert (H50 : vibrance_val 50 = Ok 0) by (vm_compute; reflexivity).
  assert (H100 : vibrance_val 100 = Ok 63) by (vm_compute; reflexivity).
  assert (H0 : vibrance_val 0 = Ok (-63)) by (vm_compute; reflexivity).
  split; [by repeat split |].
  split; [split; vm_compute; reflexivity |].
  split; [exact clamp_idle |].
  repeat split; apply set_vibrance_writes; assumption.
Qed.

Lemma vibrance_mapping_endpoints_witness :
  unclamped_vibrance 100 = Ok 63
  /\ set_vibrance (Some 100) true (gpu_ready, w0)
     = (Ok tt, (gpu_ready, emit_all [SetDVCLevel 256 0 63] w0)).
Proof.
  destruct (vibrance_mapping_endpoints gpu_ready w0 true)
    as (_ & (Hraw & _) & _ & _ & H100 & _); [reflexivity |].
  split; [exact Hraw | exact H100].
Defined.

(** C6, as stated, fails on its gloss: at levels 100 and 0 the value is
    not reached "via clamping", the truncated product being 63 and -63
    before the clamp is applied. *)
Lemma endpoints_are_not_clamped :
  ~ (vibrance_val 50 = Ok 0
     /\ reached_by_clamping 100 63 /\ reached_by_clamping 0 (-63)).
Proof.
  intros (_ & (_ & raw & Hraw & Hne) & _).
  vm_compute in Hraw. congruence.
Qed.

Lemma truncates_on_ui_levels : forallb truncates_at ui_levels = true.
Proof. vm_compute. reflexivity. Qed.

Lemma vibrance_val_truncates (level : Z) :
  0 <= level <= 100 -> vibrance_val level = Ok (truncated_vibrance level).
Proof.
  intros Hl.
  assert (Hin : In level ui_levels).
  { unfold ui_levels. apply in_map_iff. exists (Z.to_nat level).
    split; [lia |]. apply in_seq. lia. }
  pose proof (proj1 (forallb_forall truncates_at ui_levels)
                    truncates_on_ui_levels level Hin) as Hc.
  unfold truncates_at in Hc.
  destruct (vibrance_val level) as [v|e]; [| discriminate].
  apply Z.eqb_eq in Hc. by rewrite Hc.
Qed.

(** C3, as the code has it. For every integer level in [0, 100] and an
    available service, [set_vibrance] writes
    [clamp(-63, 63, trunc((level - 50) * 1.26))], truncation being toward
    zero, to the first handle ([primary_only] with a handle present) or
    to every handle. *)
Theorem set_vibrance_writes_truncated_value
    (self : t) (w : world) (level : Z) (primary_only : bool) :
  available self = true ->
  0 <= level <= 100 ->
  set_vibrance (Some level) primary_only (self, w)
  = (Ok tt, (self, emit_all (dvc_writes (_handles self) primary_only
                                        (truncated_vibrance level)) w)).
Proof.
  intros Hav Hl. apply set_vibrance_writes; [assumption |].
  cbn [default]. by apply vibrance_val_truncates.
Qed.

Lemma set_vibrance_writes_truncated_value_witness :
  set_vibrance (Some 52) true (gpu_ready, w0)
  = (Ok tt, (gpu_ready, emit_all [SetDVCLevel 256 0 2] w0)).
Proof.
  apply (set_vibrance_writes_truncated_value gpu_ready w0 52 true);
    [reflexivity | lia].
Defined.

(** C3, as stated, fails at level 52: [(52 - 50) * 1.26 = 2.52] rounds
    to 3, and the service writes 2. *)
Lemma set_vibrance_does_not_round_at_52 :
  ~ (exists v, rounded_vibrance 52 v
       /\ set_vibrance (Some 52) true (gpu_ready, w0)
          = (Ok tt, (gpu_ready,
                     emit_all (dvc_writes (_handles gpu_ready) true v) w0))).
Proof.
  intros (v & (r & Hr & Hv) & Hw).
  vm_compute in Hw.
  assert (v = 2) as -> by congruence.
  unfold nearest_integer, clamp in *. lia.
Qed.

End NvidiaClaims.

(* ===================================================================== *)
(** ** Properties of [WindowsMouseService] *)
(* ===================================================================== *)

Section WindowsClaims.
Import WindowsMouseService.

Lemma set_speed_in_range (v : Z) (self : t) (w : world) :
  1 <= v <= 20 ->
  SystemParametersInfoW_set SPI_SETMOUSESPEED 0 v 3 (self, w)
  = (Ok tt, (self, speed_applied v w)).
Proof.
  intros Hv. unfold SystemParametersInfoW_set.
  step_bind. step_bind.
  replace (1 <=? v) with true by (symmetry; apply Z.leb_le; lia).
  replace (v <=? 20) with true by (symmetry; apply Z.leb_le; lia).
  reflexivity.
Qed.

Lemma set_speed_run (index : Z) (self : t) (w : world) :
  set_speed index (self, w)
  = (Ok tt, (self, speed_applied (clamp 1 20 index) w)).
Proof.
  unfold set_speed. rewrite max2_spec, min2_spec.
  change (Z.lor 1 2) with 3.
  apply set_speed_in_range. unfold clamp. lia.
Qed.

(** C10. For every integer [index], [set_speed] returns normally and
    makes exactly one pointer-speed call, whose value is [index] clamped
    into [1, 20]; the value handed to the system is therefore never out
    of range, and the system's pointer speed becomes that value. *)
Theorem set_speed_clamps (index : Z) (self : t) (w : world) :
  1 <= clamp 1 20 index <= 20
  /\ set_speed index (self, w)
     = (Ok tt, (self, speed_applied (clamp 1 20 index) w)).
Proof.
  split; [unfold clamp; lia | apply set_speed_run].
Qed.

Lemma set_speed_keeps_default (index : Z) (s : t * world) :
  _default (set_speed index s).2.1 = _default s.1.
Proof.
  destruct s as [self w]. by rewrite set_speed_run.
Qed.

Lemma optimize_keeps_default (base target : Z) (s : t * world) :
  _default (optimize base target s).2.1 = _default s.1.
Proof.
  unfold optimize, mbind, M_bind, lift.
  destruct (nearest_index base target) as [k|e]; [| reflexivity].
  apply set_speed_keeps_default.
Qed.

Lemma reset_run (self : t) (w : world) :
  reset (self, w)
  = (Ok tt, (self, speed_applied (clamp 1 20 (_default self)) w)).
Proof. unfold reset. step_bind. apply set_speed_run. Qed.

Lemma run_call_keeps_default (c : os_call) (s : t * world) :
  _default (run_call c s).2.1 = _default s.1.
Proof.
  destruct c as [index|base target|]; cbn [run_call].
  - apply set_speed_keeps_default.
  - apply optimize_keeps_default.
  - destruct s as [self w]. by rewrite reset_run.
Qed.

Lemma run_calls_keeps_default (cs : list os_call) (s : t * world) :
  _default (run_calls cs s).1 = _default s.1.
Proof.
  revert s. induction cs as [|c cs IH]; intros s; [reflexivity |].
  cbn [run_calls]. rewrite IH. apply run_call_keeps_default.
Qed.

(** C9. The default is the pointer speed the system reports at
    construction. No [set_speed] or [optimize] call, whatever its
    arguments and outcome, changes it, and after any run of calls on the
    service it is still the speed reported at construction. [reset]
    returns normally after exactly one pointer-speed call, made through
    [set_speed] and therefore carrying the captured value clamped into
    [1, 20]; for a captured value that is a valid speed, 1 to 20, the
    value applied is exactly the captured one, and it becomes the
    system's pointer speed again. *)
Theorem captured_default_is_immutable :
  (forall w, _default (__init__ w).1 = pointer_speed w)
  /\ (forall index s, _default (set_speed index s).2.1 = _default s.1)
  /\ (forall base target s,
        _default (optimize base target s).2.1 = _default s.1)
  /\ (forall cs w, _default (run_calls cs (__init__ w)).1 = pointer_speed w)
  /\ (forall self w,
        reset (self, w)
        = (Ok tt, (self, speed_applied (clamp 1 20 (_default self)) w)))
  /\ (forall cs w,
        1 <= pointer_speed w <= 20 ->
        reset (run_calls cs (__init__ w))
        = (Ok tt, ((run_calls cs (__init__ w)).1,
                   speed_applied (pointer_speed w)
                                 (run_calls cs (__init__ w)).2))
        /\ pointer_speed (reset (run_calls cs (__init__ w))).2.2
           = pointer_speed w).
Proof.
  split; [| split; [| split; [| split; [| split]]]].
  - intros w. reflexivity.
  - apply set_speed_keeps_default.
  - apply optimize_keeps_default.
  - intros cs w. by rewrite run_calls_keeps_default.
  - apply reset_run.
  - intros cs w Hw.
    pose proof (run_calls_keeps_default cs (__init__ w)) as Hd.
    destruct (run_calls cs (__init__ w)) as [self w'].
    cbn [fst snd] in *.
    change (_default (__init__ w).1) with (pointer_speed w) in Hd.
    rewrite reset_run, Hd.
    replace (clamp 1 20 (pointer_speed w)) with (pointer_speed w)
      by (unfold clamp; lia).
    split; reflexivity.
Qed.

Lemma captured_default_is_immutable_witness :
  reset (run_calls [SetSpeed 3; Optimize 1600 0; Optimize 1600 800]
                   (__init__ w0))
  = (Ok tt,
     ((run_calls [SetSpeed 3; Optimize 1600 0; Optimize 1600 800]
                 (__init__ w0)).1,
      speed_applied 10
        (run_calls [SetSpeed 3; Optimize 1600 0; Optimize 1600 800]
                   (__init__ w0)).2)).
Proof.
  destruct captured_default_is_immutable as (_ & _ & _ & _ & _ & Hreset).
  destruct (Hreset [SetSpeed 3; Optimize 1600 0; Optimize 1600 800] w0)
    as [Hr _]; [cbn; lia |].
  exact Hr.
Defined.

(** When the captured default is a valid speed, [reset] makes it the
    system's pointer speed again, whatever was set in between. *)
Lemma reset_restores_default (self : t) (w : world) :
  1 <= _default self <= 20 ->
  pointer_speed (reset (self, w)).2.2 = _default self.
Proof.
  intros Hd. unfold reset. step_bind. rewrite set_speed_run.
  cbn. unfold clamp. lia.
Qed.

End WindowsClaims.

(* ===================================================================== *)
(** ** Properties of [VXEMouseBackend] *)
(* ===================================================================== *)

Section MouseClaims.
Import VXEMouseBackend.
Variable consts : constants.

Lemma global_CMD_HZ_2000 : globals consts !! "CMD_HZ_2000" = None.
Proof. vm_compute. reflexivity. Qed.

Lemma global_CMD_HZ_1000 :
  globals consts !! "CMD_HZ_1000" = Some (PyPacket (CMD_HZ_1000 consts)).
Proof. vm_compute. reflexivity. Qed.

Lemma global_SEQ_DPI_1600 :
  globals consts !! "SEQ_DPI_1600"
  = Some (PyPacketSeq (SEQ_DPI_1600 consts)).
Proof. vm_compute. reflexivity. Qed.

Lemma global_SEQ_DPI_800 :
  globals consts !! "SEQ_DPI_800" = Some (PyPacketSeq (SEQ_DPI_800 consts)).
Proof. vm_compute. reflexivity. Qed.

Lemma send_with_device (self : t) (d : hid_device) (p : packet) (w : world) :
  device self = Some d ->
  _send p (self, w) = (Ok tt, (self, emit_all (send_events d p) w)).
Proof.
  intros Hd. unfold _send. step_bind.
  unfold has_device. rewrite Hd.
  unfold try_except, device_write, send_events.
  step_bind. rewrite Hd.
  destruct (opened d); reflexivity.
Qed.

Lemma paced_sends (self : t) (d : hid_device) (ps : list packet) (w : world) :
  device self = Some d ->
  for_each ps (fun p => _send p ;; sleep 20) (self, w)
  = (Ok tt, (self, emit_all (flat_map (fun p => send_events d p ++ [Sleep 20])
                                      ps) w)).
Proof.
  intros Hd. revert w. induction ps as [|p ps IH]; intros w.
  - cbn. by rewrite emit_all_nil.
  - cbn [for_each flat_map].
    erewrite bind_ok.
    2:{ erewrite bind_ok by (apply send_with_device; eassumption).
        reflexivity. }
    rewrite IH. unfold sleep, tell; cbn [fst snd].
    unfold emit_all, emit; cbn [events pointer_speed].
    by rewrite <- !app_assoc.
Qed.

End MouseClaims.

Section MouseModes.
Import VXEMouseBackend.

(** C1, on the code. With a device handle present, [set_game_mode] sends
    the DPI sequence paced by 20 ms pauses, waits the 250 ms settle
    delay, and then raises [NameError]: the name [CMD_HZ_2000] of the
    final mode-switch command is not bound in the module, which imports
    [CMD_HZ_8000] instead. No mode-switch packet is sent. *)
Theorem set_game_mode_raises_NameError
    (consts : constants) (self : t) (d : hid_device) (w : world) :
  device self = Some d ->
  set_game_mode consts (self, w)
  = (Raise (NameError "CMD_HZ_2000"),
     (self, emit_all (paced_events d (SEQ_DPI_1600 consts)) w)).
Proof.
  intros Hd. unfold set_game_mode. step_bind.
  unfold has_device. rewrite Hd. cbn [negb].
  erewrite bind_ok.
  2:{ unfold load_global. rewrite global_SEQ_DPI_1600.
      erewrite bind_ok by reflexivity. reflexivity. }
  erewrite bind_ok by (apply paced_sends; eassumption).
  erewrite bind_ok by reflexivity.
  erewrite bind_raise.
  2:{ unfold load_global. rewrite global_CMD_HZ_2000.
      erewrite bind_raise by reflexivity. reflexivity. }
  unfold paced_events, emit_all, emit; cbn [events pointer_speed fst snd].
  by rewrite <- !app_assoc.
Qed.

Lemma set_game_mode_raises_NameError_witness :
  set_game_mode sample_consts mouse_connected
  = (Raise (NameError "CMD_HZ_2000"),
     (mouse_connected.1,
      emit_all [HidWrite [8; 7; 0; 0; 12; 31]; Sleep 20;
                HidWrite [8; 7; 0; 0; 4; 2]; Sleep 20; Sleep 250] w0)).
Proof.
  apply (set_game_mode_raises_NameError sample_consts mouse_connected.1
           {| opened := true; nonblocking := true |} w0).
  reflexivity.
Defined.

(** The sibling path: [set_desktop_mode] names an imported command and
    completes, its last packet being the mode switch. *)
Lemma set_desktop_mode_completes
    (consts : constants) (self : t) (d : hid_device) (w : world) :
  device self = Some d ->
  set_desktop_mode consts (self, w)
  = (Ok tt,
     (self, emit_all (paced_events d (SEQ_DPI_800 consts)
                      ++ send_events d (CMD_HZ_1000 consts)) w)).
Proof.
  intros Hd. unfold set_desktop_mode. step_bind.
  unfold has_device. rewrite Hd. cbn [negb].
  erewrite bind_ok.
  2:{ unfold load_global. rewrite global_SEQ_DPI_800.
      erewrite bind_ok by reflexivity. reflexivity. }
  erewrite bind_ok by (apply paced_sends; eassumption).
  erewrite bind_ok by reflexivity.
  erewrite bind_ok.
  2:{ unfold load_global. rewrite global_CMD_HZ_1000.
      erewrite bind_ok by reflexivity. reflexivity. }
  cbn [fst snd]. erewrite send_with_device by eassumption.
  unfold paced_events, emit_all, emit; cbn [events pointer_speed fst snd].
  by rewrite <- !app_assoc.
Qed.

(** C7, as the code has it. With no device object held ([self.device]
    is [None]: the mouse was not discovered), [set_game_mode] and
    [set_desktop_mode] return normally and change nothing: no packet is
    sent, no pause is taken and no log record is written. *)
Theorem mode_calls_without_device_are_silent
    (consts : constants) (self : t) (w : world) :
  device self = None ->
  set_game_mode consts (self, w) = (Ok tt, (self, w))
  /\ set_desktop_mode consts (self, w) = (Ok tt, (self, w)).
Proof.
  intros Hd. unfold set_game_mode, set_desktop_mode.
  split; step_bind; unfold has_device; rewrite Hd; reflexivity.
Qed.

Lemma mode_calls_without_device_are_silent_witness :
  set_game_mode sample_consts mouse_missing = (Ok tt, mouse_missing)
  /\ set_desktop_mode sample_consts mouse_missing = (Ok tt, mouse_missing).
Proof.
  apply (mode_calls_without_device_are_silent sample_consts
           mouse_missing.1 mouse_missing.2).
  reflexivity.
Defined.

(** C7, as stated, fails in both states without an open device handle.
    After a discovery that found no receiver, the mode call returns
    normally and sends nothing, but the occurrence is logged neither by
    the call nor by the discovery before it. After a discovery whose
    [open_path] failed, [self.device] holds the device object that was
    never opened: [set_desktop_mode] then goes through its sequence,
    taking its pauses and logging one send error per packet, on every
    call, and [set_game_mode] raises. *)
Lemma no_open_handle_is_not_silent :
  (no_open_handle mouse_missing.1
   /\ ~ silent_and_logged_once (set_game_mode sample_consts) mouse_missing
   /\ ~ silent_and_logged_once (set_desktop_mode sample_consts) mouse_missing)
  /\ (no_open_handle mouse_unopened.1
      /\ ~ silent_and_logged_once (set_desktop_mode sample_consts)
                                  mouse_unopened
      /\ length (log_records
                   (trace_of (set_desktop_mode sample_consts mouse_unopened).2))
         = (length (log_records (trace_of mouse_unopened)) + 3)%nat
      /\ (set_game_mode sample_consts mouse_unopened).1
         = Raise (NameError "CMD_HZ_2000")).
Proof.
  split; [split; [exact I | split] | split; [reflexivity | split; [| split]]].
  - intros (_ & _ & _ & Hlog). vm_compute in Hlog. discriminate.
  - intros (_ & _ & _ & Hlog). vm_compute in Hlog. discriminate.
  - intros (_ & _ & _ & Hlog). vm_compute in Hlog. discriminate.
  - vm_compute. reflexivity.
  - vm_compute. reflexivity.
Qed.

End MouseModes.

(* ===================================================================== *)
(** ** The recorded mode under the application's operations *)
(* ===================================================================== *)

Section EngineFrame.
Import App.

Lemma keeps_ret {A} (a : A) : keeps_engine (mret a).
Proof. intros s. reflexivity. Qed.

Lemma keeps_tell (e : event) : keeps_engine (tell e).
Proof. intros s. reflexivity. Qed.

Lemma keeps_get_self : keeps_engine get_self.
Proof. intros s. reflexivity. Qed.

Lemma keeps_bind {A B} (m : M t A) (f : A -> M t B) :
  keeps_engine m -> (forall a, keeps_engine (f a)) -> keeps_engine (m ≫= f).
Proof.
  intros Hm Hf s. unfold mbind, M_bind.
  specialize (Hm s). destruct (m s) as [[a|e] s'].
  - rewrite Hf. exact Hm.
  - exact Hm.
Qed.

Lemma keeps_try {A} (body : M t A) (handler : exn -> M t A) :
  keeps_engine body -> (forall e, keeps_engine (handler e)) ->
  keeps_engine (try_except body handler).
Proof.
  intros Hb Hh s. unfold try_except.
  specialize (Hb s). destruct (body s) as [[a|e] s'].
  - exact Hb.
  - rewrite Hh. exact Hb.
Qed.

Lemma keeps_on_part {P A} (get : t -> P) (set : P -> t -> t) (m : M P A) :
  (forall p a, engine (set p a) = engine a) ->
  keeps_engine (on_part get set m).
Proof.
  intros Hset s. unfold on_part.
  destruct (m (get s.1, s.2)) as [r [p' w']]. cbn. apply Hset.
Qed.

Lemma returns_bind {A B} (m : M t A) (f : A -> M t B) :
  returns m -> (forall a, returns (f a)) -> returns (m ≫= f).
Proof.
  intros Hm Hf s. unfold mbind, M_bind.
  destruct (Hm s) as [a Ha]. destruct (m s) as [r s']. cbn in Ha. subst r.
  apply Hf.
Qed.

Lemma returns_try_logged (body : M t unit) (msg : string) :
  returns (try_except body (fun e => tell (LogError msg e))).
Proof.
  intros s. unfold try_except.
  destruct (body s) as [[a|e] s']; eexists; reflexivity.
Qed.

Lemma returns_get_self : returns get_self.
Proof. intros s. eexists. reflexivity. Qed.

Create HintDb engine.

#[local] Hint Resolve keeps_ret keeps_tell keeps_get_self keeps_bind
  keeps_try keeps_on_part returns_bind returns_try_logged
  returns_get_self : engine.

Variable consts : VXEMouseBackend.constants.

Lemma safety_execute_keeps_engine : keeps_engine (safety_execute consts).
Proof. unfold safety_execute. auto 10 with engine. Qed.

Lemma safety_execute_returns : returns (safety_execute consts).
Proof. unfold safety_execute. auto 10 with engine. Qed.

Lemma safety_execute_run (s : t * world) :
  exists s', safety_execute consts s = (Ok tt, s') /\ engine s'.1 = engine s.1.
Proof.
  destruct (safety_execute_returns s) as [[] Hr].
  pose proof (safety_execute_keeps_engine s) as Hk.
  destruct (safety_execute consts s) as [r s']. cbn in Hr, Hk. subst r.
  by exists s'.
Qed.

Lemma on_vib_change_keeps_engine val is_game :
  keeps_engine (on_vib_change val is_game).
Proof.
  unfold on_vib_change. apply keeps_bind; [auto with engine |].
  intros self. destruct (_ && _); auto with engine.
Qed.

Lemma modify_run (f : t -> t) (s : t * world) :
  modify f s = (Ok tt, (f s.1, s.2)).
Proof. reflexivity. Qed.

(** Stopping: the running flag is cleared and the mode is reset. *)
Lemma toggle_engine_stop (s : t * world) :
  running (engine s.1) = true ->
  engine (toggle_engine consts s).2.1
  = {| running := false; current_state := "unknown" |}.
Proof.
  destruct s as [a w]. cbn [fst]. intros Hrun. unfold toggle_engine.
  erewrite bind_ok by apply modify_run. step_bind.
  cbn [set_engine engine running]. rewrite Hrun. cbn [negb].
  erewrite bind_ok by apply modify_run. cbn [fst snd].
  match goal with
  | |- context [(safety_execute consts ≫= _) ?s1] =>
      destruct (safety_execute_run s1) as (s2 & Hs & He)
  end.
  erewrite bind_ok by exact Hs.
  erewrite bind_ok by apply modify_run.
  rewrite modify_run. cbn in He |- *. by rewrite He.
Qed.

(** Starting: the running flag is set and the mode is kept. *)
Lemma toggle_engine_start (s : t * world) :
  running (engine s.1) = false ->
  engine (toggle_engine consts s).2.1
  = {| running := true; current_state := current_state (engine s.1) |}.
Proof.
  destruct s as [a w]. cbn [fst]. intros Hrun. unfold toggle_engine.
  erewrite bind_ok by apply modify_run. step_bind.
  cbn [set_engine engine running]. rewrite Hrun. cbn [negb].
  rewrite modify_run. reflexivity.
Qed.

Lemma target_mode_known games procs : target_mode games procs <> "unknown".
Proof. unfold target_mode. destruct (existsb _ _); discriminate. Qed.

Lemma tick_mode (games procs : list string) (s : t * world) :
  mode s <> "unknown" -> mode ((tick games procs s).2) <> "unknown".
Proof.
  destruct s as [a w]. unfold mode, tick. cbn [fst]. intros Hm.
  step_bind. destruct (running (engine a)); [| exact Hm].
  case_bool_decide; [exact Hm |].
  rewrite modify_run. cbn. apply target_mode_known.
Qed.

End EngineFrame.

Section RecordedMode.
Import App.

(** C2, as the code has it. Once the recorded mode is no longer
    ["unknown"], an operation of the program sets it back to ["unknown"]
    exactly when that operation is [toggle_engine] stopping a running
    engine; starting the engine, a vibrance change and an engine tick
    never do. *)
Theorem only_stopping_resets_mode
    (consts : VXEMouseBackend.constants) (a : action) (s : t * world) :
  mode s <> "unknown" ->
  (mode (step consts a s) = "unknown"
   <-> a = ToggleEngine /\ running (engine s.1) = true).
Proof.
  intros Hm. unfold mode, step in *. destruct a as [| val is_game | games procs];
    cbn [perform].
  - destruct (running (engine s.1)) eqn:Hrun.
    + rewrite toggle_engine_stop by assumption. cbn. tauto.
    + rewrite toggle_engine_start by assumption. cbn.
      split; [intros H; contradiction | intros [_ H]; discriminate].
  - rewrite on_vib_change_keeps_engine.
    split; [intros H; contradiction | intros [H _]; discriminate].
  - split; [| intros [H _]; discriminate].
    intros H. exfalso. revert H. by apply tick_mode.
Qed.

Lemma only_stopping_resets_mode_witness :
  mode app_in_game = "game"
  /\ (mode (step sample_consts ToggleEngine app_in_game) = "unknown"
      <-> ToggleEngine = ToggleEngine /\ running (engine app_in_game.1) = true).
Proof.
  split; [reflexivity |].
  apply (only_stopping_resets_mode sample_consts ToggleEngine app_in_game).
  vm_compute. discriminate.
Defined.

(** C2, as stated, fails: with automation running and the mode ["game"],
    a reachable state, stopping automation through [toggle_engine] sets
    the recorded mode back to ["unknown"]. *)
Lemma toggle_engine_returns_to_unknown :
  ~ never_back_to_unknown sample_consts.
Proof.
  intros H. apply (H ToggleEngine app_in_game).
  - unfold app_in_game. do 2 apply reachable_step.
    apply reachable_fresh. reflexivity.
  - vm_compute. discriminate.
  - vm_compute. reflexivity.
Qed.

End RecordedMode.

(* ===================================================================== *)
(** ** [optimize]: the index selected *)
(* ===================================================================== *)

Section NearestIndex.
Import WindowsMouseService.

(** [min(..., key=...)] returns the first element whose key is smallest:
    every earlier key is strictly larger, every later key at least as
    large. The invariant of the scan: [pre] holds the elements before the
    current best, [mid] those scanned since. *)
Lemma min_key_from_split {A : Type} (rest pre mid : list (A * float))
      (best : A) (kbest : float) :
  (forall y ky, In (y, ky) (pre ++ (best, kbest) :: mid ++ rest) -> is_abs ky) ->
  (forall y ky, In (y, ky) pre -> flt kbest ky = true) ->
  (forall y ky, In (y, ky) mid -> fle kbest ky = true) ->
  exists pre' kx post,
    pre ++ (best, kbest) :: mid ++ rest
    = pre' ++ (min_key_from best kbest rest, kx) :: post
    /\ (forall y ky, In (y, ky) pre' -> flt kx ky = true)
    /\ (forall y ky, In (y, ky) post -> fle kx ky = true).
Proof.
  revert pre mid best kbest.
  induction rest as [|[x kx] rest IH]; intros pre mid best kbest Habs Hpre Hmid.
  - exists pre, kbest, mid. rewrite app_nil_r. cbn. auto.
  - cbn [min_key_from].
    assert (is_abs kbest) as Hb
        by (apply (Habs best); apply in_or_app; right; left; reflexivity).
    assert (is_abs kx) as Hx.
    { apply (Habs x). apply in_or_app. right. right.
      apply in_or_app. right. left. reflexivity. }
    assert (forall y ky, In (y, ky) (pre ++ (best, kbest) :: mid) -> is_abs ky)
      as Hseen.
    { intros y ky Hin. apply (Habs y).
      apply in_app_or in Hin as [Hin|[Hin|Hin]].
      - apply in_or_app. by left.
      - apply in_or_app. right. by left.
      - apply in_or_app. right. right. apply in_or_app. by left. }
    destruct (flt kx kbest) eqn:Hlt.
    + specialize (IH (pre ++ (best, kbest) :: mid) [] x kx).
      replace ((pre ++ (best, kbest) :: mid) ++ (x, kx) :: [] ++ rest)
        with (pre ++ (best, kbest) :: mid ++ (x, kx) :: rest) in IH
        by (by rewrite <- app_assoc).
      apply IH; [exact Habs | | intros y ky []].
      intros y ky Hin. pose proof (Hseen y ky Hin) as Hky.
      apply flt_fle_trans with (y := kbest); try assumption.
      apply in_app_or in Hin as [Hin|[Hin|Hin]].
      * apply flt_fle; try assumption. by apply (Hpre y).
      * injection Hin as _ <-. by apply fle_refl.
      * by apply (Hmid y).
    + specialize (IH pre (mid ++ [(x, kx)]) best kbest).
      replace (pre ++ (best, kbest) :: (mid ++ [(x, kx)]) ++ rest)
        with (pre ++ (best, kbest) :: mid ++ (x, kx) :: rest) in IH
        by (by rewrite <- app_assoc).
      apply IH; [exact Habs | exact Hpre |].
      intros y ky Hin. apply in_app_or in Hin as [Hin|[Hin|[]]].
      * by apply (Hmid y).
      * injection Hin as _ <-. by apply flt_false_fle.
Qed.

Lemma dict_getitem_get {V : Type} (d : list (Z * V)) (k : Z) (dflt : V) :
  In k (keys d) -> dict_getitem d k = Ok (dict_get d k dflt).
Proof.
  unfold dict_getitem, dict_get, keys.
  induction d as [|[k' v] d IH]; cbn [map find fst In]; [tauto |].
  intros [->|Hin].
  - by rewrite Z.eqb_refl.
  - destruct (k' =? k); [reflexivity | by apply IH].
Qed.

Lemma with_keys_ok (req : float) (ks : list Z) :
  (forall k, In k ks -> In k (keys _MAP)) ->
  with_keys req ks = Ok (map (fun k => (k, double_distance req k)) ks).
Proof.
  induction ks as [|k ks IH]; intros Hks; [reflexivity |].
  cbn [with_keys map]. unfold distance.
  rewrite (dict_getitem_get _MAP k (S754_zero false)) by (apply Hks; by left).
  cbn [mbind result_bind mret result_ret].
  rewrite IH by (intros k' Hk'; apply Hks; by right).
  reflexivity.
Qed.

Lemma keys_MAP : keys _MAP = map Z.of_nat (seq 1 20).
Proof. reflexivity. Qed.

Lemma In_keys_MAP (k : Z) : In k (keys _MAP) <-> 1 <= k <= 20.
Proof.
  rewrite keys_MAP, in_map_iff. split.
  - intros (n & <- & Hn). apply in_seq in Hn. lia.
  - intros Hk. exists (Z.to_nat k). split; [lia |]. apply in_seq. lia.
Qed.

Lemma MAP_entries_finite (k : Z) :
  In k (keys _MAP) ->
  exists m e, dict_get _MAP k (S754_zero false) = S754_finite false m e.
Proof.
  intros Hk. change (keys _MAP) with
    [1; 2; 3; 4; 5; 6; 7; 8; 9; 10; 11; 12; 13; 14; 15; 16; 17; 18; 19; 20]
    in Hk.
  repeat (destruct Hk as [<-|Hk]; [vm_compute; eauto |]). destruct Hk.
Qed.

Lemma double_distance_is_abs (req : float) (k : Z) :
  req <> S754_nan -> In k (keys _MAP) -> is_abs (double_distance req k).
Proof.
  intros Hreq Hk. destruct (MAP_entries_finite k Hk) as (m & e & Hm).
  unfold double_distance. rewrite Hm.
  apply fabs_is_abs. by apply fsub_not_nan.
Qed.

(** For positive integers below [2^1023] the request is computed without
    an exception and is not a NaN. *)
Lemma requested_ok (base target : Z) :
  0 < base < 2 ^ 1023 -> 0 < target < 2 ^ 1023 ->
  exists req, requested base target = Ok req /\ req <> S754_nan.
Proof.
  intros Hb Ht.
  destruct (float_of_int_pos base Hb) as (mb & eb & Hfb).
  destruct (float_of_int_pos target Ht) as (mt & et & Hft).
  unfold requested, int_mul_float, float_div_int.
  rewrite Hfb, Hft. cbn [mbind result_bind mret result_ret ftruediv].
  eexists. split; [reflexivity |].
  apply fdiv_not_nan.
  change (dict_get _MAP 10 (lit 10 1))
    with (S754_finite false 4503599627370496 (-52)).
  apply fmul_not_nan.
Qed.

Lemma increasing_after (ks1 ks2 : list Z) (k j : Z) :
  StronglySorted Z.lt (ks1 ++ k :: ks2) -> In j ks2 -> k < j.
Proof.
  induction ks1 as [|k1 ks1 IH]; cbn [app]; intros Hs Hj.
  - apply StronglySorted_inv in Hs as [_ Hall].
    rewrite List.Forall_forall in Hall. by apply Hall.
  - apply StronglySorted_inv in Hs as [Hs _]. by apply IH.
Qed.

Lemma keys_MAP_increasing : StronglySorted Z.lt (keys _MAP).
Proof.
  change (keys _MAP) with
    [1; 2; 3; 4; 5; 6; 7; 8; 9; 10; 11; 12; 13; 14; 15; 16; 17; 18; 19; 20].
  repeat (apply SSorted_cons;
          [| repeat (apply List.Forall_cons; [lia |]); apply List.Forall_nil]).
  apply SSorted_nil.
Qed.

(** The index [nearest_index] returns for a request [req] that is not a
    NaN: first among the indices of smallest binary64 distance. *)
Lemma min_over_MAP (req : float) :
  req <> S754_nan ->
  exists k,
    (keyed ← with_keys req (keys _MAP); min_key keyed) = Ok k
    /\ 1 <= k <= 20
    /\ (forall j, 1 <= j <= 20 ->
          fle (double_distance req k) (double_distance req j) = true)
    /\ (forall j, 1 <= j < k ->
          flt (double_distance req k) (double_distance req j) = true).
Proof.
  intros Hreq.
  rewrite with_keys_ok by auto.
  cbn [mbind result_bind].
  set (f := fun k => (k, double_distance req k)).
  assert (forall y ky, In (y, ky) (map f (keys _MAP)) -> is_abs ky) as Habs.
  { intros y ky Hin. apply in_map_iff in Hin as (k & Hk & Hin).
    injection Hk as _ <-. by apply double_distance_is_abs. }
  pose proof keys_MAP_increasing as Hsorted.
  assert (exists ks', keys _MAP = 1 :: ks') as (ks' & Hks)
      by (eexists; reflexivity).
  rewrite Hks in Habs |- *. cbn [map min_key]. unfold f at 1.
  destruct (min_key_from_split (map f ks') [] [] 1 (double_distance req 1))
    as (pre & kx & post & Hsplit & Hpre & Hpost);
    [exact Habs | intros y ky [] | intros y ky [] |].
  set (k := min_key_from 1 (double_distance req 1) (map f ks')) in *.
  change ([] ++ (1, double_distance req 1) :: [] ++ map f ks')
    with (map f (1 :: ks')) in Hsplit.
  rewrite <- Hks in Hsplit.
  apply map_eq_app in Hsplit as (ks1 & ks2 & Hkeys & Hm1 & Hm2).
  apply map_eq_cons in Hm2 as (k' & ks3 & -> & Hk' & Hm3).
  injection Hk' as -> <-. subst pre post.
  assert (In k (keys _MAP)) as Hk
      by (rewrite Hkeys; apply in_or_app; right; by left).
  assert (is_abs (double_distance req k)) as Hak
      by (by apply double_distance_is_abs).
  exists k. split; [reflexivity |]. split; [by apply In_keys_MAP |]. split.
  - intros j Hj. apply In_keys_MAP in Hj as Hin.
    pose proof (double_distance_is_abs req j Hreq Hin) as Haj.
    rewrite Hkeys in Hin. apply in_app_or in Hin as [Hin|[<-|Hin]].
    + apply flt_fle; try assumption.
      apply (Hpre j). apply in_map_iff. by exists j.
    + by apply fle_refl.
    + apply (Hpost j). apply in_map_iff. by exists j.
  - intros j Hj. pose proof (proj1 (In_keys_MAP k) Hk) as Hk20.
    assert (In j (keys _MAP)) as Hin by (apply In_keys_MAP; lia).
    rewrite Hkeys in Hin, Hsorted.
    apply in_app_or in Hin as [Hin|[->|Hin]].
    + apply (Hpre j). apply in_map_iff. by exists j.
    + lia.
    + pose proof (increasing_after ks1 ks3 k j Hsorted Hin). lia.
Qed.

End NearestIndex.

(* ===================================================================== *)
(** ** Binary64 arithmetic: faithful rounding *)
(* ===================================================================== *)

Section Dyadic.

Lemma pow2_pos (n : Z) : 0 <= n -> 0 < 2 ^ n.
Proof. intros Hn. apply Z.pow_pos_nonneg; lia. Qed.

Lemma pow2_split (a b : Z) : 0 <= a -> 0 <= b -> 2 ^ (a + b) = 2 ^ a * 2 ^ b.
Proof. intros Ha Hb. apply Z.pow_add_r; lia. Qed.

Lemma dyadic_shift (m e c : Z) :
  0 <= c -> -1074 <= e -> dyadic m (e + c) = dyadic (m * 2 ^ c) e.
Proof.
  intros Hc He. unfold dyadic.
  replace (e + c + 1074) with (c + (e + 1074)) by lia.
  rewrite pow2_split by lia. lia.
Qed.

Lemma dyadic_pos (m e : Z) : 0 < m -> -1074 <= e -> 0 < dyadic m e.
Proof.
  intros Hm He. unfold dyadic. pose proof (pow2_pos (e + 1074) ltac:(lia)). lia.
Qed.

Lemma dyadic_le (m n e : Z) : -1074 <= e -> (dyadic m e <= dyadic n e <-> m <= n).
Proof.
  intros He. unfold dyadic. pose proof (pow2_pos (e + 1074) ltac:(lia)). nia.
Qed.

Lemma dyadic_lt (m n e : Z) : -1074 <= e -> (dyadic m e < dyadic n e <-> m < n).
Proof.
  intros He. unfold dyadic. pose proof (pow2_pos (e + 1074) ltac:(lia)). nia.
Qed.

(** Between two neighbouring doubles there is no representable number. *)
Lemma gap (q E v : Z) :
  2 ^ 52 <= q -> -1074 <= E -> representable v ->
  (v < dyadic (q + 1) E -> v <= dyadic q E)
  /\ (dyadic q E < v -> dyadic (q + 1) E <= v).
Proof.
  intros Hq HE (n & e & Hn & He & ->).
  destruct (Z_le_gt_dec E e) as [Hge|Hlt].
  - replace e with (E + (e - E)) by lia.
    rewrite dyadic_shift by lia.
    rewrite dyadic_lt, dyadic_le, dyadic_lt, dyadic_le by lia. lia.
  - assert (dyadic n e < dyadic q E) as Hlt'.
    { replace E with (e + (E - e)) by lia.
      rewrite dyadic_shift by lia. apply dyadic_lt; [lia |].
      assert (2 ^ 1 <= 2 ^ (E - e)) by (apply Z.pow_le_mono_r; lia).
      change (2 ^ 1) with 2 in *. change (2 ^ 52) with 4503599627370496 in *.
      change (2 ^ 53) with 9007199254740992 in *. nia. }
    lia.
Qed.

End Dyadic.

Section RoundAux.

Lemma Zdigits2_unique (m d : Z) :
  0 < d -> 2 ^ (d - 1) <= m < 2 ^ d -> Zdigits2 m = d.
Proof.
  intros Hd [Hlo Hhi].
  assert (0 < m) as Hm by (pose proof (pow2_pos (d - 1) ltac:(lia)); lia).
  destruct (Zdigits2_bounds m Hm) as (HD & HDlo & HDhi).
  set (D := Zdigits2 m) in *.
  destruct (Z.lt_trichotomy D d) as [Hlt|[Heq|Hgt]]; [| exact Heq |].
  - assert (2 ^ D <= 2 ^ (d - 1)) by (apply Z.pow_le_mono_r; lia). lia.
  - assert (2 ^ d <= 2 ^ (D - 1)) by (apply Z.pow_le_mono_r; lia). lia.
Qed.

Lemma loc_of_shr_record_of_loc (m : Z) (l : location) :
  loc_of_shr_record (shr_record_of_loc m l) = l.
Proof. destruct l as [|[]]; reflexivity. Qed.

Lemma shr_1_clean (mrs : shr_record) (c : Z) :
  shr_r mrs = false -> shr_s mrs = false -> 0 <= c -> shr_m mrs = 2 * c ->
  shr_r (shr_1 mrs) = false /\ shr_s (shr_1 mrs) = false
  /\ shr_m (shr_1 mrs) = c.
Proof.
  destruct mrs as [m r s]. cbn [shr_r shr_s shr_m]. intros -> -> Hc ->.
  destruct c as [|c|c]; cbn; [tauto | tauto | lia].
Qed.

Lemma iter_shr_clean (p : positive) (mrs : shr_record) (c : Z) :
  shr_r mrs = false -> shr_s mrs = false -> 0 <= c ->
  shr_m mrs = c * 2 ^ Z.pos p ->
  shr_r (SpecFloat.iter_pos shr_1 p mrs) = false
  /\ shr_s (SpecFloat.iter_pos shr_1 p mrs) = false
  /\ shr_m (SpecFloat.iter_pos shr_1 p mrs) = c.
Proof.
  revert mrs c.
  induction p as [p IH|p IH|]; intros mrs c Hr Hs Hc Hm;
    cbn [SpecFloat.iter_pos].
  - assert (0 < 2 ^ Z.pos p) as Hp by (apply pow2_pos; lia).
    destruct (shr_1_clean mrs (c * 2 ^ Z.pos p * 2 ^ Z.pos p) Hr Hs)
      as (Hr1 & Hs1 & Hm1); [nia | |].
    + rewrite Hm. replace (Z.pos p~1) with (1 + Z.pos p + Z.pos p) by lia.
      rewrite !pow2_split by lia. change (2 ^ 1) with 2. lia.
    + destruct (IH (shr_1 mrs) (c * 2 ^ Z.pos p) Hr1 Hs1) as (Hr2 & Hs2 & Hm2);
        [nia | lia |].
      apply IH; assumption.
  - assert (0 < 2 ^ Z.pos p) as Hp by (apply pow2_pos; lia).
    destruct (IH mrs (c * 2 ^ Z.pos p) Hr Hs) as (Hr2 & Hs2 & Hm2); [nia | |].
    + rewrite Hm. replace (Z.pos p~0) with (Z.pos p + Z.pos p) by lia.
      rewrite pow2_split by lia. lia.
    + apply IH; assumption.
  - apply shr_1_clean; try assumption. rewrite Hm. change (2 ^ 1) with 2. lia.
Qed.

Lemma round_nearest_even_cases (m : Z) (l : location) :
  round_nearest_even m l = m
  \/ (l <> loc_Exact /\ round_nearest_even m l = m + 1).
Proof.
  unfold round_nearest_even.
  destruct l as [|[]]; try destruct (Z.even m); auto; right; split;
    try discriminate; reflexivity.
Qed.

(** Rounding a mantissa of 53 bits or more, above the subnormal range:
    the bits beyond the 53rd are shifted out, the exponent grows by
    their number [k], and the mantissa kept is the quotient [q] by
    [2^k], or [q + 1] when the value is not exactly [q * 2^k]. *)
Lemma round_aux_spec (mx ex : Z) (lx : location) :
  2 ^ 52 <= mx -> -1074 <= ex -> ex + (Zdigits2 mx - 53) + 1 <= 971 ->
  exists m e,
    binary_round_aux prec emax false mx ex lx = S754_finite false m e
    /\ 2 ^ 52 <= Z.pos m < 2 ^ 53
    /\ 0 <= Zdigits2 mx - 53
    /\ 2 ^ 52 <= mx / 2 ^ (Zdigits2 mx - 53) < 2 ^ 53
    /\ ((e = ex + (Zdigits2 mx - 53)
         /\ Z.pos m = mx / 2 ^ (Zdigits2 mx - 53))
        \/ (~ (lx = loc_Exact /\ mx mod 2 ^ (Zdigits2 mx - 53) = 0)
            /\ ((e = ex + (Zdigits2 mx - 53)
                 /\ Z.pos m = mx / 2 ^ (Zdigits2 mx - 53) + 1)
                \/ (e = ex + (Zdigits2 mx - 53) + 1 /\ Z.pos m = 2 ^ 52
                    /\ mx / 2 ^ (Zdigits2 mx - 53) + 1 = 2 ^ 53)))).
Proof.
  intros Hmx Hex Hmax.
  assert (0 < mx) as Hpos by (change (2 ^ 52) with 4503599627370496 in Hmx; lia).
  destruct (Zdigits2_bounds mx Hpos) as (Hd & Hlo & Hhi).
  set (d := Zdigits2 mx) in *.
  assert (53 <= d) as Hd53.
  { destruct (Z_lt_le_dec d 53) as [Hlt|]; [| assumption].
    assert (2 ^ d <= 2 ^ 52) by (apply Z.pow_le_mono_r; lia). lia. }
  set (k := d - 53) in *.
  assert (0 < 2 ^ k) as Hk by (apply pow2_pos; lia).
  set (q := mx / 2 ^ k).
  assert (2 ^ 52 <= q < 2 ^ 53) as Hq.
  { subst q. split.
    - apply Z.div_le_lower_bound; [lia |].
      rewrite <- pow2_split by lia. replace (k + 52) with (d - 1) by lia. lia.
    - apply Z.div_lt_upper_bound; [lia |].
      rewrite <- pow2_split by lia. replace (k + 53) with d by lia. lia. }
  pose proof (Z.div_mod mx (2 ^ k) ltac:(lia)) as Hdm.
  pose proof (Z.mod_pos_bound mx (2 ^ k) Hk) as Hmod.
  fold q in Hdm.
  (* the first shift *)
  unfold binary_round_aux.
  assert (exists mrs',
            shr_fexp prec emax mx ex lx = (mrs', ex + k)
            /\ shr_m mrs' = q
            /\ (lx = loc_Exact -> mx mod 2 ^ k = 0 ->
                loc_of_shr_record mrs' = loc_Exact)) as (mrs' & -> & Hm' & Hex').
  { unfold shr_fexp, shr, fexp, emin, prec, emax. fold d.
    replace (Z.max (d + ex - 53) (3 - 1024 - 53) - ex) with k by lia.
    destruct k as [|p|p] eqn:Hkp; [| | lia].
    - eexists. split; [f_equal; lia |]. split.
      + rewrite shr_record_of_loc_m. subst q. change (2 ^ 0) with 1.
        by rewrite Z.div_1_r.
      + intros -> _. reflexivity.
    - eexists. split; [reflexivity |]. split.
      + rewrite iter_shr_m by (rewrite shr_record_of_loc_m; lia).
        by rewrite shr_record_of_loc_m.
      + intros -> Hz.
        destruct (iter_shr_clean p (shr_record_of_loc mx loc_Exact) q)
          as (Hr & Hs & _); [reflexivity | reflexivity | | |].
        * change (2 ^ 52) with 4503599627370496 in Hq. lia.
        * cbn [shr_record_of_loc shr_m]. lia.
        * destruct (SpecFloat.iter_pos _ _ _) as [m0 r0 s0].
          cbn [shr_r shr_s] in Hr, Hs. subst r0 s0. reflexivity. }
  set (m2 := round_nearest_even (shr_m mrs') (loc_of_shr_record mrs')).
  assert (m2 = q
          \/ (~ (lx = loc_Exact /\ mx mod 2 ^ k = 0) /\ m2 = q + 1)) as Hm2.
  { subst m2. rewrite Hm'.
    destruct (round_nearest_even_cases q (loc_of_shr_record mrs'))
      as [H|[Hne H]]; [by left | right].
    split; [| exact H]. intros [Hl Hz]. by apply Hne, Hex'. }
  clearbody m2.
  assert (-1074 <= ex + k) as HE by lia.
  (* the second shift: only when the mantissa reached 2^53 *)
  destruct (Z.eq_dec m2 (2 ^ 53)) as [Hcarry|Hnc].
  - assert (q + 1 = 2 ^ 53) as Hq1.
    { destruct Hm2 as [Hx|[_ Hx]]; rewrite Hx in Hcarry; lia. }
    assert (~ (lx = loc_Exact /\ mx mod 2 ^ k = 0)) as Hinex.
    { destruct Hm2 as [Hx|[H _]]; [rewrite Hx in Hcarry; lia | exact H]. }
    subst m2. change (2 ^ 53) with 9007199254740992 at 1.
    unfold shr_fexp, shr, fexp, emin, prec, emax.
    change (Zdigits2 9007199254740992) with 54.
    replace (Z.max (54 + (ex + k) - 53) (3 - 1024 - 53) - (ex + k)) with 1
      by lia.
    cbn [shr_record_of_loc SpecFloat.iter_pos shr_1 shr_m].
    replace (ex + k + 1 <=? 1024 - 53) with true
      by (symmetry; apply Z.leb_le; lia).
    eexists _, _. split; [reflexivity |].
    split; [split; [reflexivity | reflexivity] |].
    split; [lia |]. split; [exact Hq |].
    right. split; [exact Hinex |]. right. repeat split; lia.
  - assert (2 ^ 52 <= m2 < 2 ^ 53) as Hr2 by (destruct Hm2 as [->|[_ ->]]; lia).
    assert (Zdigits2 m2 = 53) as Hd2 by (apply Zdigits2_unique; [lia | exact Hr2]).
    unfold shr_fexp, shr, fexp, emin, prec, emax. rewrite Hd2.
    replace (Z.max (53 + (ex + k) - 53) (3 - 1024 - 53) - (ex + k)) with 0
      by lia.
    rewrite shr_record_of_loc_m.
    destruct m2 as [|m|m];
      [change (2 ^ 52) with 4503599627370496 in Hr2; lia | |
       change (2 ^ 52) with 4503599627370496 in Hr2; lia].
    replace (ex + k <=? 1024 - 53) with true
      by (symmetry; apply Z.leb_le; lia).
    exists m, (ex + k). split; [reflexivity |]. split; [exact Hr2 |].
    split; [lia |]. split; [exact Hq |].
    destruct Hm2 as [Hm2|[Hinex Hm2]]; [left; by split |].
    right. split; [exact Hinex |]. left. by split.
Qed.

End RoundAux.

Section Faithful.

Lemma faithful_intro (num den q E : Z) (x : float) :
  0 < den -> 2 ^ 52 <= q -> -1074 <= E -> normal x ->
  dyadic q E * den <= num < dyadic (q + 1) E * den ->
  (value x = dyadic q E
   \/ (value x = dyadic (q + 1) E /\ dyadic q E * den < num)) ->
  faithful num den x.
Proof.
  intros Hden Hq HE Hn [Hlo Hhi] Hx. split; [exact Hn |].
  intros v Hv. destruct (gap q E v Hq HE Hv) as [Hbelow Habove].
  assert (dyadic q E < dyadic (q + 1) E) as Hstep by (apply dyadic_lt; lia).
  split.
  - intros Hle. assert (v < dyadic (q + 1) E) as Hlt by nia.
    specialize (Hbelow Hlt). destruct Hx as [->|[-> _]]; lia.
  - intros Hge. destruct Hx as [->|[-> Hstrict]]; [nia |].
    apply Habove. nia.
Qed.

(** A representable number is rounded to itself. *)
Lemma faithful_exact (num : Z) (x : float) :
  faithful num 1 x -> representable num -> value x = num.
Proof.
  intros [_ H] Hr. destruct (H num Hr) as [Hlo Hhi].
  specialize (Hlo ltac:(lia)). specialize (Hhi ltac:(lia)). lia.
Qed.

Lemma faithful_zero : faithful 0 1 (S754_zero false).
Proof.
  split; [exact I |]. intros v (n & e & Hn & He & ->). cbn [value].
  assert (0 <= dyadic n e).
  { unfold dyadic. pose proof (pow2_pos (e + 1074) ltac:(lia)). nia. }
  lia.
Qed.

Lemma round_aux_faithful (mx ex : Z) (lx : location) (num den : Z) :
  2 ^ 52 <= mx -> -1074 <= ex -> ex + (Zdigits2 mx - 53) + 1 <= 971 ->
  0 < den ->
  dyadic mx ex * den <= num < dyadic (mx + 1) ex * den ->
  (lx <> loc_Exact -> dyadic mx ex * den < num) ->
  exists m e,
    binary_round_aux prec emax false mx ex lx = S754_finite false m e
    /\ faithful num den (S754_finite false m e).
Proof.
  intros Hmx Hex Hmax Hden [Hlo Hhi] Hinex.
  destruct (round_aux_spec mx ex lx Hmx Hex Hmax)
    as (m & e & Hr & Hm & Hk & Hq & Hcases).
  set (k := Zdigits2 mx - 53) in *. set (q := mx / 2 ^ k) in *.
  exists m, e. split; [exact Hr |].
  assert (0 < 2 ^ k) as Hpk by (apply pow2_pos; lia).
  pose proof (Z.div_mod mx (2 ^ k) ltac:(lia)) as Hdm. fold q in Hdm.
  pose proof (Z.mod_pos_bound mx (2 ^ k) Hpk) as Hmod.
  assert (forall n, dyadic n (ex + k) = dyadic (n * 2 ^ k) ex) as Hsh
      by (intros n; apply dyadic_shift; lia).
  assert (0 < 2 ^ (ex + 1074)) as Hpe by (apply pow2_pos; lia).
  assert (dyadic q (ex + k) <= dyadic mx ex) as H1.
  { rewrite Hsh. apply dyadic_le; [lia | nia]. }
  assert (dyadic (mx + 1) ex <= dyadic (q + 1) (ex + k)) as H2.
  { rewrite Hsh. apply dyadic_le; [lia | nia]. }
  assert (~ (lx = loc_Exact /\ mx mod 2 ^ k = 0) ->
          dyadic q (ex + k) * den < num) as Hstrict.
  { intros Hne. assert (lx = loc_Exact \/ lx <> loc_Exact) as [Hl|Hl]
        by (destruct lx; [by left | by right]).
    - assert (mx mod 2 ^ k <> 0) as Hnz by tauto.
      assert (dyadic q (ex + k) < dyadic mx ex)
        by (rewrite Hsh; apply dyadic_lt; [lia | nia]).
      nia.
    - specialize (Hinex Hl). nia. }
  apply (faithful_intro num den q (ex + k)); try lia.
  - cbn [normal]. split; [exact Hm |].
    destruct Hcases as [[-> _]|[_ [[-> _]|(-> & _)]]]; lia.
  - split; nia.
  - cbn [value].
    destruct Hcases as [[-> ->]|[Hne [[-> ->]|(-> & -> & Hc)]]].
    + by left.
    + right. split; [reflexivity | by apply Hstrict].
    + right. split; [| by apply Hstrict].
      rewrite Hc. replace (ex + k + 1) with ((ex + k) + 1) by lia.
      rewrite dyadic_shift by lia. reflexivity.
Qed.

Lemma pos_iter_xO (p c : positive) :
  Z.pos (Pos.iter xO p c) = Z.pos p * 2 ^ Z.pos c.
Proof.
  induction c as [|c IH] using Pos.peano_ind.
  - cbn. lia.
  - rewrite Pos.iter_succ, Pos2Z.inj_xO, IH, Pos2Z.inj_succ.
    rewrite Z.pow_succ_r by lia. lia.
Qed.

(** [binary_round] of a positive integer mantissa, above the subnormal
    range: the double returned is a faithful rounding of [p * 2^ex],
    normal whatever the size of [p]. *)
Lemma binary_round_faithful (p : positive) (ex : Z) :
  -1022 <= ex -> ex + Zdigits2 (Z.pos p) <= 1000 ->
  exists m e,
    binary_round prec emax false p ex = S754_finite false m e
    /\ faithful (dyadic (Z.pos p) ex) 1 (S754_finite false m e).
Proof.
  intros Hex Hmax.
  destruct (Zdigits2_bounds (Z.pos p) ltac:(lia)) as (Hd & Hlo & Hhi).
  cbn [Zdigits2] in *. set (d := Z.pos (digits2_pos p)) in *.
  unfold binary_round, shl_align, fexp, emin, prec, emax. fold d.
  replace (Z.max (d + ex - 53) (3 - 1024 - 53) - ex) with (d - 53) by lia.
  assert (53 <= d -> 2 ^ 52 <= Z.pos p) as Hbig.
  { intros H. assert (2 ^ 52 <= 2 ^ (d - 1)) by (apply Z.pow_le_mono_r; lia).
    lia. }
  assert (0 < 2 ^ (ex + 1074)) as Hpe by (apply pow2_pos; lia).
  destruct (d - 53) as [|c|c] eqn:Hc.
  - apply round_aux_faithful; try lia; [cbn [Zdigits2]; fold d; lia | |].
    + unfold dyadic. nia.
    + intros H. by destruct H.
  - apply round_aux_faithful; try lia; [cbn [Zdigits2]; fold d; lia | |].
    + unfold dyadic. nia.
    + intros H. by destruct H.
  - assert (Z.pos c = 53 - d) as Hcd by lia.
    assert (0 < 2 ^ Z.pos c) as Hpc by (apply pow2_pos; lia).
    assert (dyadic (Z.pos p) ex
            = dyadic (Z.pos (Pos.iter xO p c))
                     (Z.max (d + ex - 53) (3 - 1024 - 53))) as ->.
    { rewrite pos_iter_xO. replace (Z.max (d + ex - 53) (3 - 1024 - 53))
        with (d + ex - 53) by lia.
      rewrite <- dyadic_shift by lia. f_equal. lia. }
    assert (Zdigits2 (Z.pos (Pos.iter xO p c)) = 53) as Hd53.
    { cbn [Zdigits2]. rewrite digits2_pos_iter_xO. fold d. lia. }
    apply round_aux_faithful; try lia.
    + destruct (Zdigits2_bounds (Z.pos (Pos.iter xO p c)) ltac:(lia))
        as (_ & H & _). by rewrite Hd53 in H.
    + set (ez := Z.max _ _). assert (-1074 <= ez) by (subst ez; lia).
      assert (0 < 2 ^ (ez + 1074)) by (apply pow2_pos; lia).
      unfold dyadic. nia.
    + intros H. by destruct H.
Qed.

End Faithful.

Section Operations.

Lemma representable_small (n : Z) (e : Z) :
  0 <= n < 2 ^ 53 -> -1074 <= e -> representable (dyadic n e).
Proof. intros Hn He. by exists n, e. Qed.

(** [float(n)] of a positive integer below [2^53] is exact. *)
Lemma float_of_int_exact (n : Z) :
  0 < n < 2 ^ 53 ->
  exists m e,
    float_of_int n = Ok (S754_finite false m e)
    /\ normal (S754_finite false m e)
    /\ dyadic (Z.pos m) e = dyadic n 0.
Proof.
  intros [Hn Hlt]. destruct n as [|p|p]; try lia. clear Hn.
  pose proof (Zdigits2_le (Z.pos p) 53 ltac:(lia) Hlt ltac:(lia)) as Hd.
  destruct (binary_round_faithful p 0 ltac:(lia) ltac:(lia))
    as (m & e & Hr & Hf).
  exists m, e. unfold float_of_int. cbn [binary_normalize]. rewrite Hr.
  split; [reflexivity |]. split; [apply Hf |].
  apply (faithful_exact _ _ Hf). apply representable_small; lia.
Qed.

(** Multiplying a normal double by [1.0] leaves it as it is. *)
Lemma fmul_one (m : positive) (e : Z) :
  2 ^ 52 <= Z.pos m < 2 ^ 53 -> -1022 <= e <= 900 ->
  fmul (S754_finite false m e) (S754_finite false 4503599627370496 (-52))
  = S754_finite false m e.
Proof.
  intros Hm He. cbn [fmul SFmul xorb].
  assert (Z.pos (m * 4503599627370496) = Z.pos m * 2 ^ 52) as Hprod
      by (rewrite Pos2Z.inj_mul; reflexivity).
  assert (Zdigits2 (Z.pos (m * 4503599627370496)) = 105) as Hd.
  { apply Zdigits2_unique; [lia |]. rewrite Hprod.
    change (2 ^ (105 - 1)) with (2 ^ 52 * 2 ^ 52).
    change (2 ^ 105) with (2 ^ 53 * 2 ^ 52).
    change (2 ^ 52) with 4503599627370496 in *.
    change (2 ^ 53) with 9007199254740992 in *. lia. }
  destruct (round_aux_spec (Z.pos (m * 4503599627370496)) (e + -52) loc_Exact)
    as (m' & e' & Hr & _ & _ & _ & Hcases).
  - rewrite Hprod. change (2 ^ 52) with 4503599627370496 in *. lia.
  - lia.
  - rewrite Hd. lia.
  - rewrite Hr. rewrite Hd, Hprod in Hcases.
    change (105 - 53) with 52 in Hcases.
    rewrite Z.div_mul in Hcases by (change (2 ^ 52) with 4503599627370496; lia).
    rewrite Z.mod_mul in Hcases by (change (2 ^ 52) with 4503599627370496; lia).
    destruct Hcases as [[-> Hm']|[Hne _]]; [| tauto].
    replace (e + -52 + 52) with e by lia.
    f_equal. lia.
Qed.

Lemma new_location_exact (n : Z) : new_location n 0 = loc_Exact.
Proof.
  unfold new_location, new_location_even, new_location_odd.
  by destruct (Z.even n).
Qed.

(** The quotient of two normal doubles is a faithful rounding of the exact
    quotient of their values. *)
Lemma fdiv_faithful (mb mt : positive) (eb et : Z) :
  2 ^ 52 <= Z.pos mb < 2 ^ 53 -> 2 ^ 52 <= Z.pos mt < 2 ^ 53 ->
  -400 <= eb <= 400 -> -400 <= et <= 400 ->
  exists m e,
    SFdiv prec emax (S754_finite false mb eb) (S754_finite false mt et)
    = S754_finite false m e
    /\ faithful (dyadic (Z.pos mb) eb * 2 ^ 1074) (dyadic (Z.pos mt) et)
                (S754_finite false m e).
Proof.
  intros Hmb Hmt Heb Het.
  assert (Zdigits2 (Z.pos mb) = 53) as Hdb by (apply Zdigits2_unique; lia).
  assert (Zdigits2 (Z.pos mt) = 53) as Hdt by (apply Zdigits2_unique; lia).
  cbn [SFdiv xorb]. unfold SFdiv_core_binary. rewrite Hdb, Hdt.
  unfold fexp, emin, prec, emax.
  replace (Z.min (Z.max (53 + eb - (53 + et) - 53) (3 - 1024 - 53)) (eb - et))
    with (eb - et - 53) by lia.
  replace (eb - et - (eb - et - 53)) with 53 by lia.
  rewrite Z.shiftl_mul_pow2 by lia.
  set (m' := Z.pos mb * 2 ^ 53).
  assert (Z.div_eucl m' (Z.pos mt) = (m' / Z.pos mt, m' mod Z.pos mt)) as ->
      by (unfold Z.div, Z.modulo; by destruct (Z.div_eucl _ _)).
  pose proof (Z.div_mod m' (Z.pos mt) ltac:(lia)) as Hdm.
  pose proof (Z.mod_pos_bound m' (Z.pos mt) ltac:(lia)) as Hmod.
  set (q0 := m' / Z.pos mt) in *. set (r := m' mod Z.pos mt) in *.
  assert (2 ^ 52 <= q0 < 2 ^ 54) as Hq0.
  { subst q0 m'. change (2 ^ 52) with 4503599627370496 in *.
    change (2 ^ 53) with 9007199254740992 in *.
    change (2 ^ 54) with 18014398509481984.
    split.
    - apply Z.div_le_lower_bound; lia.
    - apply Z.div_lt_upper_bound; lia. }
  assert (Zdigits2 q0 <= 54) as Hdq
      by (apply Zdigits2_le; [change (2 ^ 52) with 4503599627370496 in *; lia
                             | lia | lia]).
  assert (0 < Zdigits2 q0) as Hdq'.
  { apply Zdigits2_bounds. change (2 ^ 52) with 4503599627370496 in *. lia. }
  set (P := 2 ^ (eb - 53 + 2148)).
  assert (0 < P) as HP by (apply pow2_pos; lia).
  assert (forall n, dyadic n (eb - et - 53) * dyadic (Z.pos mt) et
                    = n * Z.pos mt * P) as Hprod.
  { intros n. unfold dyadic, P.
    replace (eb - 53 + 2148) with ((eb - et - 53 + 1074) + (et + 1074)) by lia.
    rewrite (pow2_split (eb - et - 53 + 1074) (et + 1074)) by lia. ring. }
  assert (dyadic (Z.pos mb) eb * 2 ^ 1074 = m' * P) as Hnum.
  { unfold dyadic, P, m'.
    replace (eb + 1074) with (53 + (eb - 53 + 1074)) by lia.
    replace (eb - 53 + 2148) with ((eb - 53 + 1074) + 1074) by lia.
    rewrite (pow2_split 53 (eb - 53 + 1074)) by lia.
    rewrite (pow2_split (eb - 53 + 1074) 1074) by lia. ring. }
  apply round_aux_faithful; try lia.
  - apply dyadic_pos; lia.
  - rewrite !Hprod, Hnum. split; nia.
  - intros Hl. rewrite Hprod, Hnum.
    assert (r <> 0) as Hr by (intros ->; by rewrite new_location_exact in Hl).
    nia.
Qed.

Lemma fabs_round_aux (s : bool) (m e : Z) (l : location) :
  fabs (binary_round_aux prec emax s m e l) = binary_round_aux prec emax false m e l.
Proof.
  unfold binary_round_aux.
  destruct (shr_fexp prec emax m e l) as [mrs' e'].
  destruct (shr_fexp prec emax _ e' loc_Exact) as [mrs'' e''].
  destruct (shr_m mrs''); [reflexivity | | reflexivity].
  by destruct (e'' <=? emax - prec).
Qed.

Lemma fabs_round (s : bool) (p : positive) (e : Z) :
  fabs (binary_round prec emax s p e) = binary_round prec emax false p e.
Proof.
  unfold binary_round. destruct (shl_align p e _) as [mz ez].
  apply fabs_round_aux.
Qed.

Lemma shl_align_fst (m : positive) (e ez : Z) :
  ez <= e -> Z.pos (shl_align m e ez).1 = Z.pos m * 2 ^ (e - ez).
Proof.
  intros Hle. unfold shl_align.
  destruct (ez - e) as [|c|c] eqn:Hc; cbn [fst].
  - replace (e - ez) with 0 by lia. cbn. lia.
  - lia.
  - rewrite pos_iter_xO. f_equal. f_equal. lia.
Qed.

(** [abs(x - y)] on two normal doubles is a faithful rounding of the
    exact distance of their values. *)
Lemma fabs_fsub_faithful (mx my : positive) (ex ey : Z) :
  2 ^ 52 <= Z.pos mx < 2 ^ 53 -> 2 ^ 52 <= Z.pos my < 2 ^ 53 ->
  -200 <= ex <= 200 -> -200 <= ey <= 200 ->
  faithful (Z.abs (dyadic (Z.pos mx) ex - dyadic (Z.pos my) ey)) 1
           (fabs (fsub (S754_finite false mx ex) (S754_finite false my ey))).
Proof.
  intros Hmx Hmy Hex Hey. cbn [fsub SFsub cond_Zopp].
  set (ez := Z.min ex ey).
  rewrite !shl_align_fst by (subst ez; lia).
  set (N := Z.pos mx * 2 ^ (ex - ez) - Z.pos my * 2 ^ (ey - ez)).
  assert (dyadic (Z.pos mx) ex - dyadic (Z.pos my) ey = dyadic N ez) as ->.
  { replace ex with (ez + (ex - ez)) at 1 by lia.
    replace ey with (ez + (ey - ez)) at 1 by lia.
    rewrite !dyadic_shift by (subst ez; lia). unfold dyadic, N. lia. }
  assert (0 < 2 ^ (ex - ez)) as Hpx by (apply pow2_pos; subst ez; lia).
  assert (0 < 2 ^ (ey - ez)) as Hpy by (apply pow2_pos; subst ez; lia).
  assert (2 ^ (ex - ez) <= 2 ^ 400) as Hbx
      by (apply Z.pow_le_mono_r; subst ez; lia).
  assert (2 ^ (ey - ez) <= 2 ^ 400) as Hby
      by (apply Z.pow_le_mono_r; subst ez; lia).
  assert (Z.abs N < 2 ^ 453) as HN.
  { change (2 ^ 453) with (2 ^ 53 * 2 ^ 400). subst N.
    change (2 ^ 52) with 4503599627370496 in *.
    change (2 ^ 53) with 9007199254740992 in *. nia. }
  assert (0 < 2 ^ (ez + 1074)) as Hpe by (apply pow2_pos; subst ez; lia).
  destruct N as [|p|p] eqn:HNp; cbn [binary_normalize].
  - unfold dyadic. cbn. apply faithful_zero.
  - rewrite fabs_round.
    destruct (binary_round_faithful p ez) as (m & e & -> & Hf).
    + subst ez; lia.
    + pose proof (Zdigits2_le (Z.pos p) 453 ltac:(lia) ltac:(lia) ltac:(lia)).
      cbn [Zdigits2] in *. subst ez; lia.
    + replace (Z.abs (dyadic (Z.pos p) ez)) with (dyadic (Z.pos p) ez)
        by (unfold dyadic; nia).
      exact Hf.
  - rewrite fabs_round.
    destruct (binary_round_faithful p ez) as (m & e & -> & Hf).
    + subst ez; lia.
    + pose proof (Zdigits2_le (Z.pos p) 453 ltac:(lia) ltac:(lia) ltac:(lia)).
      cbn [Zdigits2] in *. subst ez; lia.
    + replace (Z.abs (dyadic (Z.neg p) ez)) with (dyadic (Z.pos p) ez)
        by (unfold dyadic; nia).
      exact Hf.
Qed.

Lemma normal_is_abs (x : float) : normal x -> is_abs x.
Proof. destruct x as [[]|[]| |[] m e]; cbn; tauto. Qed.

Lemma rank_value (x y : float) :
  normal x -> normal y ->
  (lex_lt (rank x) (rank y) <-> value x < value y).
Proof.
  destruct x as [[]|[]| |[] mx ex], y as [[]|[]| |[] my ey];
    cbn [normal]; try tauto.
  - intros _ _. cbn. lia.
  - intros _ [Hm He]. cbn [rank lex_lt value].
    pose proof (dyadic_pos (Z.pos my) ey ltac:(lia) He). lia.
  - intros [Hm He] _. cbn [rank lex_lt value].
    pose proof (dyadic_pos (Z.pos mx) ex ltac:(lia) He). lia.
  - intros [Hmx Hex] [Hmy Hey]. cbn [rank lex_lt value].
    change (2 ^ 52) with 4503599627370496 in *.
    change (2 ^ 53) with 9007199254740992 in *.
    destruct (Z.lt_trichotomy ex ey) as [Hlt|[->|Hgt]].
    + replace ey with (ex + (ey - ex)) by lia.
      rewrite dyadic_shift, dyadic_lt by lia.
      assert (2 ^ 1 <= 2 ^ (ey - ex)) by (apply Z.pow_le_mono_r; lia).
      change (2 ^ 1) with 2 in *. split; [nia | lia].
    + rewrite dyadic_lt by lia. lia.
    + replace ex with (ey + (ex - ey)) at 3 by lia.
      rewrite dyadic_shift, dyadic_lt by lia.
      assert (2 ^ 1 <= 2 ^ (ex - ey)) by (apply Z.pow_le_mono_r; lia).
      change (2 ^ 1) with 2 in *. split; [lia | nia].
Qed.

Lemma flt_value (x y : float) :
  normal x -> normal y -> (flt x y = true <-> value x < value y).
Proof.
  intros Hx Hy. rewrite flt_rank by (by apply normal_is_abs).
  by apply rank_value.
Qed.

Lemma fle_value (x y : float) :
  normal x -> normal y -> (fle x y = true <-> value x <= value y).
Proof.
  intros Hx Hy. pose proof (normal_is_abs x Hx) as Hax.
  pose proof (normal_is_abs y Hy) as Hay.
  split.
  - intros Hle. destruct (Z_le_gt_dec (value x) (value y)) as [|Hgt]; [done |].
    apply Z.gt_lt, flt_value in Hgt; [| assumption ..].
    apply fle_rank in Hle; [| assumption ..].
    apply flt_rank in Hgt; [| assumption ..].
    unfold lex_le, lex_lt in *.
    destruct (rank x) as [[a1 a2] a3], (rank y) as [[b1 b2] b3].
    destruct Hle as [Hle|Heq]; [lia | injection Heq as -> -> ->; lia].
  - intros Hle. apply flt_false_fle; [assumption .. |].
    destruct (flt y x) eqn:Hlt; [| reflexivity].
    apply flt_value in Hlt; [lia | assumption ..].
Qed.

End Operations.

Section Table.
Import WindowsMouseService.

Ltac each_index k H :=
  assert (k = 1 \/ k = 2 \/ k = 3 \/ k = 4 \/ k = 5 \/ k = 6 \/ k = 7
          \/ k = 8 \/ k = 9 \/ k = 10 \/ k = 11 \/ k = 12 \/ k = 13
          \/ k = 14 \/ k = 15 \/ k = 16 \/ k = 17 \/ k = 18 \/ k = 19
          \/ k = 20) as H by lia;
  repeat (destruct H as [H|H]; [subst k |]); [.. | subst k].

Lemma multiplier_range (k : Z) :
  1 <= k <= 20 -> 1 <= multiplier_of k <= 112.
Proof. intros Hk. each_index k H; vm_compute; split; discriminate. Qed.

Lemma multiplier_step (k : Z) :
  2 <= k <= 20 ->
  multiplier_of (k - 1) < multiplier_of k <= 2 * multiplier_of (k - 1).
Proof. intros Hk. each_index k H; try lia; vm_compute; split; congruence. Qed.

Lemma multiplier_mono (j k : Z) :
  1 <= j -> j < k -> k <= 20 -> multiplier_of j < multiplier_of k.
Proof.
  intros Hj Hjk Hk.
  assert (forall n : nat, 1 <= j + Z.of_nat (S n) <= 20 ->
            multiplier_of j < multiplier_of (j + Z.of_nat (S n))) as Hind.
  { induction n as [|n IH]; intros Hr.
    - pose proof (multiplier_step (j + 1) ltac:(lia)) as Hs.
      replace (j + 1 - 1) with j in Hs by lia.
      replace (j + Z.of_nat 1) with (j + 1) by lia. lia.
    - pose proof (multiplier_step (j + Z.of_nat (S (S n))) ltac:(lia)) as Hs.
      replace (j + Z.of_nat (S (S n)) - 1) with (j + Z.of_nat (S n)) in Hs
        by lia.
      specialize (IH ltac:(lia)). lia. }
  specialize (Hind (Z.to_nat (k - j - 1))).
  replace (j + Z.of_nat (S (Z.to_nat (k - j - 1)))) with k in Hind by lia.
  apply Hind. lia.
Qed.

Lemma multiplier_first : multiplier_of 1 = 1.
Proof. reflexivity. Qed.

(** Every entry of [_MAP] is a normal double whose value is the
    multiplier in thirty-seconds, exactly. *)
Lemma MAP_entry (k : Z) :
  1 <= k <= 20 ->
  exists m e,
    dict_get _MAP k (S754_zero false) = S754_finite false m e
    /\ 2 ^ 52 <= Z.pos m < 2 ^ 53 /\ -57 <= e <= -51
    /\ dyadic (Z.pos m) e = multiplier_of k * 2 ^ 1069.
Proof.
  intros Hk.
  each_index k H;
    (eexists _, _; split; [vm_compute; reflexivity |];
     split; [split; [intros Hc; vm_compute in Hc; discriminate | reflexivity] |];
     split; [lia |]; vm_compute; reflexivity).
Qed.

End Table.

Section Request.
Import WindowsMouseService.

Lemma faithful_scale (num den c : Z) (x : float) :
  0 < c -> faithful (num * c) (den * c) x -> faithful num den x.
Proof.
  intros Hc [Hn H]. split; [exact Hn |].
  intros v Hv. destruct (H v Hv) as [Hlo Hhi].
  split; intros Hle; [apply Hlo | apply Hhi]; nia.
Qed.

Lemma normal_exponent (m e n : Z) :
  2 ^ 52 <= m < 2 ^ 53 -> -1074 <= e -> 0 < n < 2 ^ 53 ->
  dyadic m e = dyadic n 0 -> -52 <= e <= 0.
Proof.
  intros Hm He Hn Heq. unfold dyadic in Heq.
  change (0 + 1074) with 1074 in Heq.
  change (2 ^ 52) with 4503599627370496 in *.
  change (2 ^ 53) with 9007199254740992 in *.
  split.
  - destruct (Z_lt_le_dec e (-52)) as [Hlt|]; [| assumption].
    assert (2 ^ (e + 1074) * 2 ^ 53 <= 2 ^ 1074).
    { rewrite <- pow2_split by lia. apply Z.pow_le_mono_r; lia. }
    change (2 ^ 53) with 9007199254740992 in *.
    pose proof (pow2_pos (e + 1074) ltac:(lia)). nia.
  - destruct (Z_lt_le_dec 0 e) as [Hlt|]; [| assumption].
    assert (2 ^ 1074 * 2 ^ 1 <= 2 ^ (e + 1074)).
    { rewrite <- pow2_split by lia. apply Z.pow_le_mono_r; lia. }
    change (2 ^ 1) with 2 in *.
    pose proof (pow2_pos 1074 ltac:(lia)). nia.
Qed.

(** For positive integers below [2^53] the request is a normal double, a
    faithful rounding of the exact quotient [base / target]. *)
Lemma requested_faithful (base target : Z) :
  0 < base < 2 ^ 53 -> 0 < target < 2 ^ 53 ->
  exists mr er,
    requested base target = Ok (S754_finite false mr er)
    /\ faithful (base * 2 ^ 1074) target (S754_finite false mr er).
Proof.
  intros Hb Ht.
  destruct (float_of_int_exact base Hb) as (mb & eb & Hfb & [Hmb Heb] & Hvb).
  destruct (float_of_int_exact target Ht) as (mt & et & Hft & [Hmt Het] & Hvt).
  pose proof (normal_exponent _ _ _ Hmb Heb Hb Hvb) as Heb'.
  pose proof (normal_exponent _ _ _ Hmt Het Ht Hvt) as Het'.
  unfold requested, int_mul_float, float_div_int.
  rewrite Hfb, Hft. cbn [mbind result_bind mret result_ret ftruediv].
  change (dict_get _MAP 10 (lit 10 1))
    with (S754_finite false 4503599627370496 (-52)).
  rewrite fmul_one by lia.
  destruct (fdiv_faithful mb mt eb et Hmb Hmt ltac:(lia) ltac:(lia))
    as (mr & er & -> & Hf).
  exists mr, er. split; [reflexivity |].
  rewrite Hvb, Hvt in Hf. unfold dyadic in Hf.
  change (0 + 1074) with 1074 in Hf.
  apply (faithful_scale _ _ (2 ^ 1074)); [apply pow2_pos; lia | exact Hf].
Qed.

(** The request lies on the same side of every multiple of 1/64 up to
    3.5 as the exact quotient, and coincides with it when the quotient is
    such a multiple. In units of [2^-1074]: [2^1068] is 1/64, [2^1023] is
    [2^-51]. *)
Lemma request_sides (base target n : Z) (req : float) :
  0 < base -> 0 < target <= 2 ^ 45 -> 1 <= n <= 224 ->
  faithful (base * 2 ^ 1074) target req ->
  (64 * base < n * target -> value req <= n * 2 ^ 1068 - 2 ^ 1023)
  /\ (64 * base = n * target -> value req = n * 2 ^ 1068)
  /\ (n * target < 64 * base -> n * 2 ^ 1068 + 2 ^ 1023 <= value req).
Proof.
  intros Hb Ht Hn [_ Hf].
  change (2 ^ 45) with 35184372088832 in Ht.
  assert (2 ^ 1068 = 35184372088832 * 2 ^ 1023) as HS by reflexivity.
  assert (2 ^ 1074 = 64 * 2 ^ 1068) as HT by reflexivity.
  assert (0 < 2 ^ 1023) as HU by (apply pow2_pos; lia).
  rewrite HT, HS in Hf. rewrite HS. clear HS HT.
  remember (2 ^ 1023) as U eqn:HUdef.
  assert (representable (n * (35184372088832 * U) - U)) as Hlow.
  { exists (n * 2 ^ 45 - 1), (-51). split; [| split; [lia |]].
    - change (2 ^ 45) with 35184372088832.
      change (2 ^ 53) with 9007199254740992. lia.
    - unfold dyadic. change (-51 + 1074) with 1023.
      change (2 ^ 45) with 35184372088832. rewrite <- HUdef. ring. }
  assert (representable (n * (35184372088832 * U))) as Hmid.
  { exists (n * 2 ^ 45), (-51). split; [| split; [lia |]].
    - change (2 ^ 45) with 35184372088832.
      change (2 ^ 53) with 9007199254740992. lia.
    - unfold dyadic. change (-51 + 1074) with 1023.
      change (2 ^ 45) with 35184372088832. rewrite <- HUdef. ring. }
  assert (representable (n * (35184372088832 * U) + U)) as Hhigh.
  { exists (n * 2 ^ 45 + 1), (-51). split; [| split; [lia |]].
    - change (2 ^ 45) with 35184372088832.
      change (2 ^ 53) with 9007199254740992. lia.
    - unfold dyadic. change (-51 + 1074) with 1023.
      change (2 ^ 45) with 35184372088832. rewrite <- HUdef. ring. }
  clear HUdef.
  destruct (Hf _ Hlow) as [_ Hlow_up].
  destruct (Hf _ Hmid) as [Hmid_lo Hmid_up].
  destruct (Hf _ Hhigh) as [Hhigh_lo _].
  split; [| split].
  - intros Hlt. apply Hlow_up. nia.
  - intros Heq. assert (value req <= n * (35184372088832 * U))
      by (apply Hmid_up; nia).
    assert (n * (35184372088832 * U) <= value req) by (apply Hmid_lo; nia).
    lia.
  - intros Hgt. apply Hhigh_lo. nia.
Qed.

End Request.

Section Selection.
Import WindowsMouseService.

(** The first index of smallest value among 1..n+1. *)
Lemma first_argmin (f : Z -> Z) (n : nat) :
  exists k,
    1 <= k <= Z.of_nat (S n)
    /\ (forall j, 1 <= j <= Z.of_nat (S n) -> f k <= f j)
    /\ (forall j, 1 <= j < k -> f k < f j).
Proof.
  induction n as [|n (k & Hk & Hmin & Hfirst)].
  - exists 1. split; [lia |]. split; intros j Hj; [| lia].
    replace j with 1 by lia. lia.
  - destruct (Z_lt_le_dec (f (Z.of_nat (S (S n)))) (f k)) as [Hlt|Hge].
    + exists (Z.of_nat (S (S n))). split; [lia |]. split; intros j Hj.
      * destruct (Z.eq_dec j (Z.of_nat (S (S n)))) as [->|Hne]; [lia |].
        specialize (Hmin j ltac:(lia)). lia.
      * specialize (Hmin j ltac:(lia)). lia.
    + exists k. split; [lia |]. split; intros j Hj.
      * destruct (Z.eq_dec j (Z.of_nat (S (S n)))) as [->|Hne]; [lia |].
        apply Hmin. lia.
      * by apply Hfirst.
Qed.

(** Distances to the exact quotient [b / t] and to a number [X] that
    lies on the same side of every midpoint compare alike. *)
Lemma transfer (b t X S a a' : Z) :
  0 < t -> 0 < S -> 1 <= a <= 112 -> 1 <= a' <= 112 ->
  (forall n, 1 <= n <= 224 ->
     (64 * b < n * t -> X < n * S)
     /\ (64 * b = n * t -> X = n * S)
     /\ (n * t < 64 * b -> n * S < X)) ->
  (Z.abs (a * t - 32 * b) <= Z.abs (a' * t - 32 * b) ->
   Z.abs (2 * a * S - X) <= Z.abs (2 * a' * S - X))
  /\ (Z.abs (a * t - 32 * b) < Z.abs (a' * t - 32 * b) ->
      Z.abs (2 * a * S - X) < Z.abs (2 * a' * S - X)).
Proof.
  intros Ht HS Ha Ha' Hsides.
  destruct (Hsides (a + a') ltac:(lia)) as (Hlt & Heq & Hgt).
  rewrite !Z.mul_add_distr_r in Hlt, Heq, Hgt.
  destruct (Z.lt_trichotomy a a') as [Hc|[->|Hc]]; [| lia |].
  - assert (a * t < a' * t) by (apply Z.mul_lt_mono_pos_r; lia).
    assert (a * S < a' * S) by (apply Z.mul_lt_mono_pos_r; lia).
    replace (2 * a * S) with (2 * (a * S)) by ring.
    replace (2 * a' * S) with (2 * (a' * S)) by ring.
    lia.
  - assert (a' * t < a * t) by (apply Z.mul_lt_mono_pos_r; lia).
    assert (a' * S < a * S) by (apply Z.mul_lt_mono_pos_r; lia).
    replace (2 * a * S) with (2 * (a * S)) by ring.
    replace (2 * a' * S) with (2 * (a' * S)) by ring.
    lia.
Qed.

Lemma exponent_lower (m e L : Z) :
  2 ^ 52 <= m < 2 ^ 53 -> -1074 <= e -> 0 <= L ->
  2 ^ L <= dyadic m e -> L - 1126 <= e.
Proof.
  intros Hm He HL Hle.
  destruct (Z_lt_le_dec e (L - 1126)) as [Hlt|]; [| assumption].
  assert (2 ^ (e + 1074) * 2 ^ 53 <= 2 ^ L).
  { rewrite <- pow2_split by lia. apply Z.pow_le_mono_r; lia. }
  pose proof (pow2_pos (e + 1074) ltac:(lia)). unfold dyadic in Hle.
  change (2 ^ 53) with 9007199254740992 in *. nia.
Qed.

Lemma exponent_upper (m e H : Z) :
  2 ^ 52 <= m < 2 ^ 53 -> -1074 <= e -> 0 <= H ->
  dyadic m e <= 2 ^ H -> e <= H - 1126.
Proof.
  intros Hm He HH Hle.
  destruct (Z_lt_le_dec (H - 1126) e) as [Hlt|]; [| assumption].
  assert (2 ^ H * 2 ^ 1 <= 2 ^ (e + 1074) * 2 ^ 52).
  { rewrite <- !pow2_split by lia. apply Z.pow_le_mono_r; lia. }
  pose proof (pow2_pos H ltac:(lia)). unfold dyadic in Hle.
  change (2 ^ 1) with 2 in *.
  change (2 ^ 52) with 4503599627370496 in *. nia.
Qed.

(** The heart of the matter, on integers. [a] is the table in
    thirty-seconds, [mr * Pr] the request and [a j * Q * Pr] the entries
    in a common unit, [D] the exact distances and [W] their faithful
    roundings; the request is above 1/64. The first index of smallest
    exact distance has the smallest rounded distance, strictly smaller
    than that of every index before it. *)
Lemma nearest_above (a D W : Z -> Z) (mr Q Pr k : Z) :
  0 < Pr -> 0 < Q -> 2 ^ 52 <= mr < 2 ^ 53 -> Q < 2 * mr ->
  a 1 = 1 ->
  (forall i j, 1 <= i -> i < j -> j <= 20 -> a i < a j) ->
  (forall j, 2 <= j <= 20 -> a j <= 2 * a (j - 1)) ->
  (forall j, 1 <= j <= 20 -> D j = Z.abs (a j * Q - mr) * Pr) ->
  (forall j n, 1 <= j <= 20 -> 0 <= n < 2 ^ 53 ->
     (n * Pr <= D j -> n * Pr <= W j) /\ (D j <= n * Pr -> W j <= n * Pr)) ->
  1 <= k <= 20 ->
  (forall j, 1 <= j <= 20 -> D k <= D j) ->
  (forall j, 1 <= j < k -> D k < D j) ->
  forall j, 1 <= j <= 20 -> W k <= W j /\ (j < k -> W k < W j).
Proof.
  intros HPr HQ Hmr HQmr Ha1 Hmono Hratio HD HW Hk Hmin Hfirst.
  change (2 ^ 52) with 4503599627370496 in *.
  change (2 ^ 53) with 9007199254740992 in *.
  assert (forall i j, 1 <= i -> i < j -> j <= 20 -> a i * Q < a j * Q) as Hu.
  { intros i j Hi Hij Hj. apply Z.mul_lt_mono_pos_r; [lia | by apply Hmono]. }
  assert (forall i j, 1 <= i <= 20 -> 1 <= j <= 20 ->
            (D i <= D j <-> Z.abs (a i * Q - mr) <= Z.abs (a j * Q - mr))
            /\ (D i < D j <-> Z.abs (a i * Q - mr) < Z.abs (a j * Q - mr)))
    as Hcmp.
  { intros i j Hi Hj. rewrite (HD i Hi), (HD j Hj). split; split; nia. }
  (* the nearest distance is representable *)
  assert (Z.abs (a k * Q - mr) < 9007199254740992) as Hnk.
  { destruct (Z_le_gt_dec (a k * Q) mr) as [Hle|Hgt].
    - assert (0 < a k * Q).
      { destruct (Z.eq_dec k 1) as [->|Hne]; [rewrite Ha1; lia |].
        specialize (Hu 1 k ltac:(lia) ltac:(lia) ltac:(lia)).
        rewrite Ha1 in Hu. lia. }
      lia.
    - destruct (Z.eq_dec k 1) as [->|Hne]; [rewrite Ha1 in *; lia |].
      specialize (Hu (k - 1) k ltac:(lia) ltac:(lia) ltac:(lia)).
      specialize (Hratio k ltac:(lia)).
      assert (a k * Q <= 2 * (a (k - 1) * Q)) by nia.
      specialize (Hmin (k - 1) ltac:(lia)).
      apply (Hcmp k (k - 1)) in Hmin; [| lia | lia]. lia. }
  assert (W k = D k) as HWk.
  { destruct (HW k (Z.abs (a k * Q - mr)) Hk ltac:(lia)) as [Hlo Hhi].
    rewrite <- (HD k Hk) in Hlo, Hhi. lia. }
  intros j Hj. split.
  - rewrite HWk.
    destruct (HW j (Z.abs (a k * Q - mr)) Hj ltac:(lia)) as [Hlo _].
    rewrite <- (HD k Hk) in Hlo. apply Hlo. by apply Hmin.
  - intros Hjk. specialize (Hfirst j ltac:(lia)).
    specialize (Hu j k ltac:(lia) ltac:(lia) ltac:(lia)).
    pose proof (proj1 (proj2 (Hcmp k j Hk Hj)) Hfirst) as Hn.
    assert (0 < a j * Q).
    { destruct (Z.eq_dec j 1) as [->|Hne]; [rewrite Ha1; lia |].
      pose proof (Hmono 1 j ltac:(lia) ltac:(lia) ltac:(lia)) as H1.
      rewrite Ha1 in H1. nia. }
    assert (W j = D j) as HWj.
    { destruct (HW j (Z.abs (a j * Q - mr)) Hj ltac:(lia)) as [Hlo Hhi].
      rewrite <- (HD j Hj) in Hlo, Hhi. lia. }
    lia.
Qed.

End Selection.

(* ===================================================================== *)
(** ** [optimize]: the exact nearest index *)
(* ===================================================================== *)

Section ExactNearest.
Import WindowsMouseService.

(** The binary64 distance of a table entry to a normal request is a
    faithful rounding of the exact distance of their values. *)
Lemma double_distance_faithful (mr : positive) (er k : Z) :
  2 ^ 52 <= Z.pos mr < 2 ^ 53 -> -200 <= er <= 200 -> 1 <= k <= 20 ->
  faithful (Z.abs (multiplier_of k * 2 ^ 1069 - dyadic (Z.pos mr) er)) 1
           (double_distance (S754_finite false mr er) k).
Proof.
  intros Hmr Her Hk.
  destruct (MAP_entry k Hk) as (m & e & Hm & Hmn & He & Hv).
  unfold double_distance. rewrite Hm, <- Hv.
  apply fabs_fsub_faithful; lia.
Qed.

(** The rounded distances order the indices as the exact distances to
    [base / target] do, at the index of smallest exact distance. *)
Lemma rounded_distances_agree (base target : Z) (mr : positive) (er k : Z) :
  0 < base < 2 ^ 45 -> 0 < target < 2 ^ 45 ->
  faithful (base * 2 ^ 1074) target (S754_finite false mr er) ->
  1 <= k <= 20 ->
  (forall j, 1 <= j <= 20 ->
     exact_distance base target (multiplier_of k)
     <= exact_distance base target (multiplier_of j)) ->
  (forall j, 1 <= j < k ->
     exact_distance base target (multiplier_of k)
     < exact_distance base target (multiplier_of j)) ->
  forall j, 1 <= j <= 20 ->
    fle (double_distance (S754_finite false mr er) k)
        (double_distance (S754_finite false mr er) j) = true
    /\ (j < k ->
        flt (double_distance (S754_finite false mr er) k)
            (double_distance (S754_finite false mr er) j) = true).
Proof.
  intros Hb Ht Hf Hk Hmin Hfirst.
  set (req := S754_finite false mr er) in *.
  pose proof Hf as [[Hmr Her] Hfv]. cbn [value] in Hfv.
  set (X := dyadic (Z.pos mr) er) in *.
  change (2 ^ 45) with 35184372088832 in Hb, Ht.
  (* the size of the request *)
  assert (2 ^ 1029 <= X <= 2 ^ 1119) as HX.
  { split.
    - destruct (Hfv (2 ^ 1029)) as [Hlo _].
      + exists 1, (-45). split; [split; [lia | reflexivity] |].
        split; [lia | reflexivity].
      + apply Hlo. change (2 ^ 1074) with (35184372088832 * 2 ^ 1029).
        pose proof (pow2_pos 1029 ltac:(lia)). nia.
    - destruct (Hfv (2 ^ 1119)) as [_ Hhi].
      + exists 1, 45. split; [split; [lia | reflexivity] |].
        split; [lia | reflexivity].
      + apply Hhi. change (2 ^ 1119) with (35184372088832 * 2 ^ 1074).
        pose proof (pow2_pos 1074 ltac:(lia)). nia. }
  pose proof (exponent_lower _ _ 1029 Hmr Her ltac:(lia) (proj1 HX)) as Hlo.
  pose proof (exponent_upper _ _ 1119 Hmr Her ltac:(lia) (proj2 HX)) as Hhi.
  (* the rounded distances *)
  set (D := fun j => Z.abs (multiplier_of j * 2 ^ 1069 - X)).
  set (W := fun j => value (double_distance req j)).
  assert (forall j, 1 <= j <= 20 -> faithful (D j) 1 (double_distance req j))
    as Hdd by (intros j Hj; apply double_distance_faithful; lia).
  assert (forall j, 1 <= j <= 20 ->
            (fle (double_distance req k) (double_distance req j) = true
             <-> W k <= W j)
            /\ (flt (double_distance req k) (double_distance req j) = true
                <-> W k < W j)) as Hord.
  { intros j Hj. split; [apply fle_value | apply flt_value];
      first [apply (Hdd k Hk) | apply (Hdd j Hj)]. }
  assert (forall j, 1 <= j <= 20 -> W k <= W j /\ (j < k -> W k < W j))
    as Hgoal; [| intros j Hj; destruct (Hord j Hj) as [H1 H2];
                 destruct (Hgoal j Hj) as [H3 H4]; split;
                 [by apply H1 | intros Hjk; by apply H2, H4]].
  (* the sides of the midpoints *)
  assert (forall n, 1 <= n <= 224 ->
            (64 * base < n * target -> X < n * 2 ^ 1068)
            /\ (64 * base = n * target -> X = n * 2 ^ 1068)
            /\ (n * target < 64 * base -> n * 2 ^ 1068 < X)) as Hsides.
  { intros n Hn.
    destruct (request_sides base target n req ltac:(lia)
                ltac:(change (2 ^ 45) with 35184372088832; lia) Hn Hf)
      as (H1 & H2 & H3).
    pose proof (pow2_pos 1023 ltac:(lia)). cbn [req value] in H1, H2, H3.
    fold X in H1, H2, H3. repeat split; intros H'; auto; [specialize (H1 H') | specialize (H3 H')]; lia. }
  assert (forall i j, 1 <= i <= 20 -> 1 <= j <= 20 ->
            (exact_distance base target (multiplier_of i)
             <= exact_distance base target (multiplier_of j) -> D i <= D j)
            /\ (exact_distance base target (multiplier_of i)
                < exact_distance base target (multiplier_of j) -> D i < D j))
    as Htr.
  { intros i j Hi Hj. unfold D, exact_distance.
    change (2 ^ 1069) with (2 * 2 ^ 1068).
    replace (multiplier_of i * (2 * 2 ^ 1068))
      with (2 * multiplier_of i * 2 ^ 1068) by ring.
    replace (multiplier_of j * (2 * 2 ^ 1068))
      with (2 * multiplier_of j * 2 ^ 1068) by ring.
    apply transfer;
      [lia | apply pow2_pos; lia | by apply multiplier_range
       | by apply multiplier_range | exact Hsides]. }
  assert (forall j, 1 <= j <= 20 -> D k <= D j) as HminD
      by (intros j Hj; apply (Htr k j Hk Hj), Hmin, Hj).
  assert (forall j, 1 <= j < k -> D k < D j) as HfirstD
      by (intros j Hj; apply (Htr k j Hk ltac:(lia)), Hfirst, Hj).
  destruct (Hsides 1 ltac:(lia)) as (Hbelow & Hat & Habove).
  destruct (Z_le_gt_dec (64 * base) (1 * target)) as [Hsmall|Hlarge].
  - (* the request is at most 1/64: the first entry is nearest *)
    assert (X <= 2 ^ 1068) as HXs.
    { destruct (Z.eq_dec (64 * base) (1 * target)) as [Heq|Hne];
        [specialize (Hat Heq) | specialize (Hbelow ltac:(lia))]; lia. }
    assert (k = 1) as ->.
    { destruct (Z.eq_dec k 1) as [|Hne]; [assumption | exfalso].
      specialize (Hfirst 1 ltac:(lia)).
      pose proof (multiplier_mono 1 k ltac:(lia) ltac:(lia) ltac:(lia)) as Hm.
      rewrite multiplier_first in Hfirst, Hm. unfold exact_distance in Hfirst.
      assert (2 * target <= multiplier_of k * target) by nia.
      lia. }
    intros j Hj.
    destruct (Z.eq_dec j 1) as [->|Hne]; [split; lia |].
    pose proof (multiplier_mono 1 j ltac:(lia) ltac:(lia) ltac:(lia)) as Hm.
    rewrite multiplier_first in Hm.
    pose proof (pow2_pos 1068 ltac:(lia)) as HS.
    assert (W 1 <= 2 * 2 ^ 1068) as H1.
    { destruct (Hdd 1 ltac:(lia)) as [_ H].
      destruct (H (2 * 2 ^ 1068)) as [_ Hup].
      - exists 1, (-5). split; [split; [lia | reflexivity] |].
        split; [lia | reflexivity].
      - apply Hup. unfold D. rewrite multiplier_first.
        change (2 ^ 1069) with (2 * 2 ^ 1068). lia. }
    assert (3 * 2 ^ 1068 <= W j) as H2.
    { destruct (Hdd j Hj) as [_ H].
      destruct (H (3 * 2 ^ 1068)) as [Hlow _].
      - exists 3, (-6). split; [split; [lia | reflexivity] |].
        split; [lia | reflexivity].
      - apply Hlow. unfold D. change (2 ^ 1069) with (2 * 2 ^ 1068). nia. }
    lia.
  - (* the request is above 1/64 *)
    specialize (Habove ltac:(lia)).
    pose proof (exponent_lower _ _ 1068 Hmr Her ltac:(lia) ltac:(fold X; lia))
      as Hlo'.
    set (Q := 2 ^ (-5 - er)). set (Pr := 2 ^ (er + 1074)).
    assert (0 < Q) as HQ by (apply pow2_pos; lia).
    assert (0 < Pr) as HPr by (apply pow2_pos; lia).
    assert (2 ^ 1069 = Q * Pr) as HQP.
    { unfold Q, Pr. rewrite <- pow2_split by lia. f_equal. lia. }
    assert (X = Z.pos mr * Pr) as HXm by reflexivity.
    apply (nearest_above multiplier_of D W (Z.pos mr) Q Pr k);
      try assumption.
    + (* Q < 2 * mr, the request being above 1/64 *)
      assert (2 * 2 ^ 1068 = Q * Pr) by (rewrite <- HQP; reflexivity).
      nia.
    + reflexivity.
    + intros i j Hi Hij Hj. by apply multiplier_mono.
    + intros j Hj. apply multiplier_step. lia.
    + intros j Hj. unfold D. rewrite HQP, HXm.
      replace (multiplier_of j * (Q * Pr) - Z.pos mr * Pr)
        with ((multiplier_of j * Q - Z.pos mr) * Pr) by ring.
      rewrite Z.abs_mul. f_equal. lia.
    + intros j n Hj Hn. destruct (Hdd j Hj) as [_ H].
      destruct (H (n * Pr)) as [Hlow Hup].
      * exists n, er. split; [exact Hn |]. split; [lia | reflexivity].
      * split; intros Hle; [apply Hlow | apply Hup]; lia.
Qed.

Lemma flt_fle_absurd (x y : float) :
  is_abs x -> is_abs y -> flt x y = true -> fle y x = true -> False.
Proof.
  intros Hx Hy Hlt Hle.
  apply flt_rank in Hlt; [| assumption ..].
  apply fle_rank in Hle; [| assumption ..].
  unfold lex_le, lex_lt in *.
  destruct (rank x) as [[a1 a2] a3], (rank y) as [[b1 b2] b3].
  destruct Hle as [Hle|Heq]; [lia | injection Heq as -> -> ->; lia].
Qed.

(** For positive integers [base] and [target] below [2^1023],
    [optimize] computes the request [req], the binary64 quotient of
    [base] and [target], without raising, selects the index [k] in 1..20
    whose binary64 distance [abs(_MAP[k] - req)] is smallest, the lowest
    such index at a tie, and applies [k] through [set_speed]. *)
Lemma optimize_selects_nearest_double (base target : Z) :
  0 < base < 2 ^ 1023 -> 0 < target < 2 ^ 1023 ->
  exists req k,
    requested base target = Ok req
    /\ nearest_index base target = Ok k
    /\ 1 <= k <= 20
    /\ (forall j, 1 <= j <= 20 ->
          fle (double_distance req k) (double_distance req j) = true)
    /\ (forall j, 1 <= j < k ->
          flt (double_distance req k) (double_distance req j) = true)
    /\ forall self w,
         optimize base target (self, w) = (Ok tt, (self, speed_applied k w)).
Proof.
  intros Hb Ht.
  destruct (requested_ok base target Hb Ht) as (req & Hreq & Hnan).
  destruct (min_over_MAP req Hnan) as (k & Hk & Hrange & Hmin & Hfirst).
  assert (nearest_index base target = Ok k) as Hidx
      by (unfold nearest_index; rewrite Hreq; exact Hk).
  exists req, k. repeat split; try assumption; try lia.
  intros self w. unfold optimize.
  erewrite bind_ok by (unfold lift; rewrite Hidx; reflexivity).
  rewrite set_speed_run.
  unfold clamp. by replace (Z.max 1 (Z.min 20 k)) with k by lia.
Qed.

(** C4, as the code has it. For positive integers [base] and [target]
    below [2^45], [optimize] applies through [set_speed] the index [k] in
    1..20 whose table multiplier minimises [|MAP[k] - base / target|] in
    exact arithmetic, the lowest such index at a tie: on that range the
    binary64 quotient and the binary64 distances, each a rounding, order
    the table as the exact distances do. *)
Theorem optimize_selects_exact_nearest (base target : Z) :
  0 < base < 2 ^ 45 -> 0 < target < 2 ^ 45 ->
  applies_exact_nearest base target.
Proof.
  intros Hb Ht.
  assert (2 ^ 45 < 2 ^ 53) as H45 by reflexivity.
  destruct (requested_faithful base target ltac:(lia) ltac:(lia))
    as (mr & er & Hreq & Hf).
  destruct (first_argmin
              (fun j => exact_distance base target (multiplier_of j)) 19)
    as (k & Hk & Hmin & Hfirst).
  change (Z.of_nat 20) with 20 in *.
  pose proof (rounded_distances_agree base target mr er k Hb Ht Hf Hk
                                      Hmin Hfirst) as Hagree.
  destruct (min_over_MAP (S754_finite false mr er) ltac:(discriminate))
    as (k' & Hk' & Hrange' & Hmin' & Hfirst').
  assert (forall j, 1 <= j <= 20 ->
            is_abs (double_distance (S754_finite false mr er) j)) as Habs.
  { intros j Hj. apply double_distance_is_abs; [discriminate |].
    by apply In_keys_MAP. }
  assert (k' = k) as ->.
  { destruct (Z.lt_trichotomy k' k) as [Hlt|[Heq|Hgt]]; [| exact Heq |];
      exfalso.
    - destruct (Hagree k' Hrange') as [_ Hs]. specialize (Hs Hlt).
      specialize (Hmin' k Hk).
      apply (flt_fle_absurd _ _ (Habs k Hk) (Habs k' Hrange') Hs Hmin').
    - destruct (Hagree k' Hrange') as [Hle _].
      specialize (Hfirst' k ltac:(lia)).
      apply (flt_fle_absurd _ _ (Habs k' Hrange') (Habs k Hk) Hfirst' Hle). }
  exists k. split; [exact Hk |]. split; [exact Hmin |]. split; [exact Hfirst |].
  intros self w. unfold optimize.
  assert (nearest_index base target = Ok k) as Hidx
      by (unfold nearest_index; rewrite Hreq; exact Hk').
  erewrite bind_ok by (unfold lift; rewrite Hidx; reflexivity).
  rewrite set_speed_run.
  unfold clamp. by replace (Z.max 1 (Z.min 20 k)) with k by lia.
Qed.

Lemma optimize_selects_exact_nearest_witness :
  applies_exact_nearest 1600 800
  /\ optimize 1600 800 ({| _default := 10 |}, w0)
     = (Ok tt, ({| _default := 10 |}, speed_applied 14 w0)).
Proof.
  split; [apply (optimize_selects_exact_nearest 1600 800); lia |].
  vm_compute. reflexivity.
Defined.

(** C4, as stated, fails at [base = 10^18], [target = 1]: every binary64
    distance rounds to [1e18], so the first index, 1, is selected, although
    index 20 (multiplier 3.5) is strictly nearer to [base / target]. *)
Lemma optimize_misses_exact_nearest : ~ applies_exact_nearest (10 ^ 18) 1.
Proof.
  intros (k & _ & Hmin & _ & Happlied).
  specialize (Happlied {| _default := 10 |} w0).
  vm_compute in Happlied.
  assert (k = 1) as -> by congruence.
  specialize (Hmin 20 ltac:(lia)). vm_compute in Hmin. by apply Hmin.
Qed.

(** The bound cannot be raised much: with [target] just above [2^49] the
    quotient [2.125 + 2^-52 / (1 + 7 * 2^-49)] rounds to the midpoint
    2.125 of the entries 2.0 and 2.25, and the lower index, 14, is
    selected although index 15 is strictly nearer. *)
Lemma optimize_misses_near_a_tie :
  ~ applies_exact_nearest (17 * 2 ^ 46 + 15) (2 ^ 49 + 7).
Proof.
  intros (k & _ & Hmin & _ & Happlied).
  specialize (Happlied {| _default := 10 |} w0).
  vm_compute in Happlied.
  assert (k = 14) as -> by congruence.
  specialize (Hmin 15 ltac:(lia)). vm_compute in Hmin. by apply Hmin.
Qed.

(** Beyond the range of a double the conversion of [base] raises, and
    nothing is selected or applied. *)
Lemma optimize_overflows (self : t) (w : world) :
  optimize (2 ^ 1024) 1 (self, w)
  = (Raise (OverflowError "int too large to convert to float"), (self, w)).
Proof.
  unfold optimize. erewrite bind_raise; [reflexivity |].
  unfold lift. f_equal.
Qed.

(** The multipliers in thirty-seconds are those of [_MAP]. *)
Lemma multiplier_32_is_MAP :
  map (fun kn : Z * Z =>
         (fst kn, binary_normalize prec emax (snd kn) (-5) false))
      multiplier_32
  = _MAP.
Proof. vm_compute. reflexivity. Qed.

End ExactNearest.

(* ===================================================================== *)
(** ** Further properties of [VXEMouseBackend] *)
(* ===================================================================== *)

Section MouseDiscovery.
Import VXEMouseBackend.

Lemma connect_loop_skips (pre rest : list hid_info) (s : t * world) :
  forallb (fun d => negb (is_receiver d)) pre = true ->
  connect_loop (pre ++ rest) s = connect_loop rest s.
Proof.
  induction pre as [|d pre IH]; cbn [forallb app]; [reflexivity |].
  intros [Hd Hpre]%andb_true_iff. cbn [connect_loop].
  unfold is_receiver in Hd. apply negb_true_iff in Hd. rewrite Hd.
  by apply IH.
Qed.

(** Either no enumerated interface is the receiver, or the list splits
    at the first one that is. *)
Lemma first_receiver (ds : list hid_info) :
  forallb (fun d => negb (is_receiver d)) ds = true
  \/ exists pre d post,
       ds = pre ++ d :: post
       /\ forallb (fun d => negb (is_receiver d)) pre = true
       /\ is_receiver d = true.
Proof.
  induction ds as [|d ds IH]; [by left |].
  destruct (is_receiver d) eqn:Hd.
  - right. exists [], d, ds. auto.
  - destruct IH as [Hnone|(pre & d' & post & -> & Hpre & Hd')].
    + left. cbn. by rewrite Hd.
    + right. exists (d :: pre), d', post. cbn. rewrite Hd. auto.
Qed.

(** X1. When no enumerated path contains both ["mi_01"] and ["col05"]
    (compared in lowercase), [connect] returns [False], leaves the
    backend as it was and writes no log record. *)
Theorem connect_without_receiver
    (ds : list hid_info) (self : t) (w : world) :
  forallb (fun d => negb (is_receiver d)) ds = true ->
  connect (Ok ds) (self, w) = (Ok false, (self, w)).
Proof.
  intros Hds. unfold connect, try_except.
  erewrite bind_ok by reflexivity.
  rewrite <- (app_nil_r ds), connect_loop_skips by assumption.
  reflexivity.
Qed.

Lemma connect_without_receiver_witness :
  connect (Ok [ {| path := "\\?\HID#VID_373B&PID_1040&MI_00#7&1";
                   openable := true |} ]) (__init__, w0)
  = (Ok false, (__init__, w0)).
Proof.
  apply (connect_without_receiver
           [ {| path := "\\?\HID#VID_373B&PID_1040&MI_00#7&1";
                openable := true |} ] __init__ w0).
  reflexivity.
Defined.

(** X2. [connect] opens the first enumerated interface whose path
    matches, whatever follows it in the enumeration: it returns [True]
    with the device open and non-blocking, and logs nothing. *)
Theorem connect_opens_first_receiver
    (pre post : list hid_info) (d : hid_info) (self : t) (w : world) :
  forallb (fun d => negb (is_receiver d)) pre = true ->
  is_receiver d = true ->
  openable d = true ->
  connect (Ok (pre ++ d :: post)) (self, w)
  = (Ok true, ({| device := Some {| opened := true; nonblocking := true |} |},
               w)).
Proof.
  intros Hpre Hd Hopen. unfold connect, try_except.
  erewrite bind_ok by reflexivity.
  rewrite connect_loop_skips by assumption. cbn [connect_loop].
  unfold is_receiver in Hd. rewrite Hd.
  unfold open_path. rewrite Hopen. reflexivity.
Qed.

Lemma connect_opens_first_receiver_witness :
  connect (Ok ([ {| path := "\\?\HID#VID_373B&PID_1040&MI_00#7&1";
                    openable := true |} ] ++ receiver :: [receiver]))
          (__init__, w0)
  = (Ok true, ({| device := Some {| opened := true; nonblocking := true |} |},
               w0)).
Proof.
  apply (connect_opens_first_receiver
           [ {| path := "\\?\HID#VID_373B&PID_1040&MI_00#7&1";
                openable := true |} ] [receiver] receiver __init__ w0);
    reflexivity.
Defined.

(** X3. When the first matching interface cannot be opened, [connect]
    stops there: it logs the failure once, returns [False] without trying
    the interfaces that follow, and leaves [self.device] set to a device
    object that is not open, so that later mode calls do not take the
    no-device return. *)
Theorem connect_open_failure
    (pre post : list hid_info) (d : hid_info) (self : t) (w : world) :
  forallb (fun d => negb (is_receiver d)) pre = true ->
  is_receiver d = true ->
  openable d = false ->
  exists s',
    connect (Ok (pre ++ d :: post)) (self, w) = (Ok false, s')
    /\ device s'.1 = Some {| opened := false; nonblocking := false |}
    /\ has_device s'.1 = true
    /\ s'.2 = emit (LogError "VXE Mouse connect error" (IOError "open failed"))
                   w.
Proof.
  intros Hpre Hd Hopen. unfold connect, try_except.
  erewrite bind_ok by reflexivity.
  rewrite connect_loop_skips by assumption. cbn [connect_loop].
  unfold is_receiver in Hd. rewrite Hd.
  unfold open_path. rewrite Hopen.
  eexists. split; [reflexivity |]. auto.
Qed.

Lemma connect_open_failure_witness :
  exists s',
    connect (Ok ([] ++ {| path := path receiver; openable := false |}
                    :: [receiver])) (__init__, w0) = (Ok false, s')
    /\ device s'.1 = Some {| opened := false; nonblocking := false |}
    /\ has_device s'.1 = true
    /\ s'.2 = emit (LogError "VXE Mouse connect error" (IOError "open failed"))
                   w0.
Proof.
  apply (connect_open_failure [] [receiver]
           {| path := path receiver; openable := false |} __init__ w0);
    reflexivity.
Defined.

(** X4. [connect] never raises, whatever the enumeration gives,
    including a failure of the enumeration itself; started without a
    device, it returns [True] exactly when it leaves an open device. *)
Theorem connect_never_raises
    (enumerate : result (list hid_info)) (w : world) :
  exists b s',
    connect enumerate (__init__, w) = (Ok b, s')
    /\ (b = true <-> exists d, device s'.1 = Some d /\ opened d = true).
Proof.
  destruct enumerate as [ds|e].
  - destruct (first_receiver ds) as [Hnone|(pre & d & post & -> & Hpre & Hd)].
    + rewrite connect_without_receiver by assumption.
      exists false, (__init__, w). split; [reflexivity |].
      split; [discriminate | intros (d & Hdev & _); discriminate].
    + destruct (openable d) eqn:Hopen.
      * rewrite connect_opens_first_receiver by assumption.
        eexists _, _. split; [reflexivity |]. cbn. split; [eauto | reflexivity].
      * destruct (connect_open_failure pre post d __init__ w Hpre Hd Hopen)
          as (s' & -> & Hdev & _).
        exists false, s'. split; [reflexivity |].
        split; [discriminate |].
        intros (d' & Hd' & Ho). rewrite Hdev in Hd'.
        injection Hd' as <-. discriminate.
  - eexists false, _. split; [reflexivity |].
    split; [discriminate | intros (d & Hdev & _); discriminate].
Qed.

End MouseDiscovery.

Section DesktopMode.
Import VXEMouseBackend.

(** X5. [set_desktop_mode] never raises and never changes the backend
    object, with or without a device and whether or not the device
    accepts writes; all it does is add to the trace. *)
Theorem set_desktop_mode_never_raises
    (consts : constants) (self : t) (w : world) :
  exists es, set_desktop_mode consts (self, w) = (Ok tt, (self, emit_all es w)).
Proof.
  destruct (device self) as [d|] eqn:Hd.
  - rewrite (set_desktop_mode_completes consts self d w Hd). eauto.
  - exists []. rewrite emit_all_nil. unfold set_desktop_mode. step_bind.
    unfold has_device. by rewrite Hd.
Qed.

(** X6. With an open device, [set_desktop_mode] adds to the trace, in
    this order and nothing else: each packet of [SEQ_DPI_800] written and
    followed by a 20 ms pause, then the 250 ms pause, then [CMD_HZ_1000]
    written. Nothing is logged and the backend object is unchanged. *)
Theorem set_desktop_mode_packets
    (consts : constants) (self : t) (d : hid_device) (w : world) :
  device self = Some d -> opened d = true ->
  set_desktop_mode consts (self, w)
  = (Ok tt,
     (self,
      emit_all (flat_map (fun p => [HidWrite p; Sleep 20]) (SEQ_DPI_800 consts)
                ++ [Sleep 250; HidWrite (CMD_HZ_1000 consts)]) w)).
Proof.
  intros Hd Ho. rewrite (set_desktop_mode_completes consts self d w Hd).
  unfold paced_events, send_events. rewrite Ho.
  by rewrite <- app_assoc.
Qed.

Lemma set_desktop_mode_packets_witness :
  set_desktop_mode sample_consts mouse_connected
  = (Ok tt,
     (mouse_connected.1,
      emit_all [HidWrite [8; 7; 0; 0; 12; 15]; Sleep 20;
                HidWrite [8; 7; 0; 0; 4; 1]; Sleep 20;
                Sleep 250; HidWrite [8; 7; 0; 0; 0; 1]] w0)).
Proof.
  apply (set_desktop_mode_packets sample_consts mouse_connected.1
           {| opened := true; nonblocking := true |} w0); reflexivity.
Defined.

(** X7. A write that fails does not stop the sequence: on a device
    object that is not open, [set_desktop_mode] adds to the trace, in
    this order and nothing else: for each packet of [SEQ_DPI_800] one
    logged send error followed by the 20 ms pause, then the 250 ms pause,
    then one logged send error for [CMD_HZ_1000]. Nothing is written and
    the call returns normally. *)
Theorem set_desktop_mode_logs_each_failure
    (consts : constants) (self : t) (d : hid_device) (w : world) :
  device self = Some d -> opened d = false ->
  set_desktop_mode consts (self, w)
  = (Ok tt,
     (self,
      emit_all
        (flat_map (fun _ : packet =>
                     [LogError "VXE Mouse send error" (ValueError "not open");
                      Sleep 20]) (SEQ_DPI_800 consts)
         ++ [Sleep 250;
             LogError "VXE Mouse send error" (ValueError "not open")]) w)).
Proof.
  intros Hd Ho. rewrite (set_desktop_mode_completes consts self d w Hd).
  unfold paced_events, send_events. rewrite Ho.
  by rewrite <- app_assoc.
Qed.

Lemma set_desktop_mode_logs_each_failure_witness :
  set_desktop_mode sample_consts mouse_unopened
  = (Ok tt,
     (mouse_unopened.1,
      emit_all
        [LogError "VXE Mouse send error" (ValueError "not open"); Sleep 20;
         LogError "VXE Mouse send error" (ValueError "not open"); Sleep 20;
         Sleep 250;
         LogError "VXE Mouse send error" (ValueError "not open")]
        mouse_unopened.2)).
Proof.
  apply (set_desktop_mode_logs_each_failure sample_consts mouse_unopened.1
           {| opened := false; nonblocking := false |} mouse_unopened.2);
    reflexivity.
Defined.

End DesktopMode.

(* ===================================================================== *)
(** ** Further properties of [NvidiaService] *)
(* ===================================================================== *)

Section NvidiaInit.
Import NvidiaService.

Lemma enum_loop_run (drv : driver) (indices : list Z) (self : t) (w : world) :
  enum_loop drv indices (self, w)
  = (Ok tt, ({| _handles := _handles self ++ leading_handles drv indices;
                _is_avail := _is_avail self |}, w)).
Proof.
  revert self. induction indices as [|i rest IH]; intros self.
  - cbn. rewrite app_nil_r. by destruct self.
  - cbn [enum_loop leading_handles].
    destruct (enum_display drv i) as [status h]. cbn [fst snd].
    destruct (status =? 0).
    + do 2 step_bind. rewrite IH. cbn [_handles _is_avail].
      by rewrite <- app_assoc.
    + cbn. rewrite app_nil_r. by destruct self.
Qed.

Lemma leading_handles_length (drv : driver) (indices : list Z) :
  (length (leading_handles drv indices) <= length indices)%nat.
Proof.
  induction indices as [|i rest IH]; cbn [leading_handles length]; [lia |].
  destruct (_ =? 0); cbn [length]; lia.
Qed.

(** X8. The service is available after construction exactly when the DLL
    file exists, loading it succeeds and [nvapi_Initialize] returns 0.
    Construction never raises: a failure of the loading is logged as one
    warning, and nothing else is ever logged. *)
Theorem init_available_iff (drv : driver) (w : world) :
  (available (__init__ drv w).1 = true
   <-> dll_exists drv = true /\ load_library drv = Ok tt /\ initialize drv = 0)
  /\ (__init__ drv w).2
     = match dll_exists drv, load_library drv with
       | true, Raise e => emit (LogWarning "Nvidia Service init failed" e) w
       | _, _ => w
       end.
Proof.
  unfold __init__, _init_api, try_except, available.
  destruct (dll_exists drv); [| cbn; split; [split |]; [discriminate | tauto | reflexivity]].
  destruct (load_library drv) as [[]|e].
  - erewrite bind_ok by reflexivity.
    destruct (Z.eqb_spec (initialize drv) 0) as [Hi|Hi].
    + erewrite bind_ok by apply enum_loop_run. step_bind.
      cbn. split; [tauto | reflexivity].
    + cbn. split; [split |]; [discriminate | tauto | reflexivity].
  - erewrite bind_raise by reflexivity.
    cbn. split; [split |]; [discriminate | | reflexivity].
    intros (_ & H & _). discriminate.
Qed.

(** X9. The handles collected at construction are those of the leading
    indices 0, 1, ... of [range(10)] on which the enumeration succeeds:
    collection stops at the first failure, never goes past ten displays,
    and a service that is not available has no handle. *)
Theorem init_handles (drv : driver) (w : world) :
  _handles (__init__ drv w).1
  = (if available (__init__ drv w).1 then leading_handles drv range10 else [])
  /\ (length (_handles (__init__ drv w).1) <= 10)%nat.
Proof.
  assert (_handles (__init__ drv w).1
          = if available (__init__ drv w).1
            then leading_handles drv range10 else []) as Heq.
  { unfold __init__, _init_api, try_except, available.
    destruct (dll_exists drv); [| reflexivity].
    destruct (load_library drv) as [[]|e].
    - erewrite bind_ok by reflexivity.
      destruct (initialize drv =? 0); [| reflexivity].
      erewrite bind_ok by apply enum_loop_run. step_bind. reflexivity.
    - erewrite bind_raise by reflexivity. reflexivity. }
  split; [exact Heq |]. rewrite Heq.
  destruct (available _); [| cbn; lia].
  apply (leading_handles_length drv range10).
Qed.

End NvidiaInit.

Section VibranceSafety.
Import NvidiaService.

Lemma vibrance_val_in_range (level v : Z) :
  vibrance_val level = Ok v -> -63 <= v <= 63.
Proof.
  unfold vibrance_val.
  destruct (int_mul_float (level - 50) (lit 126 2)) as [x|e]; [| discriminate].
  cbn [mbind result_bind].
  destruct (int_of_float x) as [n|e]; [| discriminate].
  cbn. intros [= <-]. rewrite max2_spec, min2_spec. lia.
Qed.

Lemma dvc_writes_effects (handles : list Z) (primary_only : bool) (v : Z) :
  -63 <= v <= 63 ->
  List.Forall (vibrance_effect handles) (dvc_writes handles primary_only v).
Proof.
  intros Hv. unfold dvc_writes.
  assert (List.Forall (vibrance_effect handles)
                      (map (fun h => SetDVCLevel h 0 v) handles)) as Hall.
  { apply List.Forall_forall. intros e (h & <- & Hin)%in_map_iff. cbn. auto. }
  destruct primary_only, handles as [|h0 hs]; try exact Hall.
  apply List.Forall_cons; [| apply List.Forall_nil]. cbn. auto.
Qed.

(** X10. Whatever the level (an integer of any size, or [None]) and the
    flag, [set_vibrance] returns normally and leaves the service object
    as it was; every event it adds is either a write of a value between
    -63 and 63 to one of the enumerated handles, or the log of a failure.
    It never writes a value outside the hardware range, and never to a
    handle that was not enumerated. *)
Theorem set_vibrance_is_safe
    (self : t) (w : world) (level : option Z) (primary_only : bool) :
  exists es,
    set_vibrance level primary_only (self, w) = (Ok tt, (self, emit_all es w))
    /\ List.Forall (vibrance_effect (_handles self)) es.
Proof.
  destruct (available self) eqn:Hav.
  - destruct (vibrance_val (default 50 level)) as [v|e] eqn:Hv.
    + exists (dvc_writes (_handles self) primary_only v).
      split; [by apply set_vibrance_writes |].
      apply dvc_writes_effects. by apply (vibrance_val_in_range _ _ Hv).
    + exists [LogError "Failed to set vibrance" e]. split.
      * unfold set_vibrance. step_bind. rewrite Hav. cbn [negb].
        unfold try_except.
        replace (match level with Some l => l | None => 50 end)
          with (default 50 level) by (by destruct level).
        erewrite bind_raise by (unfold lift; rewrite Hv; reflexivity).
        reflexivity.
      * apply List.Forall_cons; [exact I | apply List.Forall_nil].
  - exists []. rewrite emit_all_nil. split; [| apply List.Forall_nil].
    unfold set_vibrance. step_bind. by rewrite Hav.
Qed.

Lemma shr_fexp_exponent (m e : Z) (l : location) :
  (shr_fexp prec emax m e l).2 = Z.max e (fexp prec emax (Zdigits2 m + e)).
Proof.
  unfold shr_fexp, shr.
  destruct (fexp prec emax (Zdigits2 m + e) - e) as [|p|p] eqn:Hs;
    cbn [snd]; lia.
Qed.

(** An integer of 1025 bits or more does not fit a double. *)
Lemma float_of_int_overflow (n : Z) :
  2 ^ 1024 <= n ->
  float_of_int n = Raise (OverflowError "int too large to convert to float").
Proof.
  intros Hn.
  assert (0 < n) as Hpos
      by (apply Z.lt_le_trans with (m := 2 ^ 1024); [reflexivity | exact Hn]).
  destruct n as [|p|p]; try lia.
  destruct (Zdigits2_bounds (Z.pos p) Hpos) as (Hd & _ & Hhi).
  assert (1024 < Zdigits2 (Z.pos p)) as HD.
  { apply (Z.pow_lt_mono_r_iff 2); lia. }
  unfold float_of_int. cbn [binary_normalize]. unfold binary_round.
  cbn [Zdigits2] in HD.
  assert (shl_align p 0 (fexp prec emax (Z.pos (digits2_pos p) + 0)) = (p, 0))
    as ->.
  { unfold shl_align, fexp, emin, prec, emax.
    destruct (Z.max (Z.pos (digits2_pos p) + 0 - 53) (3 - 1024 - 53) - 0)
      eqn:Hs; try reflexivity. lia. }
  unfold binary_round_aux.
  pose proof (shr_fexp_exponent (Z.pos p) 0 loc_Exact) as He1.
  pose proof (shr_fexp_pos (Z.pos p) 0 loc_Exact Hpos
                           ltac:(unfold emin, prec, emax; lia)) as H1.
  cbn zeta in H1.
  destruct (shr_fexp prec emax (Z.pos p) 0 loc_Exact) as [mrs' e'].
  cbn [fst snd] in He1, H1.
  assert (972 <= e') as He'.
  { rewrite He1. unfold fexp, emin, prec, emax. cbn [Zdigits2]. lia. }
  pose proof (round_nearest_even_bounds (shr_m mrs') (loc_of_shr_record mrs'))
    as Hr.
  set (m2 := round_nearest_even (shr_m mrs') (loc_of_shr_record mrs')) in *.
  pose proof (shr_fexp_pos m2 e' loc_Exact ltac:(lia)
                           ltac:(unfold emin, prec, emax; lia)) as H2.
  cbn zeta in H2.
  destruct (shr_fexp prec emax m2 e' loc_Exact) as [mrs'' e''].
  cbn [fst snd] in H2.
  destruct (shr_m mrs'') as [|m|m]; [lia | | lia].
  replace (e'' <=? emax - prec) with false
    by (symmetry; apply Z.leb_gt; unfold emax, prec; lia).
  reflexivity.
Qed.

(** X11. A level too large for a double (1025 bits or more above 50) is
    not written: the [OverflowError] of the conversion is caught inside
    [set_vibrance], logged once, and no display is touched. *)
Theorem set_vibrance_overflow_is_logged
    (self : t) (w : world) (level : Z) (primary_only : bool) :
  available self = true ->
  2 ^ 1024 <= level - 50 ->
  set_vibrance (Some level) primary_only (self, w)
  = (Ok tt,
     (self, emit (LogError "Failed to set vibrance"
                           (OverflowError "int too large to convert to float"))
                 w)).
Proof.
  intros Hav Hl. unfold set_vibrance. step_bind. rewrite Hav. cbn [negb].
  unfold try_except.
  rewrite (bind_raise _ _ (self, w)
             (OverflowError "int too large to convert to float") (self, w));
    [reflexivity |].
  unfold lift, vibrance_val, int_mul_float.
  by rewrite (float_of_int_overflow _ Hl).
Qed.

Lemma set_vibrance_overflow_is_logged_witness :
  set_vibrance (Some (2 ^ 1024 + 50)) false (gpu_ready, w0)
  = (Ok tt, (gpu_ready,
             emit (LogError "Failed to set vibrance"
                            (OverflowError "int too large to convert to float"))
                  w0)).
Proof.
  apply (set_vibrance_overflow_is_logged gpu_ready w0 (2 ^ 1024 + 50) false);
    [reflexivity | lia].
Defined.

Lemma truncated_strictly_increasing (l l' : Z) :
  0 <= l -> l < l' -> l' <= 100 ->
  truncated_vibrance l < truncated_vibrance l'.
Proof.
  intros H0 Hlt H100. unfold truncated_vibrance, clamp.
  pose proof (Z.quot_rem' ((l - 50) * 126) 100) as Hq.
  pose proof (Z.quot_rem' ((l' - 50) * 126) 100) as Hq'.
  pose proof (Z.rem_bound_abs ((l - 50) * 126) 100 ltac:(lia)) as Hr.
  pose proof (Z.rem_bound_abs ((l' - 50) * 126) 100 ltac:(lia)) as Hr'.
  pose proof (Z.rem_sign_nz ((l - 50) * 126) 100 ltac:(lia)) as Hs.
  pose proof (Z.rem_sign_nz ((l' - 50) * 126) 100 ltac:(lia)) as Hs'.
  lia.
Qed.

(** X12. On the levels of the interface the mapping is strictly
    increasing: two different levels between 0 and 100 never give the
    same hardware value, and a higher level gives a higher value. *)
Theorem vibrance_val_strictly_increasing (l l' : Z) :
  0 <= l -> l < l' -> l' <= 100 ->
  exists v v', vibrance_val l = Ok v /\ vibrance_val l' = Ok v' /\ v < v'.
Proof.
  intros H0 Hlt H100.
  exists (truncated_vibrance l), (truncated_vibrance l').
  split; [apply vibrance_val_truncates; lia |].
  split; [apply vibrance_val_truncates; lia |].
  by apply truncated_strictly_increasing.
Qed.

Lemma vibrance_val_strictly_increasing_witness :
  exists v v', vibrance_val 49 = Ok v /\ vibrance_val 50 = Ok v' /\ v < v'.
Proof.
  apply (vibrance_val_strictly_increasing 49 50); lia.
Defined.

(** X13. The mapping is symmetric about level 50: on the levels of the
    interface, level [100 - l] gives the opposite of the value of level
    [l]. *)
Theorem vibrance_val_is_odd (l : Z) :
  0 <= l <= 100 ->
  exists v, vibrance_val l = Ok v /\ vibrance_val (100 - l) = Ok (- v).
Proof.
  intros Hl. exists (truncated_vibrance l).
  split; [apply vibrance_val_truncates; lia |].
  rewrite vibrance_val_truncates by lia. f_equal.
  unfold truncated_vibrance, clamp.
  replace ((100 - l - 50) * 126) with (- ((l - 50) * 126)) by lia.
  rewrite Z.quot_opp_l by lia. lia.
Qed.

Lemma vibrance_val_is_odd_witness :
  exists v, vibrance_val 30 = Ok v /\ vibrance_val (100 - 30) = Ok (- v).
Proof. apply (vibrance_val_is_odd 30). lia. Defined.

End VibranceSafety.

(* ===================================================================== *)
(** ** Further properties of [WindowsMouseService] *)
(* ===================================================================== *)

Section PointerSpeed.
Import WindowsMouseService.

(** X14. Writing then reading: after [set_speed index], [_get_speed]
    returns [index] clamped into [1, 20], whatever the speed was before. *)
Theorem get_speed_after_set_speed (index : Z) (self : t) (w : world) :
  exists s',
    (set_speed index ;; _get_speed) (self, w) = (Ok (clamp 1 20 index), s').
Proof.
  erewrite bind_ok by apply set_speed_run.
  unfold _get_speed. do 2 step_bind. eexists. reflexivity.
Qed.

(** X15. Restoring: whatever calls of [set_speed], [optimize] and [reset]
    were made since construction, with whatever arguments and outcomes,
    a final [reset] puts the system's pointer speed back to the value it
    had when the service was constructed (a valid speed, 1 to 20). *)
Theorem reset_restores_initial_speed (cs : list os_call) (w : world) :
  1 <= pointer_speed w <= 20 ->
  pointer_speed (reset (run_calls cs (__init__ w))).2.2 = pointer_speed w.
Proof.
  intros Hw.
  pose proof (run_calls_keeps_default cs (__init__ w)) as Hd.
  destruct (run_calls cs (__init__ w)) as [self w'].
  cbn [fst] in Hd. change (_default (__init__ w).1) with (pointer_speed w) in Hd.
  rewrite reset_restores_default; lia.
Qed.

Lemma reset_restores_initial_speed_witness :
  pointer_speed
    (reset (run_calls [SetSpeed 3; Optimize 1600 800; Optimize 5 0; SetSpeed 99]
                      (__init__ w0))).2.2
  = 10.
Proof.
  apply (reset_restores_initial_speed
           [SetSpeed 3; Optimize 1600 800; Optimize 5 0; SetSpeed 99] w0).
  cbn. lia.
Defined.

Lemma float_of_int_finite (n : Z) :
  - 2 ^ 1023 < n < 2 ^ 1023 -> exists x, float_of_int n = Ok x.
Proof.
  intros Hn. unfold float_of_int. destruct n as [|p|p].
  - eexists. reflexivity.
  - destruct (binary_round_int false p 1023 ltac:(lia) ltac:(lia))
      as (m & e & Hx & _ & _).
    cbn [binary_normalize]. rewrite Hx. eexists. reflexivity.
  - destruct (binary_round_int true p 1023 ltac:(lia) ltac:(lia))
      as (m & e & Hx & _ & _).
    cbn [binary_normalize]. rewrite Hx. eexists. reflexivity.
Qed.

(** X16. A zero target: [optimize(base, 0)] raises [ZeroDivisionError]
    for every [base] a double can hold, before any call to the system;
    the pointer speed and the service are left as they were. *)
Theorem optimize_zero_target (base : Z) (self : t) (w : world) :
  - 2 ^ 1023 < base < 2 ^ 1023 ->
  optimize base 0 (self, w) = (Raise ZeroDivisionError, (self, w)).
Proof.
  intros Hb. destruct (float_of_int_finite base Hb) as (x & Hx).
  unfold optimize. erewrite bind_raise; [reflexivity |].
  unfold lift, nearest_index, requested, int_mul_float, float_div_int.
  rewrite Hx. reflexivity.
Qed.

Lemma optimize_zero_target_witness :
  optimize 1600 0 ({| _default := 10 |}, w0)
  = (Raise ZeroDivisionError, ({| _default := 10 |}, w0)).
Proof.
  apply (optimize_zero_target 1600 {| _default := 10 |} w0). lia.
Defined.

Lemma min_key_from_member {A : Type} (best : A) (kbest : float)
      (rest : list (A * float)) :
  In (min_key_from best kbest rest) (best :: map fst rest).
Proof.
  revert best kbest. induction rest as [|[x kx] rest IH]; intros best kbest.
  - by left.
  - cbn [min_key_from map fst]. destruct (flt kx kbest).
    + right. apply IH.
    + destruct (IH best kbest) as [H|H]; [by left | right; by right].
Qed.

Lemma with_keys_fst (req : float) (ks : list Z) (keyed : list (Z * float)) :
  with_keys req ks = Ok keyed -> map fst keyed = ks.
Proof.
  revert keyed. induction ks as [|k ks IH]; intros keyed; cbn [with_keys].
  - by intros [= <-].
  - destruct (distance req k) as [d|e]; [| discriminate].
    cbn [mbind result_bind].
    destruct (with_keys req ks) as [rest|e]; [| discriminate].
    cbn. intros [= <-]. cbn. f_equal. by apply IH.
Qed.

Lemma nearest_index_in_table (base target k : Z) :
  nearest_index base target = Ok k -> 1 <= k <= 20.
Proof.
  unfold nearest_index.
  destruct (requested base target) as [req|e]; [| discriminate].
  cbn [mbind result_bind].
  destruct (with_keys req (keys _MAP)) as [keyed|e] eqn:Hk; [| discriminate].
  apply with_keys_fst in Hk.
  destruct keyed as [|[x kx] rest]; [discriminate |].
  cbn [min_key]. intros [= <-].
  apply In_keys_MAP. rewrite <- Hk. apply min_key_from_member.
Qed.

(** X17. [optimize] is all or nothing, for any integers [base] and
    [target] whatsoever: either it raises before touching the system,
    leaving service and world as they were, or it returns after exactly
    one pointer-speed call whose value is an index of the table, between
    1 and 20. *)
Theorem optimize_all_or_nothing (base target : Z) (self : t) (w : world) :
  (exists e, optimize base target (self, w) = (Raise e, (self, w)))
  \/ (exists k, 1 <= k <= 20
                /\ optimize base target (self, w)
                   = (Ok tt, (self, speed_applied k w))).
Proof.
  unfold optimize.
  destruct (nearest_index base target) as [k|e] eqn:Hk.
  - right. exists k. pose proof (nearest_index_in_table _ _ _ Hk) as Hr.
    split; [exact Hr |].
    erewrite bind_ok by reflexivity. rewrite set_speed_run.
    unfold clamp. by replace (Z.max 1 (Z.min 20 k)) with k by lia.
  - left. exists e. erewrite bind_raise by reflexivity. reflexivity.
Qed.

End PointerSpeed.

(* ===================================================================== *)
(** ** The tracked games: [add_game], [remove_game] and the scanner *)
(* ===================================================================== *)

Section TextFacts.

Lemma lower_ascii_idem (c : ascii) : lower_ascii (lower_ascii c) = lower_ascii c.
Proof. destruct c as [[] [] [] [] [] [] [] []]; reflexivity. Qed.

Lemma lower_idem (s : string) : lower (lower s) = lower s.
Proof.
  induction s as [|c s IH]; cbn [lower]; [reflexivity |].
  by rewrite lower_ascii_idem, IH.
Qed.

Lemma lower_nonempty (s : string) : lower s = "" -> s = "".
Proof. by destruct s. Qed.

End TextFacts.

Section GameListFacts.
Import Profiles.

Lemma member_In (x : string) (xs : list string) :
  member x xs = true <-> In x xs.
Proof.
  unfold member. rewrite existsb_exists. split.
  - intros (y & Hin & ->%String.eqb_eq). exact Hin.
  - intros Hin. exists x. split; [exact Hin | apply String.eqb_refl].
Qed.

Lemma member_false (x : string) (xs : list string) :
  member x xs = false <-> ~ In x xs.
Proof.
  rewrite <- member_In. destruct (member x xs); split; done.
Qed.

Lemma In_list_remove (x y : string) (xs : list string) :
  In y (list_remove x xs) -> In y xs.
Proof.
  induction xs as [|z xs IH]; cbn [list_remove]; [tauto |].
  destruct (String.eqb x z); cbn [In]; tauto.
Qed.

Lemma list_remove_other (x y : string) (xs : list string) :
  y <> x -> In y xs -> In y (list_remove x xs).
Proof.
  intros Hne. induction xs as [|z xs IH]; cbn [list_remove In]; [tauto |].
  destruct (String.eqb_spec x z) as [->|Hxz]; cbn [In]; [| tauto].
  intros [->|Hin]; [congruence | exact Hin].
Qed.

Lemma list_remove_NoDup (x : string) (xs : list string) :
  List.NoDup xs ->
  List.NoDup (list_remove x xs) /\ ~ In x (list_remove x xs).
Proof.
  induction 1 as [|z xs Hz Hnd [IHnd IHx]]; cbn [list_remove].
  - split; [constructor | tauto].
  - destruct (String.eqb_spec x z) as [->|Hxz]; [by split |].
    split.
    + constructor; [| exact IHnd]. intros Hin. by apply In_list_remove in Hin.
    + cbn [In]. intros [->|Hin]; [congruence | tauto].
Qed.

Lemma list_remove_snoc (x : string) (xs : list string) :
  ~ In x xs -> list_remove x (xs ++ [x]) = xs.
Proof.
  induction xs as [|z xs IH]; cbn [list_remove app In].
  - intros _. by rewrite String.eqb_refl.
  - intros Hn. destruct (String.eqb_spec x z) as [->|Hxz]; [tauto |].
    f_equal. apply IH. tauto.
Qed.

(** X21. On a list without duplicates, [remove_game] takes the name out
    entirely and touches no other entry; the list stays well kept and
    the rows shown keep matching it. *)
Theorem remove_game_removes (name : string) (st : t) :
  well_kept (games st) -> rows st = games st ->
  well_kept (games (remove_game name st))
  /\ ~ In name (games (remove_game name st))
  /\ (forall g, g <> name ->
        (In g (games (remove_game name st)) <-> In g (games st)))
  /\ rows (remove_game name st) = games (remove_game name st).
Proof.
  intros [Hnd Hall] Hrows. unfold remove_game.
  destruct (member name (games st)) eqn:Hmem.
  - cbn [games rows update_game_list cfg_save].
    destruct (list_remove_NoDup name (games st) Hnd) as [Hnd' Hgone].
    split; [split |]; [exact Hnd' | | split; [exact Hgone | split]].
    + rewrite List.Forall_forall in Hall |- *.
      intros g Hg. apply Hall. by apply In_list_remove in Hg.
    + intros g Hg. split; [apply In_list_remove | by apply list_remove_other].
    + reflexivity.
  - apply member_false in Hmem. by repeat split.
Qed.

Lemma remove_game_removes_witness :
  ~ In "game.exe"
       (games (remove_game "game.exe"
                 {| games := ["game.exe"; "cs2.exe"]; entry_game := "";
                    rows := ["game.exe"; "cs2.exe"]; saves := 0 |})).
Proof.
  destruct (remove_game_removes "game.exe"
              {| games := ["game.exe"; "cs2.exe"]; entry_game := "";
                 rows := ["game.exe"; "cs2.exe"]; saves := 0 |})
    as (_ & Hgone & _); [| reflexivity | exact Hgone].
  split.
  - repeat constructor; simpl; [intros [H|[]]; discriminate | tauto].
  - repeat first [discriminate | constructor].
Defined.

End GameListFacts.

Section GameList.
Import Profiles.

(** Python's [str.lower] and [str.strip], whatever they do to a text. *)
Variable str_lower : string -> string.
Variable str_strip : string -> string.

(** X18. The game list stays tidy under [add_game], whatever text is in
    the entry field and whatever [str.lower] and [str.strip] make of it:
    if no name occurs twice and none is empty, the same holds afterwards;
    the list is either unchanged or longer by one name at its end, the
    lowercased and stripped entry text; and the rows shown keep matching
    the list. *)
Theorem add_game_keeps_list (st : t) :
  tidy (games st) -> rows st = games st ->
  tidy (games (add_game str_lower str_strip st))
  /\ (games (add_game str_lower str_strip st) = games st
      \/ games (add_game str_lower str_strip st)
         = games st ++ [str_strip (str_lower (entry_game st))])
  /\ rows (add_game str_lower str_strip st)
     = games (add_game str_lower str_strip st).
Proof.
  intros [Hnd Hne] Hrows. unfold add_game.
  set (n := str_strip (str_lower (entry_game st))).
  destruct (String.eqb_spec n "") as [Hn|Hn]; cbn [negb andb];
    [split; [by split | split; [by left | exact Hrows]] |].
  destruct (member n (games st)) eqn:Hmem; cbn [negb];
    [split; [by split | split; [by left | exact Hrows]] |].
  apply member_false in Hmem. cbn [games rows update_game_list cfg_save].
  split; [| split; [by right | reflexivity]]. split.
  - apply List.NoDup_app; [exact Hnd | repeat constructor; tauto |].
    intros x Hx [<-|[]]. tauto.
  - intros Hin. apply in_app_or in Hin as [Hin|[Hin|[]]]; [tauto | congruence].
Qed.

(** A name that is already listed, or empty, is not added. *)
Lemma add_game_present (st : t) :
  str_strip (str_lower (entry_game st)) = ""
  \/ In (str_strip (str_lower (entry_game st))) (games st) ->
  add_game str_lower str_strip st = st.
Proof.
  unfold add_game. intros [->|Hin]; [reflexivity |].
  apply member_In in Hin. rewrite Hin.
  by destruct (negb _).
Qed.

Lemma add_game_listed (text : string) (st : t) :
  str_strip (str_lower text) = ""
  \/ In (str_strip (str_lower text))
        (games (add_game str_lower str_strip (type_entry text st))).
Proof.
  unfold add_game. cbn [type_entry entry_game games].
  destruct (String.eqb_spec (str_strip (str_lower text)) "") as [Hn|Hn];
    [by left | right]. cbn [negb andb].
  destruct (member _ (games st)) eqn:Hmem; cbn [negb games].
  - by apply member_In.
  - cbn. apply in_or_app. right. by left.
Qed.

(** X19. Adding the same text twice adds it once: the second [add_game]
    with the same entry text changes neither the list nor the number of
    saves, whatever the text and whatever [str.lower] and [str.strip]
    make of it. *)
Theorem add_game_twice (text : string) (st : t) :
  let once := add_game str_lower str_strip (type_entry text st) in
  let twice := add_game str_lower str_strip (type_entry text once) in
  games twice = games once /\ saves twice = saves once.
Proof.
  cbn zeta.
  rewrite (add_game_present
             (type_entry text (add_game str_lower str_strip
                                        (type_entry text st))))
    by apply add_game_listed.
  by split.
Qed.

(** X20. Adding and removing: when the lowercased and stripped text is
    not empty and not yet in the list, [add_game] followed by
    [remove_game] of the stored name gives back the list as it was,
    after two saves. *)
Theorem add_then_remove (text : string) (st : t) :
  let name := str_strip (str_lower text) in
  name <> "" -> ~ In name (games st) ->
  games (remove_game name (add_game str_lower str_strip (type_entry text st)))
  = games st
  /\ saves (remove_game name
              (add_game str_lower str_strip (type_entry text st)))
     = S (S (saves st)).
Proof.
  cbn zeta. intros Hn Hnot. unfold add_game.
  cbn [type_entry entry_game games saves].
  destruct (String.eqb_spec (str_strip (str_lower text)) "") as [|_]; [done |].
  apply member_false in Hnot as Hmem. rewrite Hmem. cbn [negb andb].
  unfold remove_game. cbn [games update_game_list cfg_save saves].
  assert (member (str_strip (str_lower text))
                 (games st ++ [str_strip (str_lower text)]) = true) as ->.
  { apply member_In, in_or_app. right. by left. }
  cbn [games saves update_game_list cfg_save].
  split; [by apply list_remove_snoc | reflexivity].
Qed.

(** X22. An entry that is empty once lowercased and stripped (an empty
    or whitespace-only entry) is ignored: [add_game] changes nothing,
    the entry field keeps its text and nothing is saved. *)
Theorem add_game_ignores_blank (text : string) (st : t) :
  str_strip (str_lower text) = "" ->
  add_game str_lower str_strip (type_entry text st) = type_entry text st.
Proof.
  intros Hb. apply add_game_present. left. exact Hb.
Qed.

End GameList.

Section GameListSamples.
Import Profiles.

Lemma add_game_keeps_list_witness :
  tidy (games (add_game lower PyStr.strip
                 {| games := ["game.exe"]; entry_game := " CS2.exe ";
                    rows := ["game.exe"]; saves := 0 |}))
  /\ games (add_game lower PyStr.strip
              {| games := ["game.exe"]; entry_game := " CS2.exe ";
                 rows := ["game.exe"]; saves := 0 |})
     = ["game.exe"; "cs2.exe"].
Proof.
  destruct (add_game_keeps_list lower PyStr.strip
              {| games := ["game.exe"]; entry_game := " CS2.exe ";
                 rows := ["game.exe"]; saves := 0 |})
    as (Htidy & _ & _); [| reflexivity |].
  - split; [repeat constructor; simpl; tauto |].
    simpl. intros [H|[]]. discriminate.
  - split; [exact Htidy | reflexivity].
Defined.

Lemma add_then_remove_witness :
  games (remove_game "cs2.exe"
           (add_game lower PyStr.strip
              (type_entry " CS2.exe "
                 {| games := ["game.exe"]; entry_game := "";
                    rows := ["game.exe"]; saves := 0 |})))
  = ["game.exe"]
  /\ saves (remove_game "cs2.exe"
              (add_game lower PyStr.strip
                 (type_entry " CS2.exe "
                    {| games := ["game.exe"]; entry_game := "";
                       rows := ["game.exe"]; saves := 0 |})))
     = 2%nat.
Proof.
  apply (add_then_remove lower PyStr.strip " CS2.exe "
           {| games := ["game.exe"]; entry_game := "";
              rows := ["game.exe"]; saves := 0 |}).
  - discriminate.
  - simpl. intros [H|[]]. discriminate.
Defined.

Lemma add_game_ignores_blank_witness :
  add_game lower PyStr.strip
    (type_entry "   " {| games := ["game.exe"]; entry_game := "";
                         rows := ["game.exe"]; saves := 0 |})
  = type_entry "   " {| games := ["game.exe"]; entry_game := "";
                        rows := ["game.exe"]; saves := 0 |}.
Proof.
  apply (add_game_ignores_blank lower PyStr.strip "   "
           {| games := ["game.exe"]; entry_game := "";
              rows := ["game.exe"]; saves := 0 |}).
  reflexivity.
Defined.

End GameListSamples.

Section Scanner.
Import Profiles.

(** Python's [str.lower] and [str.strip]; of [str.lower], that
    lowercasing a lowercased text changes nothing and that only the empty
    text lowercases to the empty text. *)
Variable str_lower : string -> string.
Variable str_strip : string -> string.
Hypothesis str_lower_idem : forall s, str_lower (str_lower s) = str_lower s.
Hypothesis str_lower_nonempty : forall s, str_lower s = "" -> s = "".

Lemma StronglySorted_filter_le (P : string -> Prop) `{!forall x, Decision (P x)}
      (l : list string) :
  StronglySorted String.le l -> StronglySorted String.le (filter P l).
Proof.
  induction 1 as [|x l Hs IH Hall]; [constructor |].
  rewrite filter_cons. destruct (decide (P x)); [| exact IH].
  constructor; [exact IH |].
  apply List.Forall_forall. intros y Hy.
  apply list_elem_of_In, list_elem_of_filter in Hy as [_ Hy].
  rewrite List.Forall_forall in Hall. by apply Hall, list_elem_of_In.
Qed.

Lemma elem_of_named (p : string) (names : list (option string)) :
  p ∈ named str_lower names
  <-> exists name, Some name ∈ names /\ name <> "" /\ p = str_lower name.
Proof.
  rewrite list_elem_of_In. unfold named. rewrite in_flat_map. split.
  - intros ([name|] & Hin & Hp); [| destruct Hp].
    destruct (String.eqb_spec name "") as [|Hne]; [destruct Hp |].
    destruct Hp as [<-|[]]. exists name. by rewrite list_elem_of_In.
  - intros (name & Hin & Hne & ->). exists (Some name).
    rewrite <- list_elem_of_In. split; [exact Hin |].
    destruct (String.eqb_spec name "") as [|_]; [done | by left].
Qed.

Lemma elem_of_load (filter_txt p : string) (names : list (option string)) :
  p ∈ load str_lower filter_txt names
  <-> contains (str_lower filter_txt) p = true
      /\ exists name, Some name ∈ names /\ name <> "" /\ p = str_lower name.
Proof.
  unfold load, procs.
  rewrite list_elem_of_filter, merge_sort_Permutation,
    elem_of_remove_dups, elem_of_named.
  by rewrite Is_true_true.
Qed.

(** X23. The list of the process scanner is sorted, holds no name twice,
    and holds exactly the lowercased names of the running processes that
    have a name and contain the lowercased filter text, whatever
    [str.lower] makes of a text. *)
Theorem load_sorted_and_exact
    (filter_txt : string) (names : list (option string)) :
  StronglySorted String.le (load str_lower filter_txt names)
  /\ NoDup (load str_lower filter_txt names)
  /\ forall p,
       p ∈ load str_lower filter_txt names
       <-> contains (str_lower filter_txt) p = true
           /\ exists name,
                Some name ∈ names /\ name <> "" /\ p = str_lower name.
Proof.
  split; [| split].
  - unfold load, procs.
    apply StronglySorted_filter_le, StronglySorted_merge_sort; apply _.
  - unfold load, procs. apply NoDup_filter.
    rewrite merge_sort_Permutation. apply NoDup_remove_dups.
  - intros p. apply elem_of_load.
Qed.

(** X24. Choosing a listed process adds it to the game list: when the
    chosen name has no surrounding whitespace ([str.strip] leaves it as
    it is) and is not yet tracked, [sel] appends exactly that name and
    saves once. *)
Theorem sel_adds_listed_process
    (filter_txt p : string) (names : list (option string)) (st : t) :
  p ∈ load str_lower filter_txt names ->
  str_strip p = p ->
  ~ In p (games st) ->
  games (sel str_lower str_strip p st) = games st ++ [p]
  /\ saves (sel str_lower str_strip p st) = S (saves st).
Proof.
  intros Hp Hstrip Hnew.
  apply elem_of_load in Hp as (_ & name & _ & Hne & ->).
  assert (str_strip (str_lower (str_lower name)) = str_lower name) as Hn
      by (by rewrite str_lower_idem).
  assert (str_lower name <> "") as Hne'
      by (intros H; by apply str_lower_nonempty in H).
  unfold sel, add_game. cbn [type_entry entry_game games saves].
  rewrite Hn. destruct (String.eqb_spec (str_lower name) "") as [|_]; [done |].
  apply member_false in Hnew. rewrite Hnew. by split.
Qed.

End Scanner.

Section ScannerSamples.
Import Profiles.

Lemma sel_adds_listed_process_witness :
  games (sel lower PyStr.strip "game.exe"
             {| games := ["cs2.exe"]; entry_game := "";
                rows := ["cs2.exe"]; saves := 0 |})
  = ["cs2.exe"; "game.exe"]
  /\ saves (sel lower PyStr.strip "game.exe"
                {| games := ["cs2.exe"]; entry_game := "";
                   rows := ["cs2.exe"]; saves := 0 |}) = 1%nat.
Proof.
  apply (sel_adds_listed_process lower PyStr.strip lower_idem lower_nonempty
           "ga" "game.exe"
           [Some "Explorer.EXE"; None; Some "Game.exe"; Some ""; Some "game.exe"]
           {| games := ["cs2.exe"]; entry_game := "";
              rows := ["cs2.exe"]; saves := 0 |}).
  - vm_compute. repeat constructor.
  - reflexivity.
  - simpl. intros [H|[]]. discriminate.
Defined.

End ScannerSamples.

(* ===================================================================== *)
(** ** Reading interface values, and the update queue *)
(* ===================================================================== *)

Section InterfaceValues.
Import UiState.

(** X25. [get_ui_state] never raises, whatever the key and the state of
    the widgets. For the two vibrance keys it always returns an integer,
    which is 50 when the slider cannot be read or does not hold a finite
    number; for ["murqin"] with an unreadable switch, and for any key it
    does not know, it returns [None]. *)
Theorem get_ui_state_never_raises (key : string) (w : widgets) :
  (exists v, get_ui_state key w = Ok v)
  /\ (key = "vib_desk" \/ key = "vib_game" ->
      exists n, get_ui_state key w = Ok (VInt n))
  /\ (slider_vib_desk w = None \/ slider_vib_desk w = Some S754_nan
      \/ (exists s, slider_vib_desk w = Some (S754_infinity s)) ->
      get_ui_state "vib_desk" w = Ok (VInt 50))
  /\ (slider_vib_game w = None \/ slider_vib_game w = Some S754_nan
      \/ (exists s, slider_vib_game w = Some (S754_infinity s)) ->
      get_ui_state "vib_game" w = Ok (VInt 50))
  /\ (chk_murqin w = None -> get_ui_state "murqin" w = Ok VNone)
  /\ (key <> "vib_desk" -> key <> "vib_game" -> key <> "murqin" ->
      key <> "status" -> get_ui_state key w = Ok VNone).
Proof.
  assert (forall x : option float,
            exists n, result_try (x ← read x; n ← int_of_float x; mret (VInt n))
                                 (Ok (VInt 50)) = Ok (VInt n)) as Hvib.
  { intros [[s|s| |s m e]|]; cbn; eauto. }
  split; [| split; [| split; [| split; [| split]]]].
  - unfold get_ui_state.
    destruct (String.eqb key "vib_desk");
      [destruct (read (slider_vib_desk w) ≫= _); cbn; eauto |].
    destruct (String.eqb key "vib_game");
      [destruct (read (slider_vib_game w) ≫= _); cbn; eauto |].
    destruct (String.eqb key "murqin");
      [destruct (read (chk_murqin w) ≫= _); cbn; eauto |].
    destruct (String.eqb key "status"); cbn; eauto.
  - intros [->| ->]; unfold get_ui_state;
      cbn [String.eqb Ascii.eqb Bool.eqb andb contains String.index];
      [apply (Hvib (slider_vib_desk w)) | apply (Hvib (slider_vib_game w))].
  - intros [H|[H|[s H]]]; unfold get_ui_state; rewrite H; reflexivity.
  - intros [H|[H|[s H]]]; unfold get_ui_state; rewrite H; reflexivity.
  - intros H. unfold get_ui_state. rewrite H. reflexivity.
  - intros H1 H2 H3 H4. unfold get_ui_state.
    apply String.eqb_neq in H1, H2, H3, H4. by rewrite H1, H2, H3, H4.
Qed.

Lemma get_ui_state_never_raises_witness :
  get_ui_state "vib_desk" {| slider_vib_desk := None;
                             slider_vib_game := Some (lit 800 1);
                             chk_murqin := Some 1 |} = Ok (VInt 50)
  /\ get_ui_state "vib_game" {| slider_vib_desk := None;
                                slider_vib_game := Some (lit 800 1);
                                chk_murqin := Some 1 |} = Ok (VInt 80)
  /\ get_ui_state "volume" {| slider_vib_desk := None;
                              slider_vib_game := Some (lit 800 1);
                              chk_murqin := Some 1 |} = Ok VNone.
Proof.
  destruct (get_ui_state_never_raises "volume"
              {| slider_vib_desk := None; slider_vib_game := Some (lit 800 1);
                 chk_murqin := Some 1 |})
    as (_ & _ & Hdesk & _ & _ & Hother).
  split; [apply Hdesk; by left |].
  split; [reflexivity |].
  apply Hother; discriminate.
Defined.

End InterfaceValues.

Section UpdateQueue.
Import UiQueue.

Lemma drain_all_return (q : list update) (l : labels) :
  List.Forall returns_normally q ->
  drain q l = (Ok tt, ([], apply_all q l)).
Proof.
  intros Hq. revert l. induction Hq as [|f q Hf Hq IH]; intros l;
    [reflexivity |].
  cbn [drain apply_all]. specialize (Hf l).
  destruct (f l) as [r l']. cbn [fst snd] in *. subst r. apply IH.
Qed.

Lemma drain_app (before after : list update) (f : update) (l l' : labels)
      (e : exn) :
  List.Forall returns_normally before ->
  f (apply_all before l) = (Raise e, l') ->
  drain (before ++ f :: after) l = (Raise e, (after, l')).
Proof.
  intros Hb. revert l. induction Hb as [|g before Hg Hb IH]; intros l Hf.
  - cbn [app drain apply_all] in *. by rewrite Hf.
  - cbn [app drain apply_all] in *. specialize (Hg l).
    destruct (g l) as [r l1]. cbn [fst snd] in *. subst r. by apply IH.
Qed.

(** X26. When every queued update returns normally, [process_ui_queue]
    runs them all in the order they were queued, leaves the queue empty,
    returns normally and schedules its next run once, 100 ms later. *)
Theorem process_ui_queue_drains (st : t) :
  List.Forall returns_normally (ui_queue st) ->
  process_ui_queue st
  = (Ok tt, {| ui_queue := [];
               shown := apply_all (ui_queue st) (shown st);
               scheduled := scheduled st ++ [(100, "process_ui_queue")] |}).
Proof.
  intros Hq. unfold process_ui_queue. by rewrite drain_all_return.
Qed.

Lemma process_ui_queue_drains_witness :
  process_ui_queue
    {| ui_queue := [status_update sample_theme "DESKTOP MODE" false;
                    status_update sample_theme "GAME MODE" true];
       shown := idle_labels; scheduled := [] |}
  = (Ok tt,
     {| ui_queue := [];
        shown := {| dot_color := "#00ff88"; status_text := "GAME MODE";
                    status_color := "#ffffff" |};
        scheduled := [(100, "process_ui_queue")] |}).
Proof.
  refine (process_ui_queue_drains
            {| ui_queue := [status_update sample_theme "DESKTOP MODE" false;
                            status_update sample_theme "GAME MODE" true];
               shown := idle_labels; scheduled := [] |} _).
  repeat constructor.
Defined.

(** X27. When a queued update raises, the updates before it have run,
    the exception leaves [process_ui_queue], the updates behind it stay
    queued for the next run, and the next run is scheduled all the same:
    one failing update neither loses the others nor stops the polling. *)
Theorem process_ui_queue_survives_failure
    (st : t) (before after : list update) (f : update) (l' : labels) (e : exn) :
  ui_queue st = before ++ f :: after ->
  List.Forall returns_normally before ->
  f (apply_all before (shown st)) = (Raise e, l') ->
  process_ui_queue st
  = (Raise e, {| ui_queue := after; shown := l';
                 scheduled := scheduled st ++ [(100, "process_ui_queue")] |}).
Proof.
  intros Hq Hb Hf. unfold process_ui_queue.
  by rewrite Hq, (drain_app before after f (shown st) l' e Hb Hf).
Qed.

Lemma process_ui_queue_survives_failure_witness :
  process_ui_queue
    {| ui_queue := [status_update sample_theme "DESKTOP MODE" false;
                    failing_update;
                    status_update sample_theme "GAME MODE" true];
       shown := idle_labels; scheduled := [] |}
  = (Raise (ValueError "widget destroyed"),
     {| ui_queue := [status_update sample_theme "GAME MODE" true];
        shown := {| dot_color := "#888888"; status_text := "DESKTOP MODE";
                    status_color := "#888888" |};
        scheduled := [(100, "process_ui_queue")] |}).
Proof.
  refine (process_ui_queue_survives_failure
            {| ui_queue := [status_update sample_theme "DESKTOP MODE" false;
                            failing_update;
                            status_update sample_theme "GAME MODE" true];
               shown := idle_labels; scheduled := [] |}
            [status_update sample_theme "DESKTOP MODE" false]
            [status_update sample_theme "GAME MODE" true]
            failing_update
            {| dot_color := "#888888"; status_text := "DESKTOP MODE";
               status_color := "#888888" |}
            (ValueError "widget destroyed") eq_refl _ eq_refl).
  repeat constructor.
Defined.

End UpdateQueue.

Section StatusLine.
Import UiQueue.

Lemma apply_all_app (q q' : list update) (l : labels) :
  apply_all (q ++ q') l = apply_all q' (apply_all q l).
Proof.
  revert l. induction q as [|f q IH]; intros l; [reflexivity |].
  cbn [app apply_all]. apply IH.
Qed.

Lemma status_update_returns (th : theme) (text : string) (is_game : bool) :
  returns_normally (status_update th text is_game).
Proof. intros l. reflexivity. Qed.

(** X28. [update_status_ui] changes no label itself: it only queues the
    change. Once [process_ui_queue] has run (the updates queued before
    returning normally), the status text is the one given, the dot has
    the accent colour in a game and the secondary colour otherwise, the
    text the primary colour in a game and the secondary one otherwise,
    and the queue is empty: the last status queued is the one shown. *)
Theorem update_status_ui_shows_last
    (th : theme) (text : string) (is_game : bool) (st : t) :
  List.Forall returns_normally (ui_queue st) ->
  shown (update_status_ui th text is_game st) = shown st
  /\ (process_ui_queue (update_status_ui th text is_game st)).1 = Ok tt
  /\ ui_queue (process_ui_queue (update_status_ui th text is_game st)).2 = []
  /\ shown (process_ui_queue (update_status_ui th text is_game st)).2
     = {| dot_color := if is_game then ACCENT th else TEXT_SEC th;
          status_text := text;
          status_color := if is_game then TEXT_PRI th else TEXT_SEC th |}.
Proof.
  intros Hq.
  assert (List.Forall returns_normally
            (ui_queue (update_status_ui th text is_game st))) as Hq'.
  { cbn [update_status_ui enqueue_ui_update ui_queue].
    apply List.Forall_app. split; [exact Hq |].
    constructor; [apply status_update_returns | constructor]. }
  split; [reflexivity |].
  unfold process_ui_queue. rewrite (drain_all_return _ _ Hq').
  cbn [fst snd ui_queue shown update_status_ui enqueue_ui_update].
  split; [reflexivity |]. split; [reflexivity |].
  rewrite apply_all_app. reflexivity.
Qed.

Lemma update_status_ui_shows_last_witness :
  shown (process_ui_queue
           (update_status_ui sample_theme "GAME MODE" true
              (update_status_ui sample_theme "DESKTOP MODE" false
                 {| ui_queue := []; shown := idle_labels;
                    scheduled := [] |}))).2
  = {| dot_color := "#00ff88"; status_text := "GAME MODE";
       status_color := "#ffffff" |}.
Proof.
  refine (proj2 (proj2 (proj2
    (update_status_ui_shows_last sample_theme "GAME MODE" true
       (update_status_ui sample_theme "DESKTOP MODE" false
          {| ui_queue := []; shown := idle_labels; scheduled := [] |}) _)))).
  repeat constructor.
Defined.

End StatusLine.

(* ===================================================================== *)
(** ** The switches of the Settings view *)
(* ===================================================================== *)

Section SettingsView.
Import Settings.

Lemma registered_app (cs cs' : list call) :
  registered (cs ++ cs') = registered cs ++ registered cs'.
Proof. unfold registered. apply flat_map_app. Qed.

(** X29. [save_settings] stores the positions of the tray and
    single-monitor switches under ["start_in_tray"] and
    ["single_monitor"], leaves every other setting as it was, moves no
    switch, and saving a second time changes no setting. *)
Theorem save_settings_stores_switches (st : t) :
  settings (save_settings st) !! "start_in_tray" = Some (SBool (chk_tray st))
  /\ settings (save_settings st) !! "single_monitor"
     = Some (SBool (chk_single st))
  /\ (forall k : string, k <> "start_in_tray" -> k <> "single_monitor" ->
      settings (save_settings st) !! k = settings st !! k)
  /\ chk_startup (save_settings st) = chk_startup st
  /\ chk_tray (save_settings st) = chk_tray st
  /\ chk_single (save_settings st) = chk_single st
  /\ settings (save_settings (save_settings st)) = settings (save_settings st).
Proof.
  assert (settings (save_settings st)
          = <["single_monitor" := SBool (chk_single st)]>
              (<["start_in_tray" := SBool (chk_tray st)]> (settings st))) as Hs.
  { unfold save_settings. cbn. by destruct (chk_startup st). }
  assert (chk_startup (save_settings st) = chk_startup st
          /\ chk_tray (save_settings st) = chk_tray st
          /\ chk_single (save_settings st) = chk_single st) as (H1 & H2 & H3).
  { unfold save_settings.
    destruct (chk_startup st) eqn:E; cbn; rewrite ?E; done. }
  split; [| split; [| split; [| split; [| split; [| split]]]]]; try done.
  - rewrite Hs, lookup_insert_ne by done. by rewrite lookup_insert_eq.
  - rewrite Hs. by rewrite lookup_insert_eq.
  - intros k Hk1 Hk2. rewrite Hs.
    rewrite lookup_insert_ne by done. by rewrite lookup_insert_ne by done.
  - assert (forall s, settings (save_settings s)
              = <["single_monitor" := SBool (chk_single s)]>
                  (<["start_in_tray" := SBool (chk_tray s)]> (settings s)))
      as Hall.
    { intros s. unfold save_settings. cbn. by destruct (chk_startup s). }
    rewrite (Hall (save_settings st)), H2, H3, Hs.
    apply map_eq. intros k.
    destruct (decide (k = "single_monitor")) as [->|Hk1].
    { by rewrite !lookup_insert_eq. }
    rewrite (lookup_insert_ne _ "single_monitor" k) by done.
    destruct (decide (k = "start_in_tray")) as [->|Hk2].
    { rewrite lookup_insert_eq.
      rewrite lookup_insert_ne by done. by rewrite lookup_insert_eq. }
    rewrite (lookup_insert_ne _ "start_in_tray" k) by done.
    rewrite (lookup_insert_ne _ "single_monitor" k) by done.
    by rewrite (lookup_insert_ne _ "start_in_tray" k) by done.
Qed.

Lemma save_settings_stores_switches_witness :
  settings (save_settings
              {| settings := {["theme" := SStr "dark"]};
                 chk_startup := false; chk_tray := true; chk_single := false;
                 chk_murqin := false; murqin_mode := false;
                 target_path := "C:\tool.exe"; calls := [] |}) !! "theme"
  = Some (SStr "dark").
Proof.
  destruct (save_settings_stores_switches
              {| settings := {["theme" := SStr "dark"]};
                 chk_startup := false; chk_tray := true; chk_single := false;
                 chk_murqin := false; murqin_mode := false;
                 target_path := "C:\tool.exe"; calls := [] |})
    as (_ & _ & Hother & _).
  rewrite Hother by discriminate. reflexivity.
Defined.

(** X30. The startup switch and the Settings save register the same
    command line: with the startup switch on, both call
    [set_startup_value] once, with the target path between double quotes,
    followed by [" --minimized"] exactly when the tray switch is on; with
    the switch off neither registers anything. *)
Theorem startup_command_agrees (st : t) :
  registered (calls (toggle_startup st))
  = registered (calls (save_settings st))
  /\ registered (calls (save_settings st))
     = registered (calls st)
       ++ (if chk_startup st then
             [if chk_tray st
              then ((quote ++ target_path st ++ quote) ++ " --minimized")%string
              else (quote ++ target_path st ++ quote)%string]
           else []).
Proof.
  unfold toggle_startup, save_settings.
  destruct (chk_startup st) eqn:Hs, (chk_tray st) eqn:Ht;
    cbn [calls with_call with_settings chk_startup chk_tray target_path
         settings];
    rewrite ?Hs, ?Ht;
    cbn [calls with_call with_settings chk_startup chk_tray target_path
         settings];
    rewrite ?registered_app; cbn [registered flat_map app];
    rewrite ?app_nil_r; done.
Qed.

End SettingsView.
